(** * NexusForge Python service: authentication, cache-aside store, rate limiter

    A shallow embedding of the core of [workspace/python/app]:
    - [utils/security.py]   password hashing and verification,
    - [utils/auth.py]       bearer-token decoding and current-user resolution,
    - [utils/cache.py]      the Redis cache manager,
    - [middleware/rate_limit.py]  the fixed-window rate limiter,
    - [models/user.py], [models/base.py]  the user model and its validators,
    - [services/user_service.py]  the user service,
    - [routes/api.py]       the user endpoints.

    Python values that can raise are modelled with [pyresult]; code that talks
    to Redis or to the database threads an explicit state.  Libraries that are
    not part of the repository (python-jose, passlib, redis-py, json, pickle,
    SQLAlchemy) appear as records of operations the embedded code is
    parameterised over.  Text is modelled over ASCII code points. *)

From Stdlib Require Import ZArith Lia Bool List String Ascii DecimalString DecimalPos DecimalZ.
From Stdlib Require Import Sorted.
From stdpp Require Import base option list gmap strings.

Local Open Scope string_scope.
Local Open Scope Z_scope.

(** ** Python exceptions and results *)

Module Py.

(** The exception classes that occur in the embedded code.  All of them
    derive from [Exception]. *)
Inductive exn : Type :=
| ValueError (msg : string)
| TypeError
| AttributeError
| RuntimeError (msg : string)
| JWTError
| ValidationError
| JSONDecodeError
| PickleError
| UnicodeDecodeError
| MultipleResultsFound
| InvalidRequestError
| HTTPException (status_code : Z) (detail : string)
| BackendError (msg : string).

Inductive pyresult (A : Type) : Type :=
| Ok (a : A)
| Raise (e : exn).
Arguments Ok {A} a.
Arguments Raise {A} e.

Definition bind {A B} (r : pyresult A) (k : A -> pyresult B) : pyresult B :=
  match r with
  | Ok a => k a
  | Raise e => Raise e
  end.

Definition raises {A} (r : pyresult A) : bool :=
  match r with Ok _ => false | Raise _ => true end.

(** [except (E1, E2): handler] — the handler runs only for the listed classes. *)
Definition try_except {A} (body : pyresult A) (catches : exn -> bool)
           (handler : exn -> pyresult A) : pyresult A :=
  match body with
  | Ok a => Ok a
  | Raise e => if catches e then handler e else Raise e
  end.

(** [except Exception] *)
Definition any_exception (_ : exn) : bool := true.

(** *** Characters and strings

    A string is a list of one-byte characters.  On ASCII text, the text
    for which [isascii] answers [True], the functions below are Python's
    [str] methods; statements about them are made for such text or for
    concrete ASCII strings. *)

Definition code (c : ascii) : nat := nat_of_ascii c.

Definition in_range (lo hi : nat) (c : ascii) : bool :=
  (Nat.leb lo (code c) && Nat.leb (code c) hi)%bool.

Definition isupper_char : ascii -> bool := in_range 65 90.
Definition islower_char : ascii -> bool := in_range 97 122.
Definition isdigit_char : ascii -> bool := in_range 48 57.
Definition isalnum_char (c : ascii) : bool :=
  (isupper_char c || islower_char c || isdigit_char c)%bool.

(** Whitespace as [str.strip] sees it: TAB..CR, FS..US and SPACE. *)
Definition isspace_char (c : ascii) : bool :=
  (in_range 9 13 c || in_range 28 32 c)%bool.

Definition lower_char (c : ascii) : ascii :=
  if isupper_char c then ascii_of_nat (code c + 32) else c.

Definition chars (s : string) : list ascii := list_ascii_of_string s.
Definition text (l : list ascii) : string := string_of_list_ascii l.

(** [s.isascii()] *)
Definition isascii (s : string) : bool :=
  forallb (fun c => Nat.ltb (code c) 128) (chars s).

(** [s.isalnum()]: non-empty and every character alphanumeric. *)
Definition isalnum (s : string) : bool :=
  match chars s with
  | [] => false
  | l => forallb isalnum_char l
  end.

(** [s.lower()] *)
Definition lower (s : string) : string := text (map lower_char (chars s)).

Fixpoint lstrip_chars (l : list ascii) : list ascii :=
  match l with
  | c :: l' => if isspace_char c then lstrip_chars l' else l
  | [] => []
  end.

(** [s.strip()] *)
Definition strip (s : string) : string :=
  text (rev (lstrip_chars (rev (lstrip_chars (chars s))))).

(** [c in s] for a one-character needle. *)
Definition contains_char (c : ascii) (s : string) : bool :=
  existsb (Ascii.eqb c) (chars s).

(** [len(s)] *)
Definition len (s : string) : Z := Z.of_nat (String.length s).

(** Truthiness of a string: [not s] holds exactly for the empty string. *)
Definition truthy_str (s : string) : bool :=
  match s with EmptyString => false | _ => true end.

(** [repr(s)] for a string: in single quotes, or in double quotes when
    the text holds a single quote and no double quote; the quote and the
    backslash are escaped, and so are the control characters. *)
Definition hex_digit (n : nat) : ascii :=
  nth n (list_ascii_of_string "0123456789abcdef") "0"%char.
Definition repr_char (quote c : ascii) : list ascii :=
  let backslash := ascii_of_nat 92 in
  if (Ascii.eqb c quote || Ascii.eqb c backslash)%bool then [backslash; c]
  else if Nat.eqb (code c) 9 then [backslash; "t"%char]
  else if Nat.eqb (code c) 10 then [backslash; "n"%char]
  else if Nat.eqb (code c) 13 then [backslash; "r"%char]
  else if (Nat.ltb (code c) 32 || Nat.eqb (code c) 127)%bool
       then [backslash; "x"%char; hex_digit (Nat.div (code c) 16);
             hex_digit (Nat.modulo (code c) 16)]
       else [c].
Definition repr (s : string) : string :=
  let double := ascii_of_nat 34 in
  let quote := if (contains_char "'" s && negb (contains_char double s))%bool
               then double else "'"%char in
  text (quote :: flat_map (repr_char quote) (chars s) ++ [quote]).

(** [str(n)] for an integer. *)
Definition str_of_int (n : Z) : string := NilZero.string_of_int (Z.to_int n).

(** [s.startswith(p)] *)
Definition startswith (p s : string) : bool := String.prefix p s.

(** *** Code that talks to a backend: state passing with exceptions *)

Definition M (S A : Type) : Type := S -> pyresult A * S.

Definition retS {S A} (a : A) : M S A := fun s => (Ok a, s).
Definition raiseS {S A} (e : exn) : M S A := fun s => (Raise e, s).
Definition liftS {S A} (r : pyresult A) : M S A := fun s => (r, s).
Definition bindS {S A B} (m : M S A) (k : A -> M S B) : M S B :=
  fun s => match m s with
           | (Ok a, s') => k a s'
           | (Raise e, s') => (Raise e, s')
           end.
Definition try_exceptS {S A} (body : M S A) (catches : exn -> bool)
           (handler : exn -> M S A) : M S A :=
  fun s => match body s with
           | (Ok a, s') => (Ok a, s')
           | (Raise e, s') => if catches e then handler e s' else (Raise e, s')
           end.

End Py.

Import Py.

Declare Scope py_scope.
Delimit Scope py_scope with py.
Notation "x <- c1 ;; c2" := (Py.bind c1 (fun x => c2))
  (at level 100, c1 at next level, right associativity) : py_scope.
Notation "x <~ c1 ;; c2" := (Py.bindS c1 (fun x => c2))
  (at level 100, c1 at next level, right associativity) : py_scope.

(** ** The user model ([models/user.py], [models/base.py]) *)

Module Models.

(** A row of table [users].  Timestamps are seconds since the epoch;
    [None] is SQL NULL. *)
Record User : Type := mkUser {
  id : Z;
  email : string;
  username : string;
  hashed_password : string;
  full_name : option string;
  is_active : bool;
  is_verified : bool;
  is_superuser : bool;
  last_login_at : option Z;
  email_verified_at : option Z;
  created_at : Z;
  updated_at : Z;
  deleted_at : option Z
}.

(** [SoftDeleteMixin.is_deleted] *)
Definition is_deleted (u : User) : bool :=
  match deleted_at u with Some _ => true | None => false end.

(** [User.validate_email] *)
Definition validate_email (email : string) : pyresult string :=
  if (negb (truthy_str email) || negb (contains_char "@" email))%bool
  then Raise (ValueError "Invalid email address")
  else Ok (strip (lower email)).

(** [User.validate_username] *)
Definition validate_username (username : string) : pyresult string :=
  if (negb (truthy_str username) || (len username <? 3))%bool
  then Raise (ValueError "Username must be at least 3 characters")
  else if (negb (isalnum username) && negb (contains_char "_" username))%bool
  then Raise (ValueError "Username can only contain letters, numbers, and underscores")
  else Ok (strip (lower username)).

(** Attribute writes.  Plain columns are stored as given. *)
Definition with_email (u : User) (v : string) : User :=
  mkUser (id u) v (username u) (hashed_password u) (full_name u) (is_active u)
         (is_verified u) (is_superuser u) (last_login_at u) (email_verified_at u)
         (created_at u) (updated_at u) (deleted_at u).
Definition with_username (u : User) (v : string) : User :=
  mkUser (id u) (email u) v (hashed_password u) (full_name u) (is_active u)
         (is_verified u) (is_superuser u) (last_login_at u) (email_verified_at u)
         (created_at u) (updated_at u) (deleted_at u).
Definition with_hashed_password (u : User) (v : string) : User :=
  mkUser (id u) (email u) (username u) v (full_name u) (is_active u)
         (is_verified u) (is_superuser u) (last_login_at u) (email_verified_at u)
         (created_at u) (updated_at u) (deleted_at u).
Definition with_full_name (u : User) (v : option string) : User :=
  mkUser (id u) (email u) (username u) (hashed_password u) v (is_active u)
         (is_verified u) (is_superuser u) (last_login_at u) (email_verified_at u)
         (created_at u) (updated_at u) (deleted_at u).
Definition with_is_active (u : User) (v : bool) : User :=
  mkUser (id u) (email u) (username u) (hashed_password u) (full_name u) v
         (is_verified u) (is_superuser u) (last_login_at u) (email_verified_at u)
         (created_at u) (updated_at u) (deleted_at u).
Definition with_is_verified (u : User) (v : bool) : User :=
  mkUser (id u) (email u) (username u) (hashed_password u) (full_name u) (is_active u)
         v (is_superuser u) (last_login_at u) (email_verified_at u)
         (created_at u) (updated_at u) (deleted_at u).
Definition with_email_verified_at (u : User) (v : option Z) : User :=
  mkUser (id u) (email u) (username u) (hashed_password u) (full_name u) (is_active u)
         (is_verified u) (is_superuser u) (last_login_at u) v
         (created_at u) (updated_at u) (deleted_at u).
Definition with_updated_at (u : User) (v : Z) : User :=
  mkUser (id u) (email u) (username u) (hashed_password u) (full_name u) (is_active u)
         (is_verified u) (is_superuser u) (last_login_at u) (email_verified_at u)
         (created_at u) v (deleted_at u).
Definition with_deleted_at (u : User) (v : option Z) : User :=
  mkUser (id u) (email u) (username u) (hashed_password u) (full_name u) (is_active u)
         (is_verified u) (is_superuser u) (last_login_at u) (email_verified_at u)
         (created_at u) (updated_at u) v.

(** [user.email = v] and [user.username = v] run the [@validates] hooks. *)
Definition assign_email (u : User) (v : string) : pyresult User :=
  (e <- validate_email v ;; Ok (with_email u e))%py.
Definition assign_username (u : User) (v : string) : pyresult User :=
  (n <- validate_username v ;; Ok (with_username u n))%py.

(** [SoftDeleteMixin.soft_delete] at time [now] *)
Definition soft_delete (now : Z) (u : User) : User := with_deleted_at u (Some now).

(** [User.verify_email] at time [now] *)
Definition verify_email (now : Z) (u : User) : User :=
  with_email_verified_at (with_is_verified u true) (Some now).

End Models.

(** ** Settings ([config.py]): the fields the core reads *)

Module Config.

Record Settings : Type := mkSettings {
  jwt_secret_key : string;
  jwt_algorithm : string;
  jwt_access_token_expire_minutes : Z;
  rate_limit_enabled : bool;
  rate_limit_per_minute : Z;
  enable_cache : bool
}.

(** The defaults of [Settings]. *)
Definition defaults : Settings :=
  mkSettings "your-secret-key" "HS256" 30 true 60 true.

End Config.

(** ** Request schemas ([schemas/user.py]) *)

Module Schemas.



(** [UserUpdate]: every field is optional. *)
Record UserUpdate : Type := mkUserUpdate {
  upd_email : option string;
  upd_username : option string;
  upd_full_name : option string;
  upd_password : option string;
  upd_is_active : option bool
}.

(** [UserUpdate.validate_username] applied to a present username, together
    with the field's [min_length=3, max_length=100]. *)
Definition remove_underscores (v : string) : string :=
  text (filter (fun c => negb (Ascii.eqb c "_")) (chars v)).

Definition validate_username (v : string) : pyresult string :=
  if (len v <? 3) || (100 <? len v) then Raise ValidationError
  else if negb (isalnum (remove_underscores v)) then Raise ValidationError
  else Ok (lower v).

(** [TokenData] *)
Record TokenData : Type := mkTokenData {
  user_id : option Z;
  td_username : option string;
  td_email : option string
}.

End Schemas.

(** ** Password hashing ([utils/security.py]) *)

Module Security.

(** passlib's [CryptContext(schemes=["bcrypt"])].  Hashing draws a salt from
    the operating system; the salt is an explicit argument here. *)
Record CryptContext : Type := mkCryptContext {
  salt : Type;
  ctx_hash : salt -> string -> pyresult string;
  ctx_verify : string -> string -> pyresult bool
}.

(** [get_password_hash] *)
Definition get_password_hash (pwd_context : CryptContext) (s : salt pwd_context)
           (password : string) : pyresult string :=
  ctx_hash pwd_context s password.

(** [verify_password] *)
Definition verify_password (pwd_context : CryptContext)
           (plain_password hashed_password : string) : pyresult bool :=
  try_except (ctx_verify pwd_context plain_password hashed_password)
             any_exception
             (fun _ => Ok false).

(** A small context used to exercise the definitions: the digest is the salt
    character followed by the password, anything else is malformed. *)
Definition toy_context : CryptContext :=
  mkCryptContext ascii
    (fun c p => Ok (String c p))
    (fun p d => match d with
                | String _ p' => Ok (String.eqb p p')
                | EmptyString => Raise (ValueError "malformed hash")
                end).




End Security.

(** ** Bearer tokens and current-user resolution ([utils/auth.py]) *)

Module Json.

(** JSON values as python-jose hands them over (numbers are integers). *)
#[local] Unset Elimination Schemes.
Inductive json : Type :=
| JNull
| JBool (b : bool)
| JNum (n : Z)
| JStr (s : string)
| JArr (l : list json)
| JObj (l : list (string * json)).
#[local] Set Elimination Schemes.

Definition dict := list (string * json).

(** [d.get(k)]: a missing key and a JSON null both read as [None]. *)
Fixpoint get (k : string) (d : dict) : option json :=
  match d with
  | [] => None
  | (k', v) :: d' =>
      if String.eqb k k'
      then match v with JNull => None | _ => Some v end
      else get k d'
  end.

(** [d[k] = v] *)
Fixpoint set (k : string) (v : json) (d : dict) : dict :=
  match d with
  | [] => [(k, v)]
  | (k', v') :: d' => if String.eqb k k' then (k, v) :: d' else (k', v') :: set k v d'
  end.

(** Digits of an integer literal; underscores may separate digits. *)
Fixpoint int_digits (acc : Z) (after_digit : bool) (l : list ascii) : option Z :=
  match l with
  | [] => if after_digit then Some acc else None
  | c :: l' =>
      if isdigit_char c
      then int_digits (10 * acc + (Z.of_nat (code c) - 48)) true l'
      else if Ascii.eqb c "_" && after_digit
           then int_digits acc false l'
           else None
  end.

(** [int(s)] for a string: surrounding whitespace, an optional sign, digits. *)
Definition int_of_str (s : string) : pyresult Z :=
  let parsed :=
    match chars (strip s) with
    | "-"%char :: l => Z.opp <$> int_digits 0 false l
    | "+"%char :: l => int_digits 0 false l
    | l => int_digits 0 false l
    end in
  match parsed with
  | Some n => Ok n
  | None => Raise (ValueError ("invalid literal for int() with base 10: " ++ repr s))
  end.

(** [int(v)] *)
Definition int (v : json) : pyresult Z :=
  match v with
  | JNum n => Ok n
  | JBool b => Ok (if b then 1 else 0)
  | JStr s => int_of_str s
  | JNull | JArr _ | JObj _ => Raise TypeError
  end.

(** pydantic's check of an [Optional[str]] field. *)
Definition optional_str (v : option json) : pyresult (option string) :=
  match v with
  | None => Ok None
  | Some (JStr s) => Ok (Some s)
  | Some _ => Raise ValidationError
  end.

End Json.

Module Db.
Import Models.

(** [result.scalar_one_or_none()] *)
Definition scalar_one_or_none (found : list User) : pyresult (option User) :=
  match found with
  | [] => Ok None
  | [u] => Ok (Some u)
  | _ => Raise MultipleResultsFound
  end.

(** [User.deleted_at.is_(None)] *)
Definition not_deleted (u : User) : bool := negb (is_deleted u).

(** [db.execute(select(User).where(...))]; [fault] is the error the
    database raises, if any. *)
Definition execute (fault : option exn) (rows : list User) (where_ : User -> bool)
  : pyresult (list User) :=
  match fault with
  | Some e => Raise e
  | None => Ok (List.filter where_ rows)
  end.

End Db.

Module Auth.
Import Models Schemas Json Config.

(** python-jose. *)
Record Jose : Type := mkJose {
  jwt_encode : dict -> string -> string -> pyresult string;
  jwt_decode : string -> string -> list string -> pyresult dict
}.

Definition is_JWTError (e : exn) : bool :=
  match e with JWTError => true | _ => false end.

(** [create_access_token]; [expires_delta] is in seconds, [utcnow] is the clock. *)
Definition create_access_token (jose : Jose) (settings : Settings) (utcnow : Z)
           (data : dict) (expires_delta : option Z) : pyresult string :=
  let expire :=
    match expires_delta with
    | Some d => if d =? 0 then utcnow + 60 * jwt_access_token_expire_minutes settings
                else utcnow + d
    | None => utcnow + 60 * jwt_access_token_expire_minutes settings
    end in
  let to_encode := Json.set "iat" (JNum utcnow) (Json.set "exp" (JNum expire) data) in
  jwt_encode jose to_encode (jwt_secret_key settings) (jwt_algorithm settings).

(** [decode_access_token] *)
Definition decode_access_token (jose : Jose) (settings : Settings) (token : string)
  : pyresult (option TokenData) :=
  try_except
    (payload <- jwt_decode jose token (jwt_secret_key settings) [jwt_algorithm settings] ;;
     let user_id := Json.get "sub" payload in
     let username := Json.get "username" payload in
     let email := Json.get "email" payload in
     match user_id with
     | None => Ok None
     | Some sub =>
         uid <- Json.int sub ;;
         u <- optional_str username ;;
         e <- optional_str email ;;
         Ok (Some (mkTokenData (Some uid) u e))
     end)%py
    is_JWTError
    (fun _ => Ok None).

Definition credentials_exception : exn :=
  HTTPException 401 "Could not validate credentials".

(** [get_current_user]; [rows] is table [users], [fault] a database error. *)
Definition get_current_user (jose : Jose) (settings : Settings)
           (fault : option exn) (rows : list User) (credentials : string)
  : pyresult User :=
  (token_data <- decode_access_token jose settings credentials ;;
   match token_data with
   | None => Raise credentials_exception
   | Some td =>
       match user_id td with
       | None => Raise credentials_exception
       | Some uid =>
           result <- Db.execute fault rows
                       (fun u => (id u =? uid) && Db.not_deleted u) ;;
           user <- Db.scalar_one_or_none result ;;
           match user with
           | None => Raise credentials_exception
           | Some u => Ok u
           end
       end
   end)%py.

(** [get_current_active_user] *)
Definition get_current_active_user (current_user : User) : pyresult User :=
  if negb (is_active current_user)
  then Raise (HTTPException 403 "Inactive user")
  else Ok current_user.

(** [get_current_superuser] *)
Definition get_current_superuser (current_user : User) : pyresult User :=
  if negb (is_superuser current_user)
  then Raise (HTTPException 403 "Not enough privileges")
  else Ok current_user.

(** A decoder that knows two well-signed tokens, one whose payload carries
    the subject [7] and one whose payload carries the subject [abc], and
    rejects every other string. *)
Definition jose_fixture : Jose :=
  mkJose (fun _ _ _ => Ok "signed.7.token")
         (fun token _ _ =>
            if String.eqb token "signed.7.token"
            then Ok [("sub", JStr "7"); ("username", JStr "alice");
                     ("email", JStr "alice@x.com"); ("exp", JNum 2000000000)]
            else if String.eqb token "signed.abc.token"
            then Ok [("sub", JStr "abc"); ("username", JStr "alice");
                     ("exp", JNum 2000000000)]
            else Raise JWTError).

End Auth.

(** ** The cache manager ([utils/cache.py]) *)

Module Cache.
Import Models Config.

(** Python values that travel through the cache. *)
#[local] Unset Elimination Schemes.
Inductive pyobj : Type :=
| PNone
| PBool (b : bool)
| PInt (n : Z)
| PStr (s : string)
| PBytes (b : string)
| PList (l : list pyobj)
| PTuple (l : list pyobj)
| PDict (l : list (string * pyobj))
| PUser (u : User).
#[local] Set Elimination Schemes.

(** [bool(o)] *)
Definition truthy (o : pyobj) : bool :=
  match o with
  | PNone => false
  | PBool b => b
  | PInt n => negb (n =? 0)
  | PStr s | PBytes s => truthy_str s
  | PList l | PTuple l => match l with [] => false | _ => true end
  | PDict l => match l with [] => false | _ => true end
  | PUser _ => true
  end.

(** The commands of redis-py's asynchronous client that the service uses,
    over a connection state [S].  [r_get] answers [None] for a missing key
    and otherwise the stored text (or bytes). *)
Record RedisClient (S : Type) : Type := mkRedisClient {
  r_ping : M S bool;
  r_get : string -> M S (option pyobj);
  r_set : string -> pyobj -> M S unit;
  r_setex : string -> Z -> pyobj -> M S unit;
  r_delete : list string -> M S Z;
  r_exists : string -> M S Z;
  r_scan_iter : string -> M S (list string);
  r_incrby : string -> Z -> M S Z;
  r_expire : string -> Z -> M S bool;
  r_ttl : string -> M S Z
}.
Arguments mkRedisClient {S}.
Arguments r_ping {S}.
Arguments r_get {S}.
Arguments r_set {S}.
Arguments r_setex {S}.
Arguments r_delete {S}.
Arguments r_exists {S}.
Arguments r_scan_iter {S}.
Arguments r_incrby {S}.
Arguments r_expire {S}.
Arguments r_ttl {S}.

(** [redis.incr(key)] is [incrby] with amount 1. *)
Definition r_incr {S} (c : RedisClient S) (key : string) : M S Z := r_incrby c key 1.

(** [json] and [pickle]. *)
Record Codec : Type := mkCodec {
  json_loads : pyobj -> pyresult pyobj;
  json_dumps : pyobj -> pyresult pyobj;
  pickle_loads : pyobj -> pyresult pyobj;
  pickle_dumps : pyobj -> pyresult pyobj
}.

(** [CacheManager]: [_redis] is [None] until [connect] has run. *)
Record CacheManager (S : Type) : Type := mkCacheManager {
  _redis : option (RedisClient S)
}.
Arguments mkCacheManager {S}.
Arguments _redis {S}.

Section Manager.
Context {S : Type}.
Variable settings : Settings.
Variable codec : Codec.
Variable self : CacheManager S.

(** [self._redis.op(...)]: an attribute access on [None] raises. *)
Definition on_redis {A} (op : RedisClient S -> M S A) : M S A :=
  match _redis self with
  | Some c => op c
  | None => raiseS AttributeError
  end.

(** [get_client] *)
Definition get_client : M S (RedisClient S) :=
  match _redis self with
  | Some c => retS c
  | None => raiseS (RuntimeError "Redis not connected. Call connect() first.")
  end.

Definition json_errors (e : exn) : bool :=
  match e with JSONDecodeError | TypeError => true | _ => false end.
Definition pickle_errors (e : exn) : bool :=
  match e with PickleError | TypeError => true | _ => false end.

(** [CacheManager.get] *)
Definition get (key : string) (default : pyobj) : M S pyobj :=
  if negb (enable_cache settings) then retS default
  else
    try_exceptS
      (value <~ on_redis (fun c => r_get c key) ;;
       match value with
       | None => retS default
       | Some v =>
           liftS (try_except (json_loads codec v) json_errors
                    (fun _ => try_except (pickle_loads codec v) pickle_errors
                                (fun _ => Ok v)))
       end)%py
      any_exception
      (fun _ => retS default).

(** [CacheManager.set]; [ttl] is [None] when the argument is omitted. *)
Definition set (key : string) (value : pyobj) (ttl : option Z) : M S bool :=
  if negb (enable_cache settings) then retS false
  else
    try_exceptS
      (serialized <~ liftS (match value with
                            | PDict _ | PList _ | PTuple _ => json_dumps codec value
                            | PStr _ | PInt _ | PBool _ => Ok value
                            | _ => pickle_dumps codec value
                            end) ;;
       _ <~ (match ttl with
             | Some t => if t =? 0
                         then on_redis (fun c => r_set c key serialized)
                         else on_redis (fun c => r_setex c key t serialized)
             | None => on_redis (fun c => r_set c key serialized)
             end) ;;
       retS true)%py
      any_exception
      (fun _ => retS false).

(** [CacheManager.delete] *)
Definition delete (key : string) : M S bool :=
  if negb (enable_cache settings) then retS false
  else
    try_exceptS
      (result <~ on_redis (fun c => r_delete c [key]) ;;
       retS (0 <? result))%py
      any_exception
      (fun _ => retS false).

(** [CacheManager.exists] *)
Definition exists_ (key : string) : M S bool :=
  if negb (enable_cache settings) then retS false
  else
    try_exceptS
      (result <~ on_redis (fun c => r_exists c key) ;;
       retS (0 <? result))%py
      any_exception
      (fun _ => retS false).

(** [CacheManager.clear_pattern] *)
Definition clear_pattern (pattern : string) : M S Z :=
  if negb (enable_cache settings) then retS 0
  else
    try_exceptS
      (keys <~ on_redis (fun c => r_scan_iter c pattern) ;;
       match keys with
       | [] => retS 0
       | _ => on_redis (fun c => r_delete c keys)
       end)%py
      any_exception
      (fun _ => retS 0).

(** [CacheManager.increment] *)
Definition increment (key : string) (amount : Z) : M S Z :=
  try_exceptS (on_redis (fun c => r_incrby c key amount))
              any_exception (fun _ => retS 0).

(** [CacheManager.expire] *)
Definition expire (key : string) (ttl : Z) : M S bool :=
  try_exceptS (on_redis (fun c => r_expire c key ttl))
              any_exception (fun _ => retS false).

End Manager.

(** The JSON texts of the examples: an integer ([-] and digits, no leading
    zero) or one of the literals [null], [true], [false], with blanks
    around it. *)
Definition json_blank (c : ascii) : bool :=
  (Nat.eqb (code c) 32 || Nat.eqb (code c) 9 || Nat.eqb (code c) 10
   || Nat.eqb (code c) 13)%bool.
Fixpoint skip_blanks (l : list ascii) : list ascii :=
  match l with
  | c :: l' => if json_blank c then skip_blanks l' else l
  | [] => []
  end.
Definition json_digits (body : list ascii) : option Z :=
  match body with
  | [] => None
  | "0"%char :: _ :: _ => None
  | _ => if forallb isdigit_char body then Json.int_digits 0 false body else None
  end.
Definition json_scalar (s : string) : option pyobj :=
  let l := rev (skip_blanks (rev (skip_blanks (chars s)))) in
  if String.eqb (text l) "null" then Some PNone
  else if String.eqb (text l) "true" then Some (PBool true)
  else if String.eqb (text l) "false" then Some (PBool false)
  else match l with
       | "-"%char :: body => (fun n => PInt (- n)) <$> json_digits body
       | body => PInt <$> json_digits body
       end.

(** A codec for the examples.  It knows the JSON texts above; any other
    text here is not JSON and is rejected by [json.loads] with
    [JSONDecodeError], and by [pickle.loads], which wants bytes, with
    [TypeError].  A pickle is opaque binary data: [json.loads] cannot
    decode it as UTF-8. *)
Definition text_codec : Codec :=
  mkCodec
    (fun v => match v with
              | PStr s => match json_scalar s with
                          | Some o => Ok o
                          | None => Raise JSONDecodeError
                          end
              | PBytes _ => Raise UnicodeDecodeError
              | _ => Raise TypeError
              end)
    (fun v => Ok (PStr "<json>"))
    (fun v => match v with
              | PBytes _ => Raise PickleError
              | _ => Raise TypeError
              end)
    (fun v => Ok (PBytes "<pickle>")).

End Cache.

(** ** A reference Redis: keys with integer or opaque values and deadlines *)

Module Redis.
Import Cache.

Record entry : Type := mkEntry {
  value : pyobj;
  deadline : option Z
}.

Inductive command : Type :=
| GET (key : string)
| SET (key : string)
| SETEX (key : string) (ttl : Z)
| DEL (keys : list string)
| EXISTS (key : string)
| INCRBY (key : string) (amount : Z)
| EXPIRE (key : string) (ttl : Z)
| TTL (key : string).

(** The keyspace and the commands received so far (latest last). *)
Record store : Type := mkStore {
  keys : gmap string entry;
  received : list command
}.

Definition empty : store := mkStore ∅ [].

(** An entry is served up to and including the instant of its deadline. *)
Definition live (now : Z) (e : entry) : bool :=
  match deadline e with
  | Some d => now <=? d
  | None => true
  end.

(** Signed 64-bit integers. *)
Definition max_int64 : Z := 9223372036854775807.
Definition int64 (n : Z) : bool := (- max_int64 - 1 <=? n) && (n <=? max_int64).

(** The integer a stored value stands for, if any: the decimal text of a
    64-bit integer, without sign [+], leading zeros or blanks. *)
Definition canonical_int (s : string) : option Z :=
  match NilZero.int_of_string s with
  | Some d => let n := Z.of_int d in
              if String.eqb (str_of_int n) s && int64 n then Some n else None
  | None => None
  end.
Definition as_int64 (o : pyobj) : option Z :=
  match o with
  | PInt n => if int64 n then Some n else None
  | PStr s | PBytes s => canonical_int s
  | _ => None
  end.

(** The entry under [key] at time [now]; an entry past its deadline is gone. *)
Definition lookup (now : Z) (s : store) (key : string) : option entry :=
  match keys s !! key with
  | Some e => if live now e then Some e else None
  | None => None
  end.

Definition record (c : command) (s : store) : store :=
  mkStore (keys s) (received s ++ [c]).

Definition put (key : string) (e : entry) (s : store) : store :=
  mkStore (<[key := e]> (keys s)) (received s).

Definition remove (key : string) (s : store) : store :=
  mkStore (base.delete key (keys s)) (received s).

Definition get (now : Z) (key : string) : M store (option pyobj) :=
  fun s0 => let s := record (GET key) s0 in
    match lookup now s key with
    | Some e => (Ok (Some match value e with
                          | PInt n => PStr (str_of_int n)
                          | o => o
                          end), s)
    | None => (Ok None, s)
    end.

(** [SET].  The value is kept as the caller handed it over; what
    redis-py refuses to encode before it sends anything (a [bool]) is not
    part of this reference. *)
Definition set (key : string) (v : pyobj) : M store unit :=
  fun s0 => (Ok tt, put key (mkEntry v None) (record (SET key) s0)).

(** [SETEX]: the server refuses a time to live that is not positive. *)
Definition setex (now : Z) (key : string) (ttl : Z) (v : pyobj) : M store unit :=
  fun s0 =>
    if 0 <? ttl
    then (Ok tt, put key (mkEntry v (Some (now + ttl))) (record (SETEX key ttl) s0))
    else (Raise (BackendError "invalid expire time in 'setex' command"),
          record (SETEX key ttl) s0).

Definition delete (now : Z) (ks : list string) : M store Z :=
  fun s0 => let s := record (DEL ks) s0 in
    fold_right (fun k '(r, s') =>
                  match r with
                  | Ok n => match lookup now s' k with
                            | Some _ => (Ok (n + 1), remove k s')
                            | None => (Ok n, remove k s')
                            end
                  | Raise e => (Raise e, s')
                  end) (Ok 0, s) ks.

Definition exists_ (now : Z) (key : string) : M store Z :=
  fun s0 => let s := record (EXISTS key) s0 in
    match lookup now s key with
    | Some _ => (Ok 1, s)
    | None => (Ok 0, s)
    end.

(** [INCRBY]: counters are signed 64-bit integers; a missing key counts
    from 0. *)
Definition incrby (now : Z) (key : string) (amount : Z) : M store Z :=
  fun s0 => let s := record (INCRBY key amount) s0 in
    if negb (int64 amount)
    then (Raise (BackendError "value is not an integer or out of range"), s)
    else
      let current :=
        match lookup now s key with
        | Some e => match as_int64 (value e) with
                    | Some n => Some (n, deadline e)
                    | None => None
                    end
        | None => Some (0, None)
        end in
      match current with
      | Some (n, d) =>
          if int64 (n + amount)
          then (Ok (n + amount), put key (mkEntry (PInt (n + amount)) d) s)
          else (Raise (BackendError "increment or decrement would overflow"), s)
      | None => (Raise (BackendError "value is not an integer or out of range"), s)
      end.

(** [EXPIRE]: a time to live that is not positive deletes the key. *)
Definition expire (now : Z) (key : string) (ttl : Z) : M store bool :=
  fun s0 => let s := record (EXPIRE key ttl) s0 in
    match lookup now s key with
    | Some e => if 0 <? ttl
                then (Ok true, put key (mkEntry (value e) (Some (now + ttl))) s)
                else (Ok true, remove key s)
    | None => (Ok false, s)
    end.

(** [TTL]: seconds left ([0] at the instant of the deadline), [-1] without
    a deadline, [-2] for a missing key. *)
Definition ttl (now : Z) (key : string) : M store Z :=
  fun s0 => let s := record (TTL key) s0 in
    match lookup now s key with
    | Some e => match deadline e with
                | Some d => (Ok (d - now), s)
                | None => (Ok (-1), s)
                end
    | None => (Ok (-2), s)
    end.

(** [SCAN MATCH pattern] for a pattern that is a prefix followed by [*]. *)
Definition matches (pattern key : string) : bool :=
  match rev (chars pattern) with
  | "*"%char :: p => startswith (text (rev p)) key
  | _ => String.eqb pattern key
  end.

Definition scan_iter (now : Z) (pattern : string) : M store (list string) :=
  fun s => (Ok (List.filter (fun k => matches pattern k &&
                                     bool_decide (is_Some (lookup now s k)))
                           (map fst (map_to_list (keys s)))), s).

(** The client as seen at time [now]. *)
Definition client (now : Z) : RedisClient store :=
  mkRedisClient (retS true) (get now) set (setex now) (delete now) (exists_ now)
                (scan_iter now) (incrby now) (expire now) (ttl now).

End Redis.

(** ** The rate limiter ([middleware/rate_limit.py]) *)

Module RateLimit.
Import Cache.

Record Request : Type := mkRequest {
  path : string;
  client : option string          (* [request.client.host], if any *)
}.

Record Response : Type := mkResponse {
  status_code : Z;
  headers : list (string * string);
  content : Json.dict
}.

(** [response.headers[k] = v] *)
Fixpoint set_header (k v : string) (h : list (string * string)) : list (string * string) :=
  match h with
  | [] => [(k, v)]
  | (k', v') :: h' => if String.eqb k k' then (k, v) :: h' else (k', v') :: set_header k v h'
  end.

Fixpoint header (k : string) (h : list (string * string)) : option string :=
  match h with
  | [] => None
  | (k', v) :: h' => if String.eqb k k' then Some v else header k h'
  end.

Record RateLimitMiddleware : Type := mkMiddleware {
  requests_per_minute : Z;
  window_size : Z
}.

(** [RateLimitMiddleware.__init__] *)
Definition init (requests_per_minute : Z) : RateLimitMiddleware :=
  mkMiddleware requests_per_minute 60.

Section Dispatch.
Context {S : Type}.
Variable cache_manager : CacheManager S.
Variable time : Z.                              (* [int(time.time())] *)
Variable self : RateLimitMiddleware.
Variable call_next : Request -> M S Response.

(** The 429 answer. *)
Definition too_many_requests (ttl : Z) : Response :=
  mkResponse 429
    [("Retry-After", str_of_int ttl);
     ("X-RateLimit-Limit", str_of_int (requests_per_minute self));
     ("X-RateLimit-Remaining", "0");
     ("X-RateLimit-Reset", str_of_int (time + ttl))]
    [("error", Json.JStr "Rate limit exceeded");
     ("message", Json.JStr ("Too many requests. Please try again in "
                              ++ str_of_int ttl ++ " seconds."));
     ("retry_after", Json.JNum ttl)].

(** The quota headers put on a response that went through. *)
Definition with_quota (current_count ttl : Z) (response : Response) : Response :=
  let remaining := Z.max 0 (requests_per_minute self - current_count) in
  mkResponse (status_code response)
    (set_header "X-RateLimit-Reset" (str_of_int (time + ttl))
       (set_header "X-RateLimit-Remaining" (str_of_int remaining)
          (set_header "X-RateLimit-Limit" (str_of_int (requests_per_minute self))
             (headers response))))
    (content response).

(** The counter commands at the head of the [try] block: the client, the
    increment, the expiry on the first request, the TTL. *)
Definition read_counter (rate_limit_key : string) : M S (Z * Z) :=
  (redis <~ get_client cache_manager ;;
   current_count <~ r_incr redis rate_limit_key ;;
   _ <~ (if current_count =? 1
         then (_ <~ r_expire redis rate_limit_key (window_size self) ;; retS tt)
         else retS tt) ;;
   ttl <~ r_ttl redis rate_limit_key ;;
   retS (current_count, ttl))%py.

Definition rate_limit_key (request : Request) : string :=
  let client_ip := match client request with
                   | Some host => host
                   | None => "unknown"
                   end in
  "rate_limit:" ++ client_ip.

(** [RateLimitMiddleware.dispatch] *)
Definition dispatch (request : Request) : M S Response :=
  if startswith "/health" (path request) then call_next request
  else
    try_exceptS
      (counter <~ read_counter (rate_limit_key request) ;;
       let '(current_count, ttl) := counter in
       if requests_per_minute self <? current_count
       then retS (too_many_requests ttl)
       else (response <~ call_next request ;;
             retS (with_quota current_count ttl response)))%py
      any_exception
      (fun _ => call_next request).

End Dispatch.

(** A counter command raised [e], leaving the connection in state [s']:
    the client is missing, or the increment, the expiry (sent when the count
    is 1) or the TTL query fails. *)
Inductive backend_raises {S : Type} (cm : CacheManager S) (self : RateLimitMiddleware)
          (key : string) (s : S) : exn -> S -> Prop :=
| raises_no_client :
    _redis cm = None ->
    backend_raises cm self key s
      (RuntimeError "Redis not connected. Call connect() first.") s
| raises_incr c e s' :
    _redis cm = Some c ->
    r_incr c key s = (Raise e, s') ->
    backend_raises cm self key s e s'
| raises_expire c e s1 s' :
    _redis cm = Some c ->
    r_incr c key s = (Ok 1, s1) ->
    r_expire c key (window_size self) s1 = (Raise e, s') ->
    backend_raises cm self key s e s'
| raises_ttl_first c b e s1 s2 s' :
    _redis cm = Some c ->
    r_incr c key s = (Ok 1, s1) ->
    r_expire c key (window_size self) s1 = (Ok b, s2) ->
    r_ttl c key s2 = (Raise e, s') ->
    backend_raises cm self key s e s'
| raises_ttl_later c n e s1 s' :
    _redis cm = Some c ->
    r_incr c key s = (Ok n, s1) ->
    n <> 1 ->
    r_ttl c key s1 = (Raise e, s') ->
    backend_raises cm self key s e s'.

(** One client sending requests at the given times to the reference Redis. *)
Fixpoint serve (self : RateLimitMiddleware)
         (call_next : Request -> M Redis.store Response)
         (request : Request) (times : list Z) (s : Redis.store)
  : list (pyresult Response) * Redis.store :=
  match times with
  | [] => ([], s)
  | t :: times' =>
      let '(r, s') :=
        dispatch (mkCacheManager (Some (Redis.client t))) t self call_next request s in
      let '(rs, s'') := serve self call_next request times' s' in
      (r :: rs, s'')
  end.

(** The commands that name [key]. *)
Definition about (key : string) (c : Redis.command) : bool :=
  match c with
  | Redis.GET k | Redis.SET k | Redis.SETEX k _ | Redis.EXISTS k
  | Redis.INCRBY k _ | Redis.EXPIRE k _ | Redis.TTL k => String.eqb k key
  | Redis.DEL ks => existsb (fun k => String.eqb k key) ks
  end.

(** A handler that answers the request and leaves the entry under [key]
    alone: whatever else it does to Redis, it sends no command that names
    [key] and the entry is as it was. *)
Definition leaves_alone (key : string) (call_next : Request -> M Redis.store Response)
           (request : Request) : Prop :=
  forall st, exists resp st',
    call_next request st = (Ok resp, st') /\
    (Redis.keys st' !! key = Redis.keys st !! key) /\
    (List.filter (about key) (Redis.received st')
     = List.filter (about key) (Redis.received st)).

(** [r] is what the handler answered, run once the request had been
    counted as number [count] (the counter, with deadline [dl], says so),
    with the quota headers for [count] and [ttl] seconds left. *)
Definition let_through (self : RateLimitMiddleware)
           (call_next : Request -> M Redis.store Response) (request : Request)
           (time count ttl : Z) (dl : option Z) (r : Response) : Prop :=
  exists resp st st',
    Redis.keys st !! rate_limit_key request = Some (Redis.mkEntry (PInt count) dl) /\
    call_next request st = (Ok resp, st') /\
    r = with_quota time self count ttl resp.

(** The answer to a request counted as number [count]: the 429, or the
    handler's response with the quota headers. *)
Definition answered (self : RateLimitMiddleware)
           (call_next : Request -> M Redis.store Response) (request : Request)
           (time count ttl : Z) (dl : option Z) (r : pyresult Response) : Prop :=
  if requests_per_minute self <? count then r = Ok (too_many_requests time self ttl)
  else exists x, r = Ok x /\ let_through self call_next request time count ttl dl x.

(** What the deadline of a counter says at time [t]: the seconds left
    ([-1] without a deadline), and whether the counter is still there. *)
Definition left (dl : option Z) (t : Z) : Z :=
  match dl with Some d => d - t | None => -1 end.
Definition before (dl : option Z) (t : Z) : Prop :=
  match dl with Some d => t <= d | None => True end.

(** A handler that looks up a cached value of its own before it answers. *)
Definition caching_handler (resp : Response) : Request -> M Redis.store Response :=
  fun _ => (_ <~ Redis.get 0 "user:7" ;; retS resp)%py.

End RateLimit.

(** ** The user service ([services/user_service.py]) *)

Module Service.
Import Models Schemas Config Cache Security.

(** What the service does to its collaborators, in order. *)
Inductive event : Type :=
| CacheGet (key : string)
| CacheSet (key : string)
| CacheDelete (key : string)
| DbExecute (ok : bool)
| DbCommit (ok : bool)
| DbRefresh (ok : bool).

(** Table [users], the Redis connection state, and the events so far. *)
Record World (S : Type) : Type := mkWorld {
  rows : list User;
  kv : S;
  trace : list event
}.
Arguments mkWorld {S}.
Arguments rows {S}.
Arguments kv {S}.
Arguments trace {S}.

(** The collaborators of one service call.  [db_fault n] is the error the
    database raises, if any, when it is called after [n] events. *)
Record Env (S : Type) : Type := mkEnv {
  settings : Settings;
  cache_manager : CacheManager S;
  codec : Codec;
  pwd_context : CryptContext;
  next_salt : salt pwd_context;
  utcnow : Z;
  db_fault : nat -> option exn
}.
Arguments mkEnv {S}.
Arguments settings {S}.
Arguments cache_manager {S}.
Arguments codec {S}.
Arguments pwd_context {S}.
Arguments next_salt {S}.
Arguments utcnow {S}.
Arguments db_fault {S}.

(** The object bound to [user]: a row loaded through the session is
    persistent, and the session writes its changes at commit; an object that
    came out of the cache is not known to the session. *)
Record OrmRef : Type := mkRef {
  obj : pyobj;
  persistent : bool
}.

#[global] Instance User_eq_dec : EqDecision User.
Proof. solve_decision. Defined.

(** Attribute access on [user]. *)
Definition as_user (o : pyobj) : pyresult User :=
  match o with
  | PUser u => Ok u
  | _ => Raise AttributeError
  end.

Definition modify (f : User -> pyresult User) (r : OrmRef) : pyresult OrmRef :=
  (u <- as_user (obj r) ;;
   u' <- f u ;;
   Ok (mkRef (PUser u') (persistent r)))%py.

(** The UPDATE a commit issues for a changed persistent object
    ([updated_at] has [onupdate=datetime.utcnow]). *)
Definition flush (now : Z) (r : OrmRef) (table : list User) : list User :=
  match persistent r, obj r with
  | true, PUser u =>
      map (fun row => if id row =? id u
                      then (if decide (row = u) then row else with_updated_at u now)
                      else row) table
  | _, _ => table
  end.

Definition cache_key (user_id : Z) : string := "user:" ++ str_of_int user_id.

Section Operations.
Context {S : Type}.
Variable env : Env S.

Definition emit (e : event) : M (World S) unit :=
  fun w => (Ok tt, mkWorld (rows w) (kv w) (trace w ++ [e])).

Definition on_cache {A} (m : M S A) : M (World S) A :=
  fun w => let '(r, s) := m (kv w) in (r, mkWorld (rows w) s (trace w)).

(** [await cache_manager.get(key)] and friends *)
Definition cache_get (key : string) : M (World S) pyobj :=
  (_ <~ emit (CacheGet key) ;;
   on_cache (Cache.get (settings env) (codec env) (cache_manager env) key PNone))%py.
Definition cache_set (key : string) (v : pyobj) (ttl : option Z) : M (World S) bool :=
  (_ <~ emit (CacheSet key) ;;
   on_cache (Cache.set (settings env) (codec env) (cache_manager env) key v ttl))%py.
Definition cache_delete (key : string) : M (World S) bool :=
  (_ <~ emit (CacheDelete key) ;;
   on_cache (Cache.delete (settings env) (cache_manager env) key))%py.

(** [await self.db.execute(select(User).where(...))] *)
Definition db_execute (where_ : User -> bool) : M (World S) (list User) :=
  fun w =>
    let fault := db_fault env (length (trace w)) in
    (Db.execute fault (rows w) where_,
     mkWorld (rows w) (kv w) (trace w ++ [DbExecute (bool_decide (fault = None))])).

(** [await self.db.commit()] *)
Definition db_commit (user : OrmRef) : M (World S) unit :=
  fun w =>
    match db_fault env (length (trace w)) with
    | Some e => (Raise e, mkWorld (rows w) (kv w) (trace w ++ [DbCommit false]))
    | None => (Ok tt, mkWorld (flush (utcnow env) user (rows w)) (kv w)
                              (trace w ++ [DbCommit true]))
    end.

(** [await self.db.refresh(user)] *)
Definition db_refresh (user : OrmRef) : M (World S) OrmRef :=
  fun w =>
    match db_fault env (length (trace w)) with
    | Some e => (Raise e, mkWorld (rows w) (kv w) (trace w ++ [DbRefresh false]))
    | None =>
        let reloaded :=
          match persistent user, obj user with
          | true, PUser u =>
              match List.find (fun row => id row =? id u) (rows w) with
              | Some row => Ok (mkRef (PUser row) true)
              | None => Raise InvalidRequestError
              end
          | _, _ => Raise InvalidRequestError
          end in
        (reloaded, mkWorld (rows w) (kv w)
                           (trace w ++ [DbRefresh (negb (raises reloaded))]))
    end.

(** [UserService.get_user_by_id] *)
Definition get_user_by_id (user_id : Z) : M (World S) (option OrmRef) :=
  (cached_user <~ cache_get (cache_key user_id) ;;
   if truthy cached_user then retS (Some (mkRef cached_user false))
   else
     result <~ db_execute (fun u => (id u =? user_id) && Db.not_deleted u) ;;
     user <~ liftS (Db.scalar_one_or_none result) ;;
     match user with
     | Some u =>
         _ <~ cache_set (cache_key user_id) (PUser u) (Some 300) ;;
         retS (Some (mkRef (PUser u) true))
     | None => retS None
     end)%py.

(** [UserService.get_user_by_email] *)
Definition get_user_by_email (email_ : string) : M (World S) (option User) :=
  (result <~ db_execute (fun u => String.eqb (email u) (lower email_)
                                  && Db.not_deleted u) ;;
   liftS (Db.scalar_one_or_none result))%py.

(** [UserService.get_user_by_username] *)
Definition get_user_by_username (username_ : string) : M (World S) (option User) :=
  (result <~ db_execute (fun u => String.eqb (username u) (lower username_)
                                  && Db.not_deleted u) ;;
   liftS (Db.scalar_one_or_none result))%py.

Definition email_taken (e : string) : exn :=
  ValueError ("Email '" ++ e ++ "' is already registered").
Definition username_taken (n : string) : exn :=
  ValueError ("Username '" ++ n ++ "' is already taken").

(** [update_user], the uniqueness checks and the field updates
    (up to the commit). *)
Definition apply_update (user : OrmRef) (user_data : UserUpdate)
  : M (World S) OrmRef :=
  (user <~ (match upd_email user_data with
            | Some e =>
                if truthy_str e then
                  current <~ liftS (as_user (obj user)) ;;
                  if negb (String.eqb e (email current)) then
                    existing_user <~ get_user_by_email e ;;
                    match existing_user with
                    | Some _ => raiseS (email_taken e)
                    | None => liftS (modify (fun u => assign_email u e) user)
                    end
                  else retS user
                else retS user
            | None => retS user
            end) ;;
   user <~ (match upd_username user_data with
            | Some n =>
                if truthy_str n then
                  current <~ liftS (as_user (obj user)) ;;
                  if negb (String.eqb n (username current)) then
                    existing_user <~ get_user_by_username n ;;
                    match existing_user with
                    | Some _ => raiseS (username_taken n)
                    | None => liftS (modify (fun u => assign_username u n) user)
                    end
                  else retS user
                else retS user
            | None => retS user
            end) ;;
   user <~ (match upd_full_name user_data with
            | Some f => liftS (modify (fun u => Ok (with_full_name u (Some f))) user)
            | None => retS user
            end) ;;
   user <~ (match upd_password user_data with
            | Some p =>
                if truthy_str p then
                  hashed <~ liftS (get_password_hash (pwd_context env) (next_salt env) p) ;;
                  liftS (modify (fun u => Ok (with_hashed_password u hashed)) user)
                else retS user
            | None => retS user
            end) ;;
   match upd_is_active user_data with
   | Some a => liftS (modify (fun u => Ok (with_is_active u a)) user)
   | None => retS user
   end)%py.

(** [UserService.update_user] *)
Definition update_user (user_id : Z) (user_data : UserUpdate)
  : M (World S) (option OrmRef) :=
  (user <~ get_user_by_id user_id ;;
   match user with
   | None => retS None
   | Some user =>
       user <~ apply_update user user_data ;;
       _ <~ db_commit user ;;
       user <~ db_refresh user ;;
       _ <~ cache_delete (cache_key user_id) ;;
       _ <~ liftS (as_user (obj user)) ;;
       retS (Some user)
   end)%py.

(** [UserService.delete_user] *)
Definition delete_user (user_id : Z) : M (World S) bool :=
  (user <~ get_user_by_id user_id ;;
   match user with
   | None => retS false
   | Some user =>
       user <~ liftS (modify (fun u => Ok (soft_delete (utcnow env) u)) user) ;;
       user <~ liftS (modify (fun u => Ok (with_is_active u false)) user) ;;
       _ <~ db_commit user ;;
       _ <~ cache_delete (cache_key user_id) ;;
       _ <~ liftS (as_user (obj user)) ;;
       retS true
   end)%py.

(** [UserService.verify_user_email] *)
Definition verify_user_email (user_id : Z) : M (World S) (option OrmRef) :=
  (user <~ get_user_by_id user_id ;;
   match user with
   | None => retS None
   | Some user =>
       user <~ liftS (modify (fun u => Ok (verify_email (utcnow env) u)) user) ;;
       _ <~ db_commit user ;;
       user <~ db_refresh user ;;
       _ <~ cache_delete (cache_key user_id) ;;
       _ <~ liftS (as_user (obj user)) ;;
       retS (Some user)
   end)%py.

End Operations.

(** The events of one call are in order for [key] when every cache deletion
    among them is a deletion of [key], comes after a commit that succeeded,
    and no commit among them failed. *)
Definition ordered (key : string) (tr : list event) : Prop :=
  forall pre k post,
    tr = (pre ++ CacheDelete k :: post)%list ->
    k = key /\ In (DbCommit true) pre /\ ~ In (DbCommit false) tr.

(** Every event a computation adds to the trace satisfies [P]. *)
Definition emits {S A} (P : event -> Prop) (m : M (World S) A) : Prop :=
  forall w, exists tr, trace (snd (m w)) = (trace w ++ tr)%list /\ Forall P tr.

(** The events a computation adds to the trace are in order for [key]. *)
Definition in_order {S A} (key : string) (m : M (World S) A) : Prop :=
  forall w, exists tr, trace (snd (m w)) = (trace w ++ tr)%list /\ ordered key tr.

(** Events other than commits and cache deletions. *)
Definition quiet (e : event) : Prop :=
  match e with
  | DbCommit _ | CacheDelete _ => False
  | _ => True
  end.

(** Events that may follow the commit: no further commit, and cache
    deletions of [key] only. *)
Definition after_commit (key : string) (e : event) : Prop :=
  match e with
  | DbCommit _ => False
  | CacheDelete k => k = key
  | _ => True
  end.

(** The cache has nothing usable under [key]: [get] answers a falsy value. *)
Definition cache_misses {S} (env : Env S) (key : string) (w : World S) : Prop :=
  exists o, fst (Cache.get (settings env) (codec env) (cache_manager env) key PNone (kv w))
            = Ok o /\ truthy o = false.

(** What [json.loads] makes of a pickle: [pickle.dumps] gives bytes that
    open with the protocol byte [0x80], which is not UTF-8 text, so
    decoding them fails with [UnicodeDecodeError]. *)
Definition pickle_opaque (c : Codec) : Prop :=
  forall o pickled,
    pickle_dumps c o = Ok pickled ->
    exists b, pickled = PBytes b /\ json_loads c (PBytes b) = Raise UnicodeDecodeError.

(** The entry under [user:<uid>], if there is one, is what the service
    stores there: the pickle of a user. *)
Definition stored_by_service (c : Codec) (uid : Z) (s : Redis.store) : Prop :=
  match Redis.keys s !! cache_key uid with
  | Some e => exists u, pickle_dumps c (PUser u) = Ok (Redis.value e)
  | None => True
  end.

(** [m] leaves the entry under [user:<n>] what the service stores there. *)
Definition keeps_entry {A} (c : Codec) (n : Z) (m : M (World Redis.store) A) : Prop :=
  forall w, stored_by_service c n (kv w) -> stored_by_service c n (kv (snd (m w))).

(** The collaborators of the unit tests: the cache manager is never
    connected, the database answers every call, hashing is the toy scheme. *)
Definition test_env : Env unit :=
  mkEnv Config.defaults (mkCacheManager None) text_codec toy_context "s"%char
        1700000000 (fun _ => None).

(** The same collaborators with a database that fails its [n]-th call
    (counted in events). *)
Definition failing_env (n : nat) : Env unit :=
  mkEnv Config.defaults (mkCacheManager None) text_codec toy_context "s"%char
        1700000000
        (fun k => if Nat.eqb k n then Some (BackendError "connection lost") else None).

Definition start (table : list User) : World unit := mkWorld table tt [].

(** Collaborators with the reference Redis connected, at time [now]. *)
Definition connected_env (now : Z) : Env Redis.store :=
  mkEnv Config.defaults (mkCacheManager (Some (Redis.client now))) text_codec
        toy_context "s"%char now (fun _ => None).

Definition start_connected (table : list User) : World Redis.store :=
  mkWorld table Redis.empty [].

End Service.

(** ** Sample data used in the examples *)

Module Fixtures.
Import Models Config Cache RateLimit.

Definition alice (deleted : option Z) : User :=
  mkUser 7 "alice@x.com" "alice" "$2b$12$digest" None true false false None None
         1600000000 1600000000 deleted.
Definition bob : User :=
  mkUser 8 "bob@x.com" "bob" "$2b$12$digest" None true false false None None
         1600000000 1600000000 None.

Definition enabled : Settings := Config.defaults.

(** A Redis that holds the text [hello] under [greeting]. *)
Definition greeting_store : Redis.store :=
  Redis.put "greeting" (Redis.mkEntry (PStr "hello") None) Redis.empty.
Definition connected : CacheManager Redis.store :=
  mkCacheManager (Some (Redis.client 0)).

Definition ok_handler (resp : Response) : Request -> M Redis.store Response :=
  fun _ => retS resp.
Definition plain : Response := mkResponse 200 [("content-type", "application/json")] [].
Definition from_client : Request := mkRequest "/api/v1/users" (Some "10.0.0.1").


End Fixtures.

(** ** Text normalisation, on character lists *)

Module Text.

(** [strip] on the characters of a string. *)
Definition strip_chars (l : list ascii) : list ascii :=
  rev (lstrip_chars (rev (lstrip_chars l))).

(** Neither the first nor the last character is whitespace. *)
Definition trimmed (l : list ascii) : Prop :=
  lstrip_chars l = l /\ lstrip_chars (rev l) = rev l.

(** The characters a normalised username may contain. *)
Definition name_char (c : ascii) : bool :=
  (islower_char c || isdigit_char c || Ascii.eqb c "_")%bool.

End Text.

(** ** The dependency chain of [utils/auth.py] and token issuing *)

Module AuthPipeline.
Import Models Schemas Json Config Auth.

(** [Depends(get_current_active_user)]: the resolved user, checked for
    [is_active]. *)
Definition resolve_active (jose : Jose) (settings : Settings) (fault : option exn)
           (table : list User) (credentials : string) : pyresult User :=
  (current_user <- get_current_user jose settings fault table credentials ;;
   get_current_active_user current_user)%py.

(** [Depends(get_current_superuser)] *)
Definition resolve_superuser (jose : Jose) (settings : Settings) (fault : option exn)
           (table : list User) (credentials : string) : pyresult User :=
  (current_user <- resolve_active jose settings fault table credentials ;;
   get_current_superuser current_user)%py.

(** The expiry [create_access_token] computes. *)
Definition token_expiry (settings : Settings) (utcnow : Z) (expires_delta : option Z) : Z :=
  match expires_delta with
  | Some d => if d =? 0 then utcnow + 60 * jwt_access_token_expire_minutes settings
              else utcnow + d
  | None => utcnow + 60 * jwt_access_token_expire_minutes settings
  end.

(** The payload [create_access_token] signs ([to_encode]). *)
Definition token_payload (settings : Settings) (utcnow : Z) (data : dict)
           (expires_delta : option Z) : dict :=
  Json.set "iat" (JNum utcnow)
           (Json.set "exp" (JNum (token_expiry settings utcnow expires_delta)) data).

(** A library that signs every payload as the same token and decodes that
    token to the payload issued for alice at time 1700000000. *)
Definition jose_issue : Jose :=
  mkJose (fun _ _ _ => Ok "signed.alice.token")
         (fun token _ _ =>
            if String.eqb token "signed.alice.token"
            then Ok [("sub", JStr "7"); ("username", JStr "alice");
                     ("email", JStr "alice@x.com"); ("exp", JNum 1700001800);
                     ("iat", JNum 1700000000)]
            else Raise JWTError).

End AuthPipeline.

(** ** Connecting and disconnecting the cache manager ([utils/cache.py]) *)

Module Lifecycle.
Import Cache.

Section Connection.
Context {S : Type}.

(** [CacheManager.connect].  [from_url] is what building the pool and the
    client from the configured URL gives.  The outcome, the manager
    afterwards and the connection state are returned. *)
Definition connect (from_url : pyresult (RedisClient S)) (self : CacheManager S)
           (s : S) : pyresult unit * CacheManager S * S :=
  match _redis self with
  | Some _ => (Ok tt, self, s)
  | None =>
      match from_url with
      | Raise e => (Raise e, self, s)
      | Ok c =>
          let self' := mkCacheManager (Some c) in
          match r_ping c s with
          | (Ok _, s') => (Ok tt, self', s')
          | (Raise e, s') => (Raise e, self', s')
          end
      end
  end.

(** [CacheManager.disconnect]; [close] and [pool_disconnect] are
    [self._redis.close()] and [self._pool.disconnect()]. *)
Definition disconnect (close pool_disconnect : M S unit) (self : CacheManager S)
           (s : S) : pyresult unit * CacheManager S * S :=
  match _redis self with
  | None => (Ok tt, self, s)
  | Some _ =>
      match close s with
      | (Raise e, s1) => (Raise e, self, s1)
      | (Ok _, s1) =>
          match pool_disconnect s1 with
          | (Raise e, s2) => (Raise e, self, s2)
          | (Ok _, s2) => (Ok tt, mkCacheManager None, s2)
          end
      end
  end.

(** [get_redis] *)
Definition get_redis (cache_manager : CacheManager S) : M S (RedisClient S) :=
  get_client cache_manager.

End Connection.

(** The manager connected to the reference Redis, as seen at time [now]. *)
Definition at_time (now : Z) : CacheManager Redis.store :=
  mkCacheManager (Some (Redis.client now)).

(** The reference Redis behind a link that drops the [PING]. *)
Definition unreachable (now : Z) : RedisClient Redis.store :=
  mkRedisClient (raiseS (BackendError "connection refused"))
                (r_get (Redis.client now)) (r_set (Redis.client now))
                (r_setex (Redis.client now)) (r_delete (Redis.client now))
                (r_exists (Redis.client now)) (r_scan_iter (Redis.client now))
                (r_incrby (Redis.client now)) (r_expire (Redis.client now))
                (r_ttl (Redis.client now)).

End Lifecycle.

(** ** Handlers and clients used to exercise the rate limiter *)

Module LimiterFixtures.
Import Cache RateLimit.

(** A handler that counts its calls under [handler_calls] and then raises. *)
Definition failing_handler : Request -> M Redis.store Response :=
  fun _ s => (Raise (RuntimeError "boom"), snd (Redis.incrby 0 "handler_calls" 1 s)).

(** The reference Redis with an [EXPIRE] that raises. *)
Definition lost_expire (now : Z) : RedisClient Redis.store :=
  mkRedisClient (r_ping (Redis.client now))
                (r_get (Redis.client now)) (r_set (Redis.client now))
                (r_setex (Redis.client now)) (r_delete (Redis.client now))
                (r_exists (Redis.client now)) (r_scan_iter (Redis.client now))
                (r_incrby (Redis.client now))
                (fun _ _ => raiseS (BackendError "timeout"))
                (r_ttl (Redis.client now)).

(** A counter that was incremented once at time 900 and never given an
    expiry. *)
Definition stuck_counter : Redis.store :=
  snd (Redis.incrby 900 "rate_limit:10.0.0.1" 1 Redis.empty).

(** A counter whose window started at time 1000. *)
Definition old_window : Redis.store :=
  Redis.put "rate_limit:10.0.0.1" (Redis.mkEntry (PInt 4) (Some 1060)) Redis.empty.

End LimiterFixtures.

(** ** Creating and listing users ([services/user_service.py]) *)

Module Accounts.
Import Models Schemas Config Cache Security Service.

(** [UserCreate] *)
Record UserCreate : Type := mkUserCreate {
  new_email : string;
  new_username : string;
  new_full_name : option string;
  new_password : string
}.

(** The unique indexes [ix_users_email] and [ix_users_username] and the
    primary key cover every row, deleted or not. *)
Definition violates_unique (table : list User) (u : User) : bool :=
  existsb (fun row => (id row =? id u)
                      || String.eqb (email row) (email u)
                      || String.eqb (username row) (username u)) table.

Definition unique_violation : exn :=
  BackendError "duplicate key value violates unique constraint".

(** [ORDER BY key DESC]: rows with a larger key come first; rows with
    equal keys stay in the order in which the table holds them. *)
Fixpoint insert_desc (key : User -> Z) (u : User) (sorted : list User) : list User :=
  match sorted with
  | [] => [u]
  | v :: rest => if key v <=? key u then u :: v :: rest
                 else v :: insert_desc key u rest
  end.
Definition order_by_desc (key : User -> Z) (found : list User) : list User :=
  fold_right (insert_desc key) [] found.

Section Operations.
Context {S : Type}.
Variable env : Env S.

(** [User(email=..., username=..., ...)]: the keyword arguments are
    assigned in order, through the validators; the other columns are
    filled by the INSERT ([id] from the sequence, the timestamps from
    [datetime.utcnow]). *)
Definition new_user (next_id : Z) (user_data : UserCreate) (hashed : string)
  : pyresult User :=
  (e <- validate_email (new_email user_data) ;;
   n <- validate_username (new_username user_data) ;;
   Ok (mkUser next_id e n hashed (new_full_name user_data) true false false
              None None (utcnow env) (utcnow env) None))%py.

(** [self.db.add(user); await self.db.commit()] *)
Definition db_commit_new (user : User) : M (World S) unit :=
  fun w =>
    match db_fault env (length (trace w)) with
    | Some e => (Raise e, mkWorld (rows w) (kv w) (trace w ++ [DbCommit false]))
    | None =>
        if violates_unique (rows w) user
        then (Raise unique_violation,
              mkWorld (rows w) (kv w) (trace w ++ [DbCommit false]))
        else (Ok tt, mkWorld (rows w ++ [user]) (kv w) (trace w ++ [DbCommit true]))
    end.

(** [UserService.create_user]; [next_id] is the value the id sequence
    hands out. *)
Definition create_user (next_id : Z) (user_data : UserCreate)
  : M (World S) OrmRef :=
  (existing_user <~ get_user_by_email env (new_email user_data) ;;
   match existing_user with
   | Some _ => raiseS (email_taken (new_email user_data))
   | None =>
       existing_user <~ get_user_by_username env (new_username user_data) ;;
       match existing_user with
       | Some _ => raiseS (username_taken (new_username user_data))
       | None =>
           hashed_password <~ liftS (get_password_hash (pwd_context env) (next_salt env)
                                       (new_password user_data)) ;;
           user <~ liftS (new_user next_id user_data hashed_password) ;;
           _ <~ db_commit_new user ;;
           db_refresh env (mkRef (PUser user) true)
       end
   end)%py.

(** The filter shared by the page query and the count query. *)
Definition listed (is_active_ : option bool) (u : User) : bool :=
  Db.not_deleted u &&
  match is_active_ with
  | Some a => Bool.eqb (is_active u) a
  | None => true
  end.

(** [UserService.get_users]; a negative OFFSET or LIMIT is an error of
    the database. *)
Definition get_users (skip limit : Z) (is_active_ : option bool)
  : M (World S) (list User * Z) :=
  (counted <~ db_execute env (listed is_active_) ;;
   let total := Z.of_nat (length counted) in
   if (skip <? 0) || (limit <? 0)
   then (_ <~ emit (DbExecute false) ;;
         raiseS (BackendError "OFFSET and LIMIT must not be negative"))
   else
     found <~ db_execute env (listed is_active_) ;;
     retS (firstn (Z.to_nat limit)
                  (skipn (Z.to_nat skip) (order_by_desc created_at found)), total))%py.

End Operations.

(** Events that do not touch the cache. *)
Definition no_cache_event (e : event) : Prop :=
  match e with
  | CacheGet _ | CacheSet _ | CacheDelete _ => False
  | _ => True
  end.

(** Newest first. *)
Definition newest_first (l : list User) : Prop :=
  forall i j a b,
    (i <= j)%nat -> l !! i = Some a -> l !! j = Some b -> created_at b <= created_at a.

(** Three users created one after the other. *)
Definition carol : User :=
  mkUser 3 "carol@x.com" "carol" "$2b$12$digest" None true false false None None
         1600000300 1600000300 None.
Definition dave (deleted : option Z) : User :=
  mkUser 4 "dave@x.com" "dave" "$2b$12$digest" None false false false None None
         1600000400 1600000400 deleted.
Definition erin : User :=
  mkUser 5 "erin@x.com" "erin" "$2b$12$digest" None true false false None None
         1600000500 1600000500 None.

End Accounts.

(** ** Which rows a call may change *)

Module Frame.
Import Models Cache Service.

(** The table [after] has the rows of [before], in the same order and with
    the same ids, and every row whose id is not [uid] is the same. *)
Definition untouched_except (uid : Z) (before after : list User) : Prop :=
  Forall2 (fun r r' => id r' = id r /\ (id r <> uid -> r' = r)) before after.

(** An object the session tracks is a row with id [uid]. *)
Definition aimed (uid : Z) (r : OrmRef) : Prop :=
  match persistent r, obj r with
  | true, PUser u => id u = uid
  | _, _ => True
  end.

(** [m] changes rows with id [uid] only, and its result satisfies [P]. *)
Definition keeps {S A} (uid : Z) (P : A -> Prop) (m : M (World S) A) : Prop :=
  forall w, untouched_except uid (rows w) (rows (snd (m w))) /\
            forall a, fst (m w) = Ok a -> P a.

End Frame.

(** ** The user endpoints ([routes/api.py]) *)

Module Routes.
Import Models Schemas Cache Service.

(** [except ValueError]: the class and its subclasses. *)
Definition is_ValueError (e : exn) : bool :=
  match e with
  | ValueError _ | JSONDecodeError | UnicodeDecodeError | ValidationError => true
  | _ => false
  end.

(** [str(e)]; [describe] is the text of the library's exceptions. *)
Definition str_exn (describe : exn -> string) (e : exn) : string :=
  match e with
  | ValueError msg => msg
  | _ => describe e
  end.

Definition not_found (user_id : Z) : exn :=
  HTTPException 404 ("User with ID " ++ str_of_int user_id ++ " not found").

Section Endpoints.
Context {S R : Type}.
Variable env : Env S.
(** [UserResponse.model_validate] *)
Variable model_validate : pyobj -> pyresult R.
Variable describe : exn -> string.

(** [GET /users/{user_id}] *)
Definition get_user (user_id : Z) (current_user : User) : M (World S) R :=
  (user <~ Service.get_user_by_id env user_id ;;
   match user with
   | Some user =>
       if truthy (obj user) then liftS (model_validate (obj user))
       else raiseS (not_found user_id)
   | None => raiseS (not_found user_id)
   end)%py.

(** [PUT /users/{user_id}] *)
Definition update_user (user_id : Z) (user_data : UserUpdate) (current_user : User)
  : M (World S) R :=
  if negb (id current_user =? user_id) && negb (is_superuser current_user)
  then raiseS (HTTPException 403 "Not authorized to update this user")
  else
    try_exceptS
      (user <~ Service.update_user env user_id user_data ;;
       match user with
       | Some user =>
           if truthy (obj user) then
             (_ <~ liftS (as_user (obj user)) ;;
              liftS (model_validate (obj user)))
           else raiseS (not_found user_id)
       | None => raiseS (not_found user_id)
       end)%py
      is_ValueError
      (fun e => raiseS (HTTPException 400 (str_exn describe e))).

(** [DELETE /users/{user_id}] *)
Definition delete_user (user_id : Z) (current_user : User) : M (World S) unit :=
  if negb (is_superuser current_user)
  then raiseS (HTTPException 403 "Only superusers can delete users")
  else
    (success <~ Service.delete_user env user_id ;;
     if success then retS tt else raiseS (not_found user_id))%py.

End Endpoints.

(** A response that keeps the id and the name. *)
Definition brief (o : pyobj) : pyresult (Z * string) :=
  match o with
  | PUser u => Ok (id u, username u)
  | _ => Raise ValidationError
  end.

Definition root : User :=
  mkUser 1 "root@x.com" "root" "$2b$12$digest" None true true true None None
         1600000000 1600000000 None.

End Routes.

(** * Properties *)

(** ** The model validators *)

Module ModelFacts.
Import Models.

Example validate_username_plain : validate_username "Alice_01" = Ok "alice_01".
Proof. reflexivity. Qed.

Example validate_username_short : raises (validate_username "ab") = true.
Proof. reflexivity. Qed.

Example validate_username_space : raises (validate_username "a b") = true.
Proof. reflexivity. Qed.

Example schema_rejects_punctuation : raises (Schemas.validate_username "ab_!") = true.
Proof. reflexivity. Qed.

(** C10 — the model validator is meant to keep every stored username to
    letters, digits and underscores, at least 3 characters long.  Its
    character test is [not isalnum() and "_" not in username], so one
    underscore switches the test off: the candidate [ab_!] is accepted and
    stored with its punctuation, although it contains a character outside
    the allowed set; and an underscore followed by two spaces is accepted
    and stored as a one-character name. *)
Theorem validate_username_accepts_punctuation :
  validate_username "ab_!" = Ok "ab_!" /\
  contains_char "!" "ab_!" = true /\
  isalnum_char "!" = false /\
  validate_username "_  " = Ok "_".
Proof. repeat split; reflexivity. Qed.

End ModelFacts.

(** ** Password hashing *)

Module SecurityFacts.
Import Schemas Security.



Lemma verify_password_passes ctx p d b :
  ctx_verify ctx p d = Ok b -> verify_password ctx p d = Ok b.
Proof. intros H. unfold verify_password. now rewrite H. Qed.





End SecurityFacts.

(** ** Bearer tokens and current-user resolution *)

Module AuthFacts.
Import Models Schemas Json Config Auth Fixtures.

Lemma decode_access_token_closed_on_jwt_error jose settings token :
  jwt_decode jose token (jwt_secret_key settings) [jwt_algorithm settings] = Raise JWTError ->
  decode_access_token jose settings token = Ok None.
Proof. intros H. unfold decode_access_token. now rewrite H. Qed.

Lemma decode_access_token_subject jose settings token payload n td :
  jwt_decode jose token (jwt_secret_key settings) [jwt_algorithm settings] = Ok payload ->
  Json.get "sub" payload = Some (JNum n) ->
  decode_access_token jose settings token = Ok (Some td) ->
  user_id td = Some n.
Proof.
  intros Hd Hs. unfold decode_access_token. rewrite Hd. simpl. rewrite Hs. simpl.
  destruct (optional_str (Json.get "username" payload)) as [u | e]; simpl;
    [| destruct (is_JWTError e); discriminate].
  destruct (optional_str (Json.get "email" payload)) as [m | e]; simpl;
    [| destruct (is_JWTError e); discriminate].
  now intros [= <-].
Qed.

Example decode_numeric_subject :
  decode_access_token jose_fixture Config.defaults "signed.7.token"
  = Ok (Some (mkTokenData (Some 7) (Some "alice") (Some "alice@x.com"))).
Proof. reflexivity. Qed.

Example decode_garbage :
  decode_access_token jose_fixture Config.defaults "garbage" = Ok None.
Proof. reflexivity. Qed.

(** C1 — [decode_access_token] is meant to answer [None] for every token it
    cannot use, but only [JWTError] is caught: on a well-signed token whose
    subject claim is the text [abc], [int(user_id)] raises [ValueError] and
    the exception leaves the function. *)
Theorem decode_access_token_raises_on_text_subject :
  jwt_decode jose_fixture "signed.abc.token" (jwt_secret_key Config.defaults)
             [jwt_algorithm Config.defaults]
  = Ok [("sub", JStr "abc"); ("username", JStr "alice"); ("exp", JNum 2000000000)] /\
  decode_access_token jose_fixture Config.defaults "signed.abc.token"
  = Raise (ValueError "invalid literal for int() with base 10: 'abc'").
Proof. split; reflexivity. Qed.

Lemma filter_none {A} (p : A -> bool) (l : list A) :
  (forall x, In x l -> p x = false) -> List.filter p l = [].
Proof.
  induction l as [| a l IH]; intros H; simpl; [reflexivity |].
  rewrite (H a (or_introl eq_refl)). apply IH. intros x Hx. apply H. now right.
Qed.

(** C7 — when the bearer token verifies but its subject id matches no user,
    or only users with a deletion timestamp, [get_current_user] raises the
    401 credentials error instead of returning a principal. *)
Theorem get_current_user_unknown_subject
        jose settings (table : list User) token td uid :
  decode_access_token jose settings token = Ok (Some td) ->
  user_id td = Some uid ->
  (forall u, In u table -> id u = uid -> deleted_at u <> None) ->
  get_current_user jose settings None table token = Raise credentials_exception.
Proof.
  intros Hdec Huid Habsent. unfold get_current_user.
  rewrite Hdec. simpl. rewrite Huid. simpl.
  rewrite filter_none; [reflexivity |].
  intros u Hu. destruct (Z.eqb_spec (id u) uid) as [Heq | Hne]; simpl; [| reflexivity].
  specialize (Habsent u Hu Heq). unfold Db.not_deleted, is_deleted.
  destruct (deleted_at u); [reflexivity | congruence].
Qed.

Lemma get_current_user_unknown_subject_witness :
  get_current_user jose_fixture Config.defaults None
                   [alice (Some 1650000000); bob] "signed.7.token"
  = Raise credentials_exception.
Proof.
  apply (get_current_user_unknown_subject jose_fixture Config.defaults
           [alice (Some 1650000000); bob] "signed.7.token"
           (mkTokenData (Some 7) (Some "alice") (Some "alice@x.com")) 7).
  - reflexivity.
  - reflexivity.
  - intros u [<- | [<- | []]]; simpl; intros H; [discriminate | lia].
Defined.

Example get_current_user_live :
  get_current_user jose_fixture Config.defaults None [alice None; bob] "signed.7.token"
  = Ok (alice None).
Proof. reflexivity. Qed.

End AuthFacts.

(** ** The cache manager *)

Module CacheFacts.
Import Config Cache Fixtures.

Example get_number :
  fst (get enabled text_codec connected "n" PNone
           (Redis.put "n" (Redis.mkEntry (PStr "42") None) Redis.empty))
  = Ok (PInt 42).
Proof. vm_compute. reflexivity. Qed.

Example get_missing :
  fst (get enabled text_codec connected "other" (PStr "dflt") greeting_store)
  = Ok (PStr "dflt").
Proof. vm_compute. reflexivity. Qed.

(** C3, as stated, fails: when both decoders reject the stored value with
    the errors the code catches, [get] hands back the stored text itself,
    not the miss default.  Here the stored text is [hello] and the default
    is [None]. *)
Lemma get_default_on_undecodable_counterexample :
  ~ (forall (settings : Settings) (codec : Codec) (self : CacheManager Redis.store)
            (key : string) (default v : pyobj) (s s' : Redis.store),
        on_redis self (fun c => r_get c key) s = (Ok (Some v), s') ->
        raises (json_loads codec v) = true ->
        raises (pickle_loads codec v) = true ->
        fst (get settings codec self key default s) = Ok default).
Proof.
  intros H.
  specialize (H enabled text_codec connected "greeting" PNone (PStr "hello")
                greeting_store (Redis.record (Redis.GET "greeting") greeting_store)).
  assert (Hget : fst (get enabled text_codec connected "greeting" PNone greeting_store)
                 = Ok (PStr "hello")) by (vm_compute; reflexivity).
  rewrite H in Hget; [discriminate | vm_compute; reflexivity | reflexivity | reflexivity].
Qed.

Section Get.
Context {S : Type}.
Variables (settings : Settings) (codec : Codec) (self : CacheManager S).
Variables (key : string) (default : pyobj).

Lemma get_disabled s :
  enable_cache settings = false ->
  get settings codec self key default s = (Ok default, s).
Proof. intros H. unfold get. now rewrite H. Qed.

Lemma get_enabled s :
  enable_cache settings = true ->
  get settings codec self key default s =
  match on_redis self (fun c => r_get c key) s with
  | (Raise _, s') => (Ok default, s')
  | (Ok None, s') => (Ok default, s')
  | (Ok (Some v), s') =>
      (Ok match json_loads codec v with
          | Ok o => o
          | Raise e =>
              if json_errors e
              then match pickle_loads codec v with
                   | Ok o => o
                   | Raise e' => if pickle_errors e' then v else default
                   end
              else default
          end, s')
  end.
Proof.
  intros H. unfold get, try_exceptS, bindS, liftS, retS, try_except.
  rewrite H. simpl.
  destruct (on_redis self _ s) as [[[v |] | e] s']; simpl; try reflexivity.
  destruct (json_loads codec v) as [o | e]; simpl; [reflexivity |].
  destruct (json_errors e); simpl; [| reflexivity].
  destruct (pickle_loads codec v) as [o | e']; simpl; [reflexivity |].
  destruct (pickle_errors e'); reflexivity.
Qed.

Lemma get_never_raises s : exists v, fst (get settings codec self key default s) = Ok v.
Proof.
  destruct (enable_cache settings) eqn:E.
  - rewrite (get_enabled s E).
    destruct (on_redis self _ s) as [[[v |] | e] s']; simpl; eauto.
  - rewrite (get_disabled s E). simpl. eauto.
Qed.

(** C3, amended — [get] never raises.  It answers the miss default when
    caching is disabled, when the key is absent, when the backend raises,
    and when a decoder raises an error the code does not list (anything but
    [JSONDecodeError]/[TypeError] from [json], anything but
    [PickleError]/[TypeError] from [pickle]).  When caching is enabled and
    both decoders reject the stored value with listed errors, it answers
    the stored value as it is. *)
Theorem get_fails_open (s : S) :
  (exists v, fst (get settings codec self key default s) = Ok v) /\
  (enable_cache settings = false ->
   get settings codec self key default s = (Ok default, s)) /\
  (forall e s', on_redis self (fun c => r_get c key) s = (Raise e, s') ->
                fst (get settings codec self key default s) = Ok default) /\
  (forall s', on_redis self (fun c => r_get c key) s = (Ok None, s') ->
              fst (get settings codec self key default s) = Ok default) /\
  (forall v s' e,
      on_redis self (fun c => r_get c key) s = (Ok (Some v), s') ->
      json_loads codec v = Raise e -> json_errors e = false ->
      fst (get settings codec self key default s) = Ok default) /\
  (forall v s' e e',
      on_redis self (fun c => r_get c key) s = (Ok (Some v), s') ->
      json_loads codec v = Raise e -> json_errors e = true ->
      pickle_loads codec v = Raise e' -> pickle_errors e' = false ->
      fst (get settings codec self key default s) = Ok default) /\
  (forall v s' e e',
      enable_cache settings = true ->
      on_redis self (fun c => r_get c key) s = (Ok (Some v), s') ->
      json_loads codec v = Raise e -> json_errors e = true ->
      pickle_loads codec v = Raise e' -> pickle_errors e' = true ->
      fst (get settings codec self key default s) = Ok v).
Proof.
  split; [apply get_never_raises |].
  split; [apply get_disabled |].
  destruct (enable_cache settings) eqn:E.
  - rewrite (get_enabled s E).
    repeat split; intros.
    + now rewrite H.
    + now rewrite H.
    + rewrite H, H0, H1. reflexivity.
    + rewrite H, H0, H1, H2, H3. reflexivity.
    + rewrite H0, H1, H2, H3, H4. reflexivity.
  - rewrite (get_disabled s E).
    repeat split; intros; try reflexivity. discriminate.
Qed.

End Get.

Lemma get_fails_open_witness :
  fst (get enabled text_codec connected "greeting" PNone greeting_store)
  = Ok (PStr "hello").
Proof.
  refine (proj2 (proj2 (proj2 (proj2 (proj2 (proj2
           (get_fails_open enabled text_codec connected "greeting" PNone greeting_store))))))
           (PStr "hello") (Redis.record (Redis.GET "greeting") greeting_store)
           JSONDecodeError TypeError _ _ _ _ _ _);
    vm_compute; reflexivity.
Defined.

End CacheFacts.

(** ** The rate limiter *)

Module RateLimitFacts.
Import Cache RateLimit Fixtures.

Section FailOpen.
Context {S : Type}.
Variables (cm : CacheManager S) (time : Z) (self : RateLimitMiddleware).
Variable call_next : Request -> M S Response.

Lemma read_counter_raises key s e s' :
  backend_raises cm self key s e s' ->
  read_counter cm self key s = (Raise e, s').
Proof.
  unfold read_counter, get_client, bindS, retS, raiseS.
  destruct 1 as [Hc | c e s' Hc Hi | c e s1 s' Hc Hi He
                 | c b e s1 s2 s' Hc Hi He Ht | c n e s1 s' Hc Hi Hn Ht];
    rewrite Hc; try rewrite Hi; simpl; try reflexivity.
  - now rewrite He.
  - now rewrite He, Ht.
  - destruct (Z.eqb_spec n 1); [contradiction |]. now rewrite Ht.
Qed.

(** C6 — if a counter command raises while a request is being counted (no
    client, or a failing increment, expiry or TTL query), [dispatch] hands
    the request to the handler: its outcome is the handler's, neither a
    429 nor the backend's error. *)
Theorem dispatch_fails_open request s e s' :
  startswith "/health" (path request) = false ->
  backend_raises cm self (rate_limit_key request) s e s' ->
  dispatch cm time self call_next request s = call_next request s'.
Proof.
  intros Hpath Hfail. unfold dispatch. rewrite Hpath.
  unfold try_exceptS, bindS. rewrite (read_counter_raises _ _ _ _ Hfail).
  reflexivity.
Qed.

End FailOpen.

Lemma dispatch_fails_open_witness :
  dispatch (mkCacheManager None) 1000 (init 3) (ok_handler plain) from_client Redis.empty
  = (Ok plain, Redis.empty).
Proof.
  apply (dispatch_fails_open (mkCacheManager None) 1000 (init 3) (ok_handler plain)
           from_client Redis.empty
           (RuntimeError "Redis not connected. Call connect() first.") Redis.empty).
  - reflexivity.
  - apply raises_no_client. reflexivity.
Defined.

End RateLimitFacts.

Module WindowFacts.
Import Cache RateLimit Fixtures.

Lemma header_set_eq k v h : header k (set_header k v h) = Some v.
Proof.
  induction h as [| [k' v'] h IH]; simpl.
  - now rewrite String.eqb_refl.
  - destruct (String.eqb k k') eqn:E; simpl; rewrite ?String.eqb_refl, ?E; auto.
Qed.

Lemma header_set_ne k k' v h : k <> k' -> header k (set_header k' v h) = header k h.
Proof.
  intros Hne. apply String.eqb_neq in Hne.
  induction h as [| [k2 v2] h IH]; simpl.
  - now rewrite Hne.
  - destruct (String.eqb k' k2) eqn:E; simpl.
    + apply String.eqb_eq in E. subst k2. now rewrite Hne.
    + destruct (String.eqb k k2); auto.
Qed.

Lemma int64_spec n :
  Redis.int64 n = true <-> - Redis.max_int64 - 1 <= n <= Redis.max_int64.
Proof.
  unfold Redis.int64. rewrite andb_true_iff, !Z.leb_le. tauto.
Qed.

Lemma int64_small n : 0 <= n <= Redis.max_int64 -> Redis.int64 n = true.
Proof. intros H. apply int64_spec. unfold Redis.max_int64 in *. lia. Qed.

Section Window.
Variable N : Z.
Let self : RateLimitMiddleware := init N.
Variable request : Request.
Variable call_next : Request -> M Redis.store Response.
Hypothesis not_health : startswith "/health" (path request) = false.

Let key := rate_limit_key request.
Let cm (t : Z) : CacheManager Redis.store := mkCacheManager (Some (Redis.client t)).

Lemma read_counter_first t s :
  Redis.lookup t s key = None ->
  read_counter (cm t) self key s =
  (Ok (1, t + window_size self - t),
   Redis.mkStore
     (<[key := Redis.mkEntry (PInt 1) (Some (t + window_size self))]> (Redis.keys s))
     (Redis.received s ++ [Redis.INCRBY key 1; Redis.EXPIRE key (window_size self);
                           Redis.TTL key])).
Proof.
  intros Hfresh.
  unfold read_counter, get_client, r_incr, bindS, retS. cbn.
  unfold Redis.incrby. cbn.
  unfold Redis.lookup in *. cbn. rewrite Hfresh. cbn.
  change (0 + 1) with 1. change (Redis.int64 1) with true. cbn.
  unfold Redis.expire, Redis.lookup. cbn. rewrite lookup_insert_eq. cbn.
  unfold Redis.ttl, Redis.lookup. cbn. rewrite lookup_insert_eq. cbn.
  unfold Redis.live. cbn.
  replace (t <=? t + 60) with true by (symmetry; apply Z.leb_le; lia). cbn.
  unfold Redis.record, Redis.put. cbn.
  rewrite insert_insert_eq, <- !app_assoc. reflexivity.
Qed.

Lemma read_counter_later t s j dl :
  Redis.keys s !! key = Some (Redis.mkEntry (PInt j) dl) ->
  before dl t -> 0 < j < Redis.max_int64 ->
  read_counter (cm t) self key s =
  (Ok (j + 1, left dl t),
   Redis.mkStore
     (<[key := Redis.mkEntry (PInt (j + 1)) dl]> (Redis.keys s))
     (Redis.received s ++ [Redis.INCRBY key 1; Redis.TTL key])).
Proof.
  intros Hentry Hlive Hj.
  assert (Hl : Redis.live t (Redis.mkEntry (PInt j) dl) = true).
  { unfold Redis.live. destruct dl as [d |]; cbn in *; [| reflexivity].
    apply Z.leb_le. lia. }
  assert (Hl' : Redis.live t (Redis.mkEntry (PInt (j + 1)) dl) = true) by exact Hl.
  unfold read_counter, get_client, r_incr, bindS, retS. cbn.
  unfold Redis.incrby, Redis.lookup. cbn. rewrite Hentry, Hl. cbn.
  rewrite (int64_small j), (int64_small (j + 1)) by lia.
  change (Redis.int64 1) with true. cbn.
  replace (j + 1 =? 1) with false by (symmetry; apply Z.eqb_neq; lia). cbn.
  unfold Redis.ttl, Redis.lookup. cbn. rewrite lookup_insert_eq, Hl'. cbn.
  unfold Redis.record, Redis.put, left. cbn.
  rewrite <- !app_assoc. destruct dl; reflexivity.
Qed.

(** After the counter has been read, [dispatch] refuses, or runs the
    handler; when the handler raises it runs it once more. *)
Lemma dispatch_counted t s count ttl s1 :
  read_counter (cm t) self key s = (Ok (count, ttl), s1) ->
  dispatch (cm t) t self call_next request s =
  if N <? count then (Ok (too_many_requests t self ttl), s1)
  else match call_next request s1 with
       | (Ok resp, s2) => (Ok (with_quota t self count ttl resp), s2)
       | (Raise e, s2) => call_next request s2
       end.
Proof.
  intros Hread. unfold dispatch. rewrite not_health.
  unfold try_exceptS, bindS, retS. fold key. rewrite Hread. cbn.
  destruct (N <? count); [reflexivity |].
  destruct (call_next request s1) as [[resp | e] s2]; reflexivity.
Qed.

Hypothesis handler : leaves_alone key call_next request.

Let answered := RateLimit.answered self call_next request.

(** A counted request: the answer, and what is left in Redis. *)
Lemma dispatch_step t s count ttl dl s1 :
  read_counter (cm t) self key s = (Ok (count, ttl), s1) ->
  Redis.keys s1 !! key = Some (Redis.mkEntry (PInt count) dl) ->
  exists r s2,
    dispatch (cm t) t self call_next request s = (r, s2) /\
    answered t count ttl dl r /\
    Redis.keys s2 !! key = Redis.keys s1 !! key /\
    List.filter (about key) (Redis.received s2)
    = List.filter (about key) (Redis.received s1).
Proof.
  intros Hread Hentry. rewrite (dispatch_counted t s count ttl s1 Hread).
  unfold answered, RateLimit.answered. cbn. destruct (N <? count).
  - exists (Ok (too_many_requests t self ttl)), s1. auto.
  - destruct (handler s1) as (resp & s2 & Hcall & Hkeys & Hlog). rewrite Hcall.
    exists (Ok (with_quota t self count ttl resp)), s2.
    split; [reflexivity |]. split; [| auto].
    exists (with_quota t self count ttl resp). split; [reflexivity |].
    exists resp, s1, s2. auto.
Qed.

Lemma about_counter :
  List.filter (about key) [Redis.INCRBY key 1; Redis.TTL key]
  = [Redis.INCRBY key 1; Redis.TTL key].
Proof. cbn. now rewrite String.eqb_refl. Qed.

(** Requests that follow the first one of a counter. *)
Lemma serve_later times : forall s j dl results s',
  Redis.keys s !! key = Some (Redis.mkEntry (PInt j) dl) ->
  0 < j ->
  j + Z.of_nat (length times) <= Redis.max_int64 ->
  Forall (before dl) times ->
  serve self call_next request times s = (results, s') ->
  (forall k t, times !! k = Some t ->
               exists r, results !! k = Some r /\
                         answered t (j + 1 + Z.of_nat k) (left dl t) dl r) /\
  Redis.keys s' !! key
  = Some (Redis.mkEntry (PInt (j + Z.of_nat (length times))) dl) /\
  List.filter (about key) (Redis.received s') =
  (List.filter (about key) (Redis.received s)
     ++ concat (replicate (length times) [Redis.INCRBY key 1; Redis.TTL key]))%list.
Proof.
  induction times as [| t times IH]; intros s j dl results s' Hentry Hj Hmax Hall Hrun.
  - cbn in Hrun. injection Hrun as <- <-. split; [| split].
    + intros k t Hk. destruct k; discriminate Hk.
    + cbn. now rewrite Z.add_0_r.
    + cbn. now rewrite app_nil_r.
  - apply Forall_cons in Hall as [Ht Hall]. cbn [length] in Hmax.
    pose proof (read_counter_later t s j dl Hentry Ht ltac:(lia)) as Hread.
    destruct (dispatch_step t s _ _ dl _ Hread ltac:(cbn; apply lookup_insert_eq))
      as (r & s2 & Hd & Hans & Hkeys & Hlog).
    cbn [serve] in Hrun. fold (cm t) in Hrun. rewrite Hd in Hrun.
    destruct (serve self call_next request times s2) as [rs s3] eqn:Hrest.
    injection Hrun as <- <-.
    cbn in Hkeys, Hlog. rewrite lookup_insert_eq in Hkeys.
    destruct (IH s2 (j + 1) dl rs s3 Hkeys ltac:(lia) ltac:(lia) Hall Hrest)
      as (Hres & Hfinal & Hlog3).
    split; [| split].
    + intros [| k] t0 Hk; cbn in Hk.
      * injection Hk as <-. exists r. split; [reflexivity |].
        cbn. now rewrite Z.add_0_r.
      * destruct (Hres k t0 Hk) as (r0 & Hr0 & Hans0). exists r0.
        split; [exact Hr0 |].
        replace (j + 1 + Z.of_nat (Datatypes.S k)) with (j + 1 + 1 + Z.of_nat k) by lia.
        exact Hans0.
    + rewrite Hfinal. do 3 f_equal. cbn [length]. lia.
    + rewrite Hlog3, Hlog, List.filter_app, about_counter. cbn [length replicate concat].
      now rewrite <- !app_assoc.
Qed.


End Window.



Lemma caching_handler_leaves_alone :
  leaves_alone (rate_limit_key from_client) (caching_handler plain) from_client.
Proof.
  intros st. unfold caching_handler, bindS, Redis.get, retS.
  destruct (Redis.lookup 0 _ "user:7"); eexists _, _;
    (split; [reflexivity |]); cbn; rewrite List.filter_app; cbn;
    now rewrite app_nil_r.
Qed.


End WindowFacts.

(** ** The user service *)

Module ServiceFacts.
Import Models Schemas Config Cache Security Service Fixtures.

(** *** Which events a computation can add to the trace *)

Section Emits.
Context {S : Type}.
Variable env : Env S.
Variable P : event -> Prop.

Lemma emits_ret {A} (a : A) : emits (S:=S) P (retS a).
Proof. intros w. exists []. cbn. rewrite app_nil_r. auto. Qed.

Lemma emits_raise {A} e : emits (S:=S) P (@raiseS _ A e).
Proof. intros w. exists []. cbn. rewrite app_nil_r. auto. Qed.

Lemma emits_lift {A} (r : pyresult A) : emits (S:=S) P (liftS r).
Proof. intros w. exists []. cbn. rewrite app_nil_r. auto. Qed.

Lemma emits_bind {A B} (m : M (World S) A) (k : A -> M (World S) B) :
  emits P m -> (forall a, emits P (k a)) -> emits P (bindS m k).
Proof.
  intros Hm Hk w. unfold bindS.
  destruct (Hm w) as (tr1 & E1 & F1).
  destruct (m w) as [[a | e] w1]; cbn in *.
  - destruct (Hk a w1) as (tr2 & E2 & F2).
    exists (tr1 ++ tr2)%list. rewrite E2, E1, app_assoc. split; auto.
    apply Forall_app; auto.
  - exists tr1. auto.
Qed.

Lemma emits_emit e : P e -> emits (S:=S) P (emit e).
Proof. intros H w. exists [e]. cbn. auto. Qed.

Lemma emits_on_cache {A} (m : M S A) : emits P (on_cache m).
Proof.
  intros w. exists []. unfold on_cache. destruct (m (kv w)). cbn.
  rewrite app_nil_r. auto.
Qed.

Lemma emits_cache_get key : P (CacheGet key) -> emits P (cache_get env key).
Proof. intros H. apply emits_bind; [now apply emits_emit | intros; apply emits_on_cache]. Qed.

Lemma emits_cache_set key v ttl : P (CacheSet key) -> emits P (cache_set env key v ttl).
Proof. intros H. apply emits_bind; [now apply emits_emit | intros; apply emits_on_cache]. Qed.

Lemma emits_cache_delete key : P (CacheDelete key) -> emits P (cache_delete env key).
Proof. intros H. apply emits_bind; [now apply emits_emit | intros; apply emits_on_cache]. Qed.

Lemma emits_db_execute where_ : (forall b, P (DbExecute b)) -> emits P (db_execute env where_).
Proof. intros H w. eexists [_]. cbn. split; [reflexivity | auto]. Qed.

Lemma emits_db_refresh user : (forall b, P (DbRefresh b)) -> emits P (db_refresh env user).
Proof.
  intros H w. unfold db_refresh.
  destruct (db_fault env _); eexists [_]; cbn; (split; [reflexivity | auto]).
Qed.

End Emits.

Ltac emits_step :=
  first
    [ apply emits_ret | apply emits_raise | apply emits_lift
    | apply emits_cache_get; exact I
    | apply emits_cache_set; exact I
    | apply emits_cache_delete; reflexivity
    | apply emits_db_execute; intros; exact I
    | apply emits_db_refresh; intros; exact I
    | apply emits_bind; [| intros ?]
    | match goal with
      | |- emits _ (match ?x with _ => _ end) => destruct x
      end ].

Section Ordering.
Context {S : Type}.
Variable env : Env S.

Lemma get_user_by_id_quiet uid : emits quiet (get_user_by_id env uid).
Proof. unfold get_user_by_id. repeat emits_step. Qed.

Lemma get_user_by_email_quiet e : emits quiet (get_user_by_email env e).
Proof. unfold get_user_by_email. repeat emits_step. Qed.

Lemma get_user_by_username_quiet n : emits quiet (get_user_by_username env n).
Proof. unfold get_user_by_username. repeat emits_step. Qed.

Lemma apply_update_quiet user data : emits quiet (apply_update env user data).
Proof.
  unfold apply_update.
  repeat first [ apply get_user_by_email_quiet | apply get_user_by_username_quiet
               | emits_step ].
Qed.

(** Events that are all quiet, followed by events in order, are in order. *)
Lemma split_after_quiet q : forall t pre k post,
  Forall quiet q ->
  (q ++ t = pre ++ CacheDelete k :: post)%list ->
  exists pre', pre = (q ++ pre')%list /\ t = (pre' ++ CacheDelete k :: post)%list.
Proof.
  induction q as [| e q IH]; intros t pre k post Hq Heq.
  - exists pre. auto.
  - apply Forall_cons in Hq as [He Hq].
    destruct pre as [| e' pre]; cbn in Heq.
    + injection Heq as -> _. destruct He.
    + injection Heq as <- Heq.
      destruct (IH t pre k post Hq Heq) as (pre' & -> & ->).
      exists pre'. auto.
Qed.

Lemma ordered_after_quiet key q t :
  Forall quiet q -> ordered key t -> ordered key (q ++ t).
Proof.
  intros Hq Ht pre k post Heq.
  destruct (split_after_quiet q t pre k post Hq Heq) as (pre' & -> & Et).
  destruct (Ht pre' k post Et) as (Hk & Hin & Hno).
  split; [exact Hk |]. split.
  - apply in_or_app. now right.
  - intros Hbad. apply in_app_or in Hbad as [Hbad | Hbad]; [| now apply Hno].
    rewrite Forall_forall in Hq. apply list_elem_of_In in Hbad.
    exact (Hq _ Hbad).
Qed.

Lemma ordered_commit_failed key : ordered key [DbCommit false].
Proof.
  intros [| e [| e' pre]] k post Heq; cbn in Heq; discriminate.
Qed.

Lemma ordered_commit_done key t :
  Forall (after_commit key) t -> ordered key (DbCommit true :: t).
Proof.
  intros Ht pre k post Heq.
  destruct pre as [| e pre]; cbn in Heq; [discriminate |].
  injection Heq as <- Heq. subst t.
  rewrite Forall_forall in Ht.
  split; [| split].
  - apply (Ht (CacheDelete k)). apply list_elem_of_In, in_or_app. right. now left.
  - now left.
  - intros [Hbad | Hbad]; [discriminate |].
    apply list_elem_of_In in Hbad. exact (Ht _ Hbad).
Qed.

Lemma in_order_ret {A} key (a : A) : in_order (S:=S) key (retS a).
Proof.
  intros w. exists []. cbn. rewrite app_nil_r. split; [reflexivity |].
  intros [| e pre] k post Heq; discriminate.
Qed.

Lemma in_order_after_quiet {A B} key (m : M (World S) A) (k : A -> M (World S) B) :
  emits quiet m -> (forall a, in_order key (k a)) -> in_order key (bindS m k).
Proof.
  intros Hm Hk w. unfold bindS.
  destruct (Hm w) as (q & Eq & Fq).
  destruct (m w) as [[a | e] w1]; cbn in *.
  - destruct (Hk a w1) as (t & Et & Ot).
    exists (q ++ t)%list. rewrite Et, Eq, app_assoc. split; [reflexivity |].
    now apply ordered_after_quiet.
  - exists (q ++ [])%list. rewrite app_nil_r. split; [exact Eq |].
    rewrite <- (app_nil_r q) at 1. apply ordered_after_quiet; [exact Fq |].
    intros [| e' pre] k' post Heq; discriminate.
Qed.

Lemma in_order_commit {B} key user (k : unit -> M (World S) B) :
  (forall a, emits (after_commit key) (k a)) ->
  in_order key (bindS (db_commit env user) k).
Proof.
  intros Hk w. unfold bindS, db_commit.
  destruct (db_fault env (length (trace w))) as [e |]; cbn.
  - exists [DbCommit false]. split; [reflexivity | apply ordered_commit_failed].
  - destruct (Hk tt (mkWorld (flush (utcnow env) user (rows w)) (kv w)
                             (trace w ++ [DbCommit true]))) as (t & Et & Ft).
    exists (DbCommit true :: t). cbn in Et. rewrite Et, <- app_assoc.
    split; [reflexivity | now apply ordered_commit_done].
Qed.

Lemma update_user_in_order uid data :
  in_order (cache_key uid) (update_user env uid data).
Proof.
  unfold update_user.
  apply in_order_after_quiet; [apply get_user_by_id_quiet |].
  intros [user |]; [| apply in_order_ret].
  apply in_order_after_quiet; [apply apply_update_quiet |].
  intros user'. apply in_order_commit. intros _. repeat emits_step.
Qed.

Lemma delete_user_in_order uid : in_order (cache_key uid) (delete_user env uid).
Proof.
  unfold delete_user.
  apply in_order_after_quiet; [apply get_user_by_id_quiet |].
  intros [user |]; [| apply in_order_ret].
  apply in_order_after_quiet; [apply emits_lift |]. intros user1.
  apply in_order_after_quiet; [apply emits_lift |]. intros user2.
  apply in_order_commit. intros _. repeat emits_step.
Qed.

Lemma verify_user_email_in_order uid :
  in_order (cache_key uid) (verify_user_email env uid).
Proof.
  unfold verify_user_email.
  apply in_order_after_quiet; [apply get_user_by_id_quiet |].
  intros [user |]; [| apply in_order_ret].
  apply in_order_after_quiet; [apply emits_lift |]. intros user1.
  apply in_order_commit. intros _. repeat emits_step.
Qed.

End Ordering.

Example delete_user_commit_fails :
  delete_user (failing_env 3) 7 (start [alice None; bob])
  = (Raise (BackendError "connection lost"),
     mkWorld [alice None; bob] tt
             [CacheGet "user:7"; DbExecute true; CacheSet "user:7"; DbCommit false]).
Proof. vm_compute. reflexivity. Qed.

(** C2 — in [update_user], [delete_user] and [verify_user_email], whatever
    the cache and the database do, the id-keyed cache entry is deleted only
    after the commit of that call has succeeded: every [CacheDelete] among
    the events of the call is for [user:<id>] and has a successful commit
    before it, and a call whose commit fails deletes nothing. *)
Theorem cache_delete_only_after_commit {S : Type} (env : Env S) (uid : Z)
        (data : UserUpdate) (w : World S) :
  (exists tr, trace (snd (update_user env uid data w)) = (trace w ++ tr)%list /\
              ordered (cache_key uid) tr) /\
  (exists tr, trace (snd (delete_user env uid w)) = (trace w ++ tr)%list /\
              ordered (cache_key uid) tr) /\
  (exists tr, trace (snd (verify_user_email env uid w)) = (trace w ++ tr)%list /\
              ordered (cache_key uid) tr).
Proof.
  split; [apply update_user_in_order |].
  split; [apply delete_user_in_order | apply verify_user_email_in_order].
Qed.

(** *** Soft deletion *)

Section Deletion.
Context {S : Type}.

Lemma cache_get_miss (env : Env S) key w :
  cache_misses env key w ->
  exists o s, cache_get env key w
              = (Ok o, mkWorld (rows w) s (trace w ++ [CacheGet key])) /\
              truthy o = false.
Proof.
  intros (o & Hget & Hfalsy).
  unfold cache_get, bindS, emit, on_cache. cbn.
  destruct (Cache.get _ _ _ key PNone (kv w)) as [r s]. cbn in Hget. subst r.
  exists o, s. auto.
Qed.

(** A user that the store does not hold, or holds only as deleted, is not
    found. *)
Lemma delete_user_absent (env : Env S) uid w :
  cache_misses env (cache_key uid) w ->
  (forall n, db_fault env n = None) ->
  (forall u, In u (rows w) -> id u = uid -> deleted_at u <> None) ->
  fst (delete_user env uid w) = Ok false.
Proof.
  intros Hmiss Hdb Habsent.
  destruct (cache_get_miss env _ w Hmiss) as (o & s & Hget & Hfalsy).
  unfold delete_user, get_user_by_id, bindS. rewrite Hget, Hfalsy.
  unfold db_execute. cbn. rewrite Hdb. cbn.
  rewrite AuthFacts.filter_none; [reflexivity |].
  intros u Hu. destruct (Z.eqb_spec (id u) uid) as [Heq | Hne]; cbn; [| reflexivity].
  specialize (Habsent u Hu Heq). unfold Db.not_deleted, is_deleted.
  destruct (deleted_at u); [reflexivity | congruence].
Qed.

Lemma flush_deleted now u table r :
  deleted_at u <> None ->
  In r (flush now (mkRef (PUser u) true) table) ->
  id r = id u ->
  deleted_at r <> None.
Proof.
  intros Hdel Hin Hid. unfold flush in Hin. cbn in Hin.
  apply in_map_iff in Hin as (r0 & Hr & _).
  destruct (Z.eqb_spec (id r0) (id u)) as [E | E].
  - destruct (decide (r0 = u)); subst r; [now subst r0 | exact Hdel].
  - subst r. contradiction.
Qed.

(** After a deletion that loaded the user from the store and returned
    [True], every row with that id carries a deletion timestamp. *)
Lemma delete_user_marks_rows (env : Env S) uid w w1 :
  cache_misses env (cache_key uid) w ->
  delete_user env uid w = (Ok true, w1) ->
  forall u, In u (rows w1) -> id u = uid -> deleted_at u <> None.
Proof.
  intros Hmiss Hrun.
  destruct (cache_get_miss env _ w Hmiss) as (o & s & Hget & Hfalsy).
  unfold delete_user, get_user_by_id, bindS in Hrun. rewrite Hget, Hfalsy in Hrun.
  unfold db_execute in Hrun. cbn in Hrun.
  destruct (db_fault env _) as [e |]; cbn in Hrun; [discriminate |].
  destruct (List.filter _ (rows w)) as [| u0 [| u1 found]] eqn:Hfound;
    cbn in Hrun; try discriminate.
  assert (Hu0 : id u0 = uid).
  { assert (Hin : In u0 (List.filter (fun u => (id u =? uid) && Db.not_deleted u) (rows w)))
      by (rewrite Hfound; now left).
    apply filter_In in Hin as [_ Hp]. apply andb_prop in Hp as [Hp _].
    now apply Z.eqb_eq. }
  unfold cache_set, bindS, emit, on_cache in Hrun. cbn in Hrun.
  destruct (Cache.set _ _ _ _ _ _ s) as [r1 s1]. cbn in Hrun.
  destruct r1 as [b1 | e1]; cbn in Hrun; [| discriminate].
  unfold db_commit in Hrun. cbn in Hrun.
  destruct (db_fault env _) as [e |]; cbn in Hrun; [discriminate |].
  unfold cache_delete, bindS, emit, on_cache in Hrun. cbn in Hrun.
  destruct (Cache.delete _ _ _ s1) as [r2 s2]. cbn in Hrun.
  destruct r2 as [b2 | e2]; cbn in Hrun; [| discriminate].
  injection Hrun as <-. cbn.
  intros u Hin Hid.
  apply (flush_deleted (utcnow env)
           (with_is_active (soft_delete (utcnow env) u0) false) (rows w) u).
  - cbn. discriminate.
  - exact Hin.
  - cbn. congruence.
Qed.

End Deletion.

Example delete_user_connected :
  let w1 := snd (delete_user (connected_env 1700000000) 7
                   (start_connected [alice None; bob])) in
  Redis.keys (kv w1) !! "user:7" = None /\
  Redis.received (kv w1)
  = [Redis.GET "user:7"; Redis.SETEX "user:7" 300; Redis.DEL ["user:7"]] /\
  trace w1 = [CacheGet "user:7"; DbExecute true; CacheSet "user:7"; DbCommit true;
              CacheDelete "user:7"].
Proof. vm_compute. repeat split; reflexivity. Qed.

Example delete_user_events :
  trace (snd (delete_user test_env 7 (start [alice None; bob])))
  = [CacheGet "user:7"; DbExecute true; CacheSet "user:7"; DbCommit true;
     CacheDelete "user:7"].
Proof. vm_compute. reflexivity. Qed.

Example delete_user_row :
  rows (snd (delete_user test_env 7 (start [alice None; bob])))
  = [mkUser 7 "alice@x.com" "alice" "$2b$12$digest" None false false false None None
            1600000000 1700000000 (Some 1700000000); bob].
Proof. vm_compute. reflexivity. Qed.

Example delete_user_unknown :
  fst (delete_user test_env 99 (start [alice None; bob])) = Ok false.
Proof. vm_compute. reflexivity. Qed.

(** *** Updates *)

Example update_user_full_name :
  fst (update_user test_env 7 (mkUserUpdate None None (Some "Alice A.") None None)
                   (start [alice None; bob]))
  = Ok (Some (mkRef (PUser (mkUser 7 "alice@x.com" "alice" "$2b$12$digest"
                                   (Some "Alice A.") true false false None None
                                   1600000000 1700000000 None)) true)).
Proof. vm_compute. reflexivity. Qed.

Example update_user_email_of_other :
  fst (update_user test_env 7 (mkUserUpdate (Some "bob@x.com") None None None None)
                   (start [alice None; bob]))
  = Raise (email_taken "bob@x.com").
Proof. vm_compute. reflexivity. Qed.

Example update_user_same_email :
  raises (fst (update_user test_env 7
                 (mkUserUpdate (Some "alice@x.com") None None None None)
                 (start [alice None; bob]))) = false.
Proof. vm_compute. reflexivity. Qed.

(** C4 — [update_user] is meant to raise the duplicate error only when the
    patched email belongs to another user.  The patch is compared with the
    stored email as given but looked up lower-cased, so a patch that spells
    the user's own email with another capitalisation finds the user herself
    and is refused: alice, the only holder of [alice@x.com], cannot be
    patched with [Alice@x.com]. *)
Theorem update_user_own_email_refused :
  fst (update_user test_env 7 (mkUserUpdate (Some "Alice@x.com") None None None None)
                   (start [alice None; bob]))
  = Raise (email_taken "Alice@x.com") /\
  validate_email "Alice@x.com" = Ok (email (alice None)) /\
  fst (get_user_by_email test_env "Alice@x.com" (start [alice None; bob]))
  = Ok (Some (alice None)).
Proof. repeat split; vm_compute; reflexivity. Qed.

End ServiceFacts.

(** ** Soft deletion against a cache that the service alone fills *)

Module DeletionFacts.
Import Models Schemas Config Cache Security Service Fixtures Lifecycle.
Import ServiceFacts.

Lemma stored_by_service_empty c uid : stored_by_service c uid Redis.empty.
Proof. unfold stored_by_service. cbn. now rewrite lookup_empty. Qed.

(** A pickle under the key is never read back: [json.loads] fails on it
    with an error that [get] does not take for "not JSON", so the lookup
    ends in the outer handler and answers the default. *)
Lemma pickle_is_a_miss (env : Env Redis.store) now uid w :
  cache_manager env = at_time now ->
  pickle_opaque (codec env) ->
  stored_by_service (codec env) uid (kv w) ->
  cache_misses env (cache_key uid) w.
Proof.
  intros Hcm Hlaw Hinv. exists PNone. split; [| reflexivity].
  unfold Cache.get. destruct (enable_cache (settings env)); [| reflexivity].
  rewrite Hcm. cbn. unfold try_exceptS, bindS, retS, liftS, on_redis. cbn.
  unfold Redis.get, Redis.lookup. cbn.
  unfold stored_by_service in Hinv.
  destruct (Redis.keys (kv w) !! cache_key uid) as [e |]; [| reflexivity].
  destruct (Redis.live now e); [| reflexivity].
  destruct Hinv as (u & Hu). destruct (Hlaw _ _ Hu) as (b & Hb & Hjson).
  rewrite Hb. cbn. rewrite Hjson. reflexivity.
Qed.

Section Kept.
Variable env : Env Redis.store.
Variable now : Z.
Variable n : Z.
Hypothesis connected : cache_manager env = at_time now.


Lemma keeps_entry_ret {A} (a : A) : keeps_entry (codec env) n (retS a).
Proof. intros w H. exact H. Qed.

Lemma keeps_entry_raise {A} e : keeps_entry (codec env) n (@raiseS _ A e).
Proof. intros w H. exact H. Qed.

Lemma keeps_entry_lift {A} (r : pyresult A) : keeps_entry (codec env) n (liftS r).
Proof. intros w H. exact H. Qed.

Lemma keeps_entry_bind {A B} (m : M (World Redis.store) A)
      (k : A -> M (World Redis.store) B) :
  keeps_entry (codec env) n m ->
  (forall a, keeps_entry (codec env) n (k a)) ->
  keeps_entry (codec env) n (bindS m k).
Proof.
  intros Hm Hk w H. specialize (Hm w H). unfold bindS.
  destruct (m w) as [[a | e] w1]; cbn in *; [apply Hk |]; exact Hm.
Qed.

Lemma keeps_entry_db_execute where_ : keeps_entry (codec env) n (db_execute env where_).
Proof. intros w H. exact H. Qed.

Lemma keeps_entry_db_commit user : keeps_entry (codec env) n (db_commit env user).
Proof. intros w H. unfold db_commit. destruct (db_fault env _); exact H. Qed.

Lemma keeps_entry_db_refresh user : keeps_entry (codec env) n (db_refresh env user).
Proof. intros w H. unfold db_refresh. destruct (db_fault env _); exact H. Qed.

Lemma keeps_entry_cache_get key : keeps_entry (codec env) n (cache_get env key).
Proof.
  intros w H. unfold cache_get, bindS, emit, on_cache. cbn.
  unfold Cache.get. destruct (enable_cache (settings env)); [| exact H].
  rewrite connected. cbn. unfold try_exceptS, bindS, retS, liftS, on_redis. cbn.
  unfold Redis.get. cbn.
  destruct (Redis.lookup now _ key) as [e |]; cbn; [| exact H].
  destruct (try_except _ _ _); exact H.
Qed.

Lemma keeps_entry_cache_delete key : keeps_entry (codec env) n (cache_delete env key).
Proof.
  intros w H. unfold cache_delete, bindS, emit, on_cache. cbn.
  unfold Cache.delete. destruct (enable_cache (settings env)); [| exact H].
  rewrite connected. cbn. unfold try_exceptS, bindS, retS, on_redis. cbn.
  unfold Redis.delete. cbn.
  assert (Hrem : stored_by_service (codec env) n
                   (Redis.remove key (Redis.record (Redis.DEL [key]) (kv w)))).
  { unfold stored_by_service in *. cbn.
    destruct (decide (key = cache_key n)) as [-> | Hne].
    - now rewrite lookup_delete_eq.
    - rewrite lookup_delete_ne by exact Hne. exact H. }
  destruct (Redis.lookup now _ key); cbn; exact Hrem.
Qed.

(** The user a lookup found is stored as its pickle, or not at all. *)
Lemma keeps_entry_cache_set key u ttl :
  keeps_entry (codec env) n (cache_set env key (PUser u) ttl).
Proof.
  intros w H. unfold cache_set, bindS, emit, on_cache. cbn.
  unfold Cache.set. destruct (enable_cache (settings env)); [| exact H].
  rewrite connected. cbn. unfold try_exceptS, bindS, retS, liftS, on_redis. cbn.
  destruct (pickle_dumps (codec env) (PUser u)) as [pickled | e] eqn:Hp; cbn;
    [| exact H].
  assert (Hput : forall dl log,
             stored_by_service (codec env) n
               (Redis.put key (Redis.mkEntry pickled dl)
                          (Redis.mkStore (Redis.keys (kv w)) log))).
  { intros dl log. unfold stored_by_service in *. cbn.
    destruct (decide (key = cache_key n)) as [-> | Hne].
    - rewrite lookup_insert_eq. cbn. eauto.
    - rewrite lookup_insert_ne by exact Hne. exact H. }
  destruct ttl as [t |]; [destruct (t =? 0) |]; cbn;
    unfold Redis.set, Redis.setex; cbn; try apply Hput.
  destruct (0 <? t); cbn; [apply Hput | exact H].
Qed.

Lemma keeps_entry_get_user_by_id uid : keeps_entry (codec env) n (get_user_by_id env uid).
Proof.
  unfold get_user_by_id. apply keeps_entry_bind; [apply keeps_entry_cache_get |].
  intros cached. destruct (truthy cached); [apply keeps_entry_ret |].
  apply keeps_entry_bind; [apply keeps_entry_db_execute |]. intros found.
  apply keeps_entry_bind; [apply keeps_entry_lift |]. intros [u |].
  - apply keeps_entry_bind; [apply keeps_entry_cache_set |].
    intros _. apply keeps_entry_ret.
  - apply keeps_entry_ret.
Qed.

Lemma keeps_entry_tail {A} (v : A) key (user : OrmRef) :
  keeps_entry (codec env) n (_ <~ cache_delete env key ;;
               _ <~ liftS (as_user (obj user)) ;;
               retS v)%py.
Proof.
  apply keeps_entry_bind; [apply keeps_entry_cache_delete |]. intros _.
  apply keeps_entry_bind; [apply keeps_entry_lift |]. intros _.
  apply keeps_entry_ret.
Qed.

Lemma keeps_entry_delete_user uid : keeps_entry (codec env) n (delete_user env uid).
Proof.
  unfold delete_user. apply keeps_entry_bind; [apply keeps_entry_get_user_by_id |].
  intros [user |]; [| apply keeps_entry_ret].
  apply keeps_entry_bind; [apply keeps_entry_lift |]. intros user1.
  apply keeps_entry_bind; [apply keeps_entry_lift |]. intros user2.
  apply keeps_entry_bind; [apply keeps_entry_db_commit |]. intros _.
  apply keeps_entry_tail.
Qed.

Lemma keeps_entry_verify_user_email uid : keeps_entry (codec env) n (verify_user_email env uid).
Proof.
  unfold verify_user_email.
  apply keeps_entry_bind; [apply keeps_entry_get_user_by_id |].
  intros [user |]; [| apply keeps_entry_ret].
  apply keeps_entry_bind; [apply keeps_entry_lift |]. intros user1.
  apply keeps_entry_bind; [apply keeps_entry_db_commit |]. intros _.
  apply keeps_entry_bind; [apply keeps_entry_db_refresh |]. intros user2.
  apply keeps_entry_tail.
Qed.

Lemma keeps_entry_get_user_by_email e : keeps_entry (codec env) n (get_user_by_email env e).
Proof.
  unfold get_user_by_email. apply keeps_entry_bind; [apply keeps_entry_db_execute |].
  intros found. apply keeps_entry_lift.
Qed.

Lemma keeps_entry_get_user_by_username e : keeps_entry (codec env) n (get_user_by_username env e).
Proof.
  unfold get_user_by_username.
  apply keeps_entry_bind; [apply keeps_entry_db_execute |].
  intros found. apply keeps_entry_lift.
Qed.

Lemma keeps_entry_apply_update user data : keeps_entry (codec env) n (apply_update env user data).
Proof.
  unfold apply_update.
  apply keeps_entry_bind.
  { destruct (upd_email data) as [e |]; [| apply keeps_entry_ret].
    destruct (truthy_str e); [| apply keeps_entry_ret].
    apply keeps_entry_bind; [apply keeps_entry_lift |]. intros current.
    destruct (negb _); [| apply keeps_entry_ret].
    apply keeps_entry_bind; [apply keeps_entry_get_user_by_email |].
    intros [x |]; [apply keeps_entry_raise | apply keeps_entry_lift]. }
  intros user1. apply keeps_entry_bind.
  { destruct (upd_username data) as [u |]; [| apply keeps_entry_ret].
    destruct (truthy_str u); [| apply keeps_entry_ret].
    apply keeps_entry_bind; [apply keeps_entry_lift |]. intros current.
    destruct (negb _); [| apply keeps_entry_ret].
    apply keeps_entry_bind; [apply keeps_entry_get_user_by_username |].
    intros [x |]; [apply keeps_entry_raise | apply keeps_entry_lift]. }
  intros user2. apply keeps_entry_bind.
  { destruct (upd_full_name data); [apply keeps_entry_lift | apply keeps_entry_ret]. }
  intros user3. apply keeps_entry_bind.
  { destruct (upd_password data) as [p |]; [| apply keeps_entry_ret].
    destruct (truthy_str p); [| apply keeps_entry_ret].
    apply keeps_entry_bind; [apply keeps_entry_lift |]. intros hashed.
    apply keeps_entry_lift. }
  intros user4.
  destruct (upd_is_active data); [apply keeps_entry_lift | apply keeps_entry_ret].
Qed.

Lemma keeps_entry_update_user uid data : keeps_entry (codec env) n (update_user env uid data).
Proof.
  unfold update_user. apply keeps_entry_bind; [apply keeps_entry_get_user_by_id |].
  intros [user |]; [| apply keeps_entry_ret].
  apply keeps_entry_bind; [apply keeps_entry_apply_update |]. intros user1.
  apply keeps_entry_bind; [apply keeps_entry_db_commit |]. intros _.
  apply keeps_entry_bind; [apply keeps_entry_db_refresh |]. intros user2.
  apply keeps_entry_tail.
Qed.

End Kept.

(** The state of the cache that the theorem below starts from is one the
    service keeps: an empty Redis has it, and every operation of the
    service that touches the cache, for whatever id and whether it succeeds
    or fails, leaves the entry under [user:<n>] absent or the pickle of a
    user. *)
Lemma service_keeps_its_cache (env : Env Redis.store) now n uid data :
  cache_manager env = at_time now ->
  keeps_entry (codec env) n (get_user_by_id env uid) /\
  keeps_entry (codec env) n (update_user env uid data) /\
  keeps_entry (codec env) n (delete_user env uid) /\
  keeps_entry (codec env) n (verify_user_email env uid).
Proof.
  intros Hcm. split; [| split; [| split]].
  - now apply (keeps_entry_get_user_by_id env now).
  - now apply (keeps_entry_update_user env now).
  - now apply (keeps_entry_delete_user env now).
  - now apply (keeps_entry_verify_user_email env now).
Qed.

(** C8 — soft deletion is not repeatable.  The cache is a Redis that only
    the service fills: under [user:<id>] it holds nothing or the pickle of a
    user, which [get] never reads back.  Then, once [delete_user] has
    returned [True], a second call returns [False], and so does
    [delete_user] on an id the table has never held.  (The database answers
    the lookup of the call that returns [False].) *)
Theorem delete_user_not_repeatable (env1 env2 : Env Redis.store) (now1 now2 uid : Z) :
  cache_manager env1 = at_time now1 ->
  cache_manager env2 = at_time now2 ->
  codec env2 = codec env1 ->
  pickle_opaque (codec env1) ->
  (forall n, db_fault env2 n = None) ->
  (forall w w1,
      stored_by_service (codec env1) uid (kv w) ->
      delete_user env1 uid w = (Ok true, w1) ->
      fst (delete_user env2 uid w1) = Ok false) /\
  (forall w,
      stored_by_service (codec env1) uid (kv w) ->
      (forall u, In u (rows w) -> id u <> uid) ->
      fst (delete_user env2 uid w) = Ok false).
Proof.
  intros Hcm1 Hcm2 Hcodec Hlaw Hdb. split.
  - intros w w1 Hinv Hfirst.
    pose proof (pickle_is_a_miss env1 now1 uid w Hcm1 Hlaw Hinv) as Hmiss.
    pose proof (keeps_entry_delete_user env1 now1 uid Hcm1 uid w Hinv) as Hinv1.
    rewrite Hfirst in Hinv1. cbn in Hinv1.
    apply delete_user_absent; auto.
    + apply (pickle_is_a_miss env2 now2); rewrite ?Hcodec; auto.
    + exact (delete_user_marks_rows env1 uid w w1 Hmiss Hfirst).
  - intros w Hinv Hnever.
    apply delete_user_absent; auto.
    + apply (pickle_is_a_miss env2 now2); rewrite ?Hcodec; auto.
    + intros u Hu Hid. destruct (Hnever u Hu Hid).
Qed.

Lemma opaque_text_codec : pickle_opaque text_codec.
Proof. intros o pickled [= <-]. eauto. Qed.

Lemma delete_user_not_repeatable_witness :
  fst (delete_user (connected_env 1700000100) 7
         (snd (delete_user (connected_env 1700000000) 7
                 (snd (get_user_by_id (connected_env 1699999900) 7
                         (start_connected [alice None; bob])))))) = Ok false.
Proof.
  apply (proj1 (delete_user_not_repeatable (connected_env 1700000000)
                  (connected_env 1700000100) 1700000000 1700000100 7
                  eq_refl eq_refl eq_refl opaque_text_codec (fun n => eq_refl))
               (snd (get_user_by_id (connected_env 1699999900) 7
                       (start_connected [alice None; bob])))
               (snd (delete_user (connected_env 1700000000) 7
                       (snd (get_user_by_id (connected_env 1699999900) 7
                               (start_connected [alice None; bob])))))).
  - apply (keeps_entry_get_user_by_id (connected_env 1699999900) 1699999900 7 eq_refl).
    apply stored_by_service_empty.
  - vm_compute. reflexivity.
Defined.

End DeletionFacts.

(** ** Text normalisation *)

Module TextFacts.
Import Text.

Ltac all_chars c := destruct c as [[] [] [] [] [] [] [] []]; reflexivity.

Lemma lower_char_idem c : lower_char (lower_char c) = lower_char c.
Proof. all_chars c. Qed.

Lemma isspace_lower_char c : isspace_char (lower_char c) = isspace_char c.
Proof. all_chars c. Qed.

Lemma isupper_lower_char c : isupper_char (lower_char c) = false.
Proof. all_chars c. Qed.

Lemma at_lower_char c : Ascii.eqb "@" (lower_char c) = Ascii.eqb "@" c.
Proof. all_chars c. Qed.

Lemma name_char_lower c :
  (isalnum_char c || Ascii.eqb c "_")%bool = name_char (lower_char c).
Proof. all_chars c. Qed.

Lemma name_char_fixed c : name_char c = true -> lower_char c = c.
Proof. destruct c as [[] [] [] [] [] [] [] []]; (reflexivity || discriminate). Qed.

Lemma name_char_not_space c : name_char c = true -> isspace_char c = false.
Proof. destruct c as [[] [] [] [] [] [] [] []]; (reflexivity || discriminate). Qed.

Lemma name_char_cases c :
  name_char c = true -> Ascii.eqb "_" c = false -> isalnum_char c = true.
Proof. destruct c as [[] [] [] [] [] [] [] []]; (reflexivity || discriminate). Qed.

Lemma at_not_space c : Ascii.eqb "@" c = true -> isspace_char c = false.
Proof. destruct c as [[] [] [] [] [] [] [] []]; (reflexivity || discriminate). Qed.

Lemma chars_text l : chars (text l) = l.
Proof. apply list_ascii_of_string_of_list_ascii. Qed.

Lemma text_chars s : text (chars s) = s.
Proof. apply string_of_list_ascii_of_string. Qed.

Lemma length_chars s : length (chars s) = String.length s.
Proof. induction s as [| c s IH]; simpl; [reflexivity | now rewrite <- IH]. Qed.

Lemma len_text l : len (text l) = Z.of_nat (length l).
Proof. unfold len. now rewrite <- length_chars, chars_text. Qed.

Lemma truthy_text l : truthy_str (text l) = match l with [] => false | _ => true end.
Proof. destruct l; reflexivity. Qed.

(** *** [lstrip] and [strip] *)

Lemma lstrip_head l c l' : lstrip_chars l = c :: l' -> isspace_char c = false.
Proof.
  induction l as [| a l IH]; simpl; [discriminate |].
  destruct (isspace_char a) eqn:E; [exact IH |].
  intros [= <- _]. exact E.
Qed.

Lemma lstrip_fixed l :
  match l with c :: _ => isspace_char c = false | [] => True end ->
  lstrip_chars l = l.
Proof. destruct l as [| c l]; simpl; [reflexivity |]. now intros ->. Qed.

Lemma lstrip_idem l : lstrip_chars (lstrip_chars l) = lstrip_chars l.
Proof.
  apply lstrip_fixed. destruct (lstrip_chars l) as [| c l'] eqn:E; [exact I |].
  exact (lstrip_head _ _ _ E).
Qed.

Lemma lstrip_snoc l c :
  isspace_char c = false -> lstrip_chars (l ++ [c]) = (lstrip_chars l ++ [c])%list.
Proof.
  intros Hc. induction l as [| a l IH]; simpl.
  - now rewrite Hc.
  - destruct (isspace_char a); [exact IH | reflexivity].
Qed.

Lemma strip_chars_trimmed l : trimmed (strip_chars l).
Proof.
  unfold trimmed, strip_chars. split.
  - destruct (lstrip_chars l) as [| c l1] eqn:E; [reflexivity |].
    pose proof (lstrip_head _ _ _ E) as Hc.
    cbn [rev]. rewrite (lstrip_snoc _ _ Hc), rev_app_distr. cbn [rev app].
    cbn [lstrip_chars]. now rewrite Hc.
  - now rewrite rev_involutive, lstrip_idem.
Qed.

Lemma strip_chars_fixed l : trimmed l -> strip_chars l = l.
Proof. intros [H1 H2]. unfold strip_chars. now rewrite H1, H2, rev_involutive. Qed.

Lemma strip_chars_idem l : strip_chars (strip_chars l) = strip_chars l.
Proof. apply strip_chars_fixed, strip_chars_trimmed. Qed.

Lemma lstrip_map_lower l :
  lstrip_chars (map lower_char l) = map lower_char (lstrip_chars l).
Proof.
  induction l as [| c l IH]; simpl; [reflexivity |].
  rewrite isspace_lower_char. destruct (isspace_char c); [exact IH | reflexivity].
Qed.

Lemma strip_chars_map_lower l :
  strip_chars (map lower_char l) = map lower_char (strip_chars l).
Proof.
  unfold strip_chars.
  now rewrite lstrip_map_lower, <- map_rev, lstrip_map_lower, map_rev.
Qed.

Lemma map_lower_idem l : map lower_char (map lower_char l) = map lower_char l.
Proof. rewrite map_map. apply map_ext. intros c. apply lower_char_idem. Qed.

Lemma existsb_lstrip (p : ascii -> bool) l :
  (forall c, p c = true -> isspace_char c = false) ->
  existsb p (lstrip_chars l) = existsb p l.
Proof.
  intros Hp. induction l as [| c l IH]; simpl; [reflexivity |].
  destruct (isspace_char c) eqn:E; [| reflexivity].
  rewrite IH. destruct (p c) eqn:Ep; [| reflexivity].
  rewrite (Hp c Ep) in E. discriminate.
Qed.

Lemma existsb_rev (p : ascii -> bool) l : existsb p (rev l) = existsb p l.
Proof.
  induction l as [| c l IH]; simpl; [reflexivity |].
  rewrite existsb_app, IH. simpl. rewrite orb_false_r. apply orb_comm.
Qed.

Lemma existsb_strip_chars (p : ascii -> bool) l :
  (forall c, p c = true -> isspace_char c = false) ->
  existsb p (strip_chars l) = existsb p l.
Proof.
  intros Hp. unfold strip_chars.
  now rewrite existsb_rev, (existsb_lstrip p _ Hp), existsb_rev, (existsb_lstrip p _ Hp).
Qed.

Lemma strip_lower s : chars (strip (lower s)) = map lower_char (strip_chars (chars s)).
Proof.
  unfold strip, lower. rewrite !chars_text.
  exact (strip_chars_map_lower (chars s)).
Qed.

Lemma trimmed_no_space l : Forall (fun c => isspace_char c = false) l -> trimmed l.
Proof.
  intros H. split; apply lstrip_fixed.
  - destruct l as [| c l]; [exact I |]. now apply Forall_cons in H as [H _].
  - destruct (rev l) as [| c r] eqn:E; [exact I |].
    rewrite Forall_forall in H. apply H.
    apply list_elem_of_In, in_rev. rewrite E. now left.
Qed.

End TextFacts.

(** ** The validators on normalised text *)

Module ValidatorFacts.
Import Text TextFacts Models.

Lemma existsb_map {A B} (f : B -> bool) (g : A -> B) l :
  existsb f (map g l) = existsb (fun x => f (g x)) l.
Proof. induction l as [| a l IH]; simpl; [reflexivity | now rewrite IH]. Qed.

Lemma forallb_map {A B} (f : B -> bool) (g : A -> B) l :
  forallb f (map g l) = forallb (fun x => f (g x)) l.
Proof. induction l as [| a l IH]; simpl; [reflexivity | now rewrite IH]. Qed.

Lemma existsb_pointwise {A} (f g : A -> bool) l :
  (forall x, f x = g x) -> existsb f l = existsb g l.
Proof. intros H. induction l as [| a l IH]; simpl; [reflexivity | now rewrite H, IH]. Qed.

Lemma forallb_pointwise {A} (f g : A -> bool) l :
  (forall x, f x = g x) -> forallb f l = forallb g l.
Proof. intros H. induction l as [| a l IH]; simpl; [reflexivity | now rewrite H, IH]. Qed.

Lemma chars_eq s1 s2 : chars s1 = chars s2 -> s1 = s2.
Proof. intros H. rewrite <- (text_chars s1), <- (text_chars s2). now rewrite H. Qed.

Lemma truthy_chars s : truthy_str s = match chars s with [] => false | _ => true end.
Proof. destruct s; reflexivity. Qed.

Lemma forallb_lstrip (p : ascii -> bool) l :
  forallb p l = true -> forallb p (lstrip_chars l) = true.
Proof.
  induction l as [| c l IH]; cbn; [auto |].
  intros H. destruct (isspace_char c); [| exact H].
  apply andb_prop in H as [_ H]. auto.
Qed.

Lemma forallb_rev (p : ascii -> bool) l : forallb p (rev l) = forallb p l.
Proof.
  induction l as [| c l IH]; cbn; [reflexivity |].
  rewrite forallb_app, IH. cbn. rewrite andb_true_r. apply andb_comm.
Qed.

Lemma forallb_strip_chars (p : ascii -> bool) l :
  forallb p l = true -> forallb p (strip_chars l) = true.
Proof.
  intros H. unfold strip_chars. rewrite forallb_rev. apply forallb_lstrip.
  rewrite forallb_rev. now apply forallb_lstrip.
Qed.

Lemma ascii_lower_char c :
  Nat.ltb (code (lower_char c)) 128 = Nat.ltb (code c) 128.
Proof. all_chars c. Qed.

Lemma name_char_ascii c : name_char c = true -> Nat.ltb (code c) 128 = true.
Proof.
  destruct c as [[] [] [] [] [] [] [] []]; intros H; (reflexivity || discriminate H).
Qed.

(** X1 — for an ASCII address, what [validate_email] stores is a fixed
    point of the validator: the stored email is ASCII, validates to itself,
    has no upper-case letter and no surrounding whitespace. *)
Theorem validate_email_normal_form e e' :
  isascii e = true ->
  validate_email e = Ok e' ->
  isascii e' = true /\
  validate_email e' = Ok e' /\
  Forall (fun c => isupper_char c = false) (chars e') /\
  trimmed (chars e').
Proof.
  intros Hascii. unfold validate_email at 1.
  destruct (negb (truthy_str e) || negb (contains_char "@" e))%bool eqn:Hguard;
    [discriminate |].
  intros [= <-].
  apply orb_false_elim in Hguard as [_ Hat]. apply negb_false_iff in Hat.
  unfold contains_char in Hat.
  pose proof (strip_lower e) as Hchars.
  assert (Hat' : existsb (Ascii.eqb "@") (chars (strip (lower e))) = true).
  { rewrite Hchars, existsb_map.
    rewrite (existsb_pointwise _ (Ascii.eqb "@")) by (intros c; apply at_lower_char).
    rewrite existsb_strip_chars by apply at_not_space. exact Hat. }
  split; [| split; [| split]].
  - unfold isascii. rewrite Hchars, forallb_map.
    rewrite (forallb_pointwise _ (fun c => Nat.ltb (code c) 128))
      by (intros c; apply ascii_lower_char).
    apply forallb_strip_chars. exact Hascii.
  - assert (Htruthy : truthy_str (strip (lower e)) = true).
    { rewrite truthy_chars.
      destruct (chars (strip (lower e))); [discriminate Hat' | reflexivity]. }
    unfold validate_email, contains_char. rewrite Hat', Htruthy.
    simpl. f_equal. apply chars_eq.
    rewrite strip_lower, Hchars.
    now rewrite strip_chars_map_lower, map_lower_idem, strip_chars_idem.
  - rewrite Hchars. apply Forall_forall. intros c Hc.
    apply list_elem_of_In, in_map_iff in Hc as (c0 & <- & _).
    apply isupper_lower_char.
  - rewrite Hchars, <- strip_chars_map_lower. apply strip_chars_trimmed.
Qed.

Lemma validate_email_normal_form_witness :
  isascii "alice@x.com" = true /\
  validate_email "alice@x.com" = Ok "alice@x.com" /\
  Forall (fun c => isupper_char c = false) (chars "alice@x.com") /\
  trimmed (chars "alice@x.com").
Proof.
  apply (validate_email_normal_form "  Alice@X.com " "alice@x.com"); reflexivity.
Defined.

Lemma isalnum_lower_char c : isalnum_char (lower_char c) = isalnum_char c.
Proof. all_chars c. Qed.

(** X2 — an ASCII username that the request schemas accept is the
    lower-cased input, 3 to 100 characters long, made of lower-case letters,
    digits and underscores with at least one letter or digit, and the model
    validator stores it unchanged. *)
Theorem schema_username_reaches_model v n :
  isascii v = true ->
  Schemas.validate_username v = Ok n ->
  n = lower v /\
  isascii n = true /\
  3 <= len n <= 100 /\
  forallb name_char (chars n) = true /\
  existsb isalnum_char (chars n) = true /\
  validate_username n = Ok n.
Proof.
  intros Hascii. unfold Schemas.validate_username.
  destruct ((len v <? 3) || (100 <? len v))%bool eqn:Hlen; [discriminate |].
  destruct (negb (isalnum (Schemas.remove_underscores v))) eqn:Halnum; [discriminate |].
  intros [= <-].
  apply orb_false_elim in Hlen as [Hlo Hhi].
  apply Z.ltb_ge in Hlo, Hhi. apply negb_false_iff in Halnum.
  unfold isalnum, Schemas.remove_underscores in Halnum. rewrite chars_text in Halnum.
  set (F := filter (fun c => negb (Ascii.eqb c "_")) (chars v)) in Halnum.
  assert (HF : forall c, In c (chars v) -> Ascii.eqb c "_" = false -> In c F).
  { intros c Hc Hus. apply list_elem_of_In, list_elem_of_filter.
    split; [now rewrite Hus | now apply list_elem_of_In]. }
  assert (HFsub : forall c, In c F -> In c (chars v)).
  { intros c Hc. apply list_elem_of_In, list_elem_of_filter in Hc as [_ Hc].
    now apply list_elem_of_In. }
  assert (HFalnum : forallb isalnum_char F = true /\ F <> [])
    by (destruct F; [discriminate Halnum | split; [exact Halnum | discriminate]]).
  destruct HFalnum as [HFalnum HFne]. clear Halnum.
  assert (Hlenl : len (lower v) = len v).
  { unfold lower. rewrite len_text, length_map. unfold len. now rewrite length_chars. }
  assert (Hshape : forallb name_char (chars (lower v)) = true).
  { unfold lower. rewrite chars_text, forallb_map. apply forallb_forall.
    intros c Hc. rewrite <- name_char_lower.
    destruct (Ascii.eqb c "_") eqn:Hus; [apply orb_true_r |].
    rewrite orb_false_r. rewrite forallb_forall in HFalnum. auto. }
  assert (Hsome : existsb isalnum_char (chars (lower v)) = true).
  { unfold lower. rewrite chars_text, existsb_map.
    destruct F as [| c f] eqn:E; [contradiction |].
    apply existsb_exists. exists c. split.
    - apply HFsub. now left.
    - rewrite isalnum_lower_char. rewrite forallb_forall in HFalnum.
      apply HFalnum. now left. }
  split; [reflexivity |]. split.
  { unfold isascii. apply forallb_forall. intros c Hc. apply name_char_ascii.
    rewrite forallb_forall in Hshape. auto. }
  repeat split; try lia; try assumption.
  assert (Hall : Forall (fun c => name_char c = true) (chars (lower v)))
    by (apply Forall_forall; intros c Hc; apply list_elem_of_In in Hc;
        rewrite forallb_forall in Hshape; auto).
  unfold validate_username.
  replace (negb (truthy_str (lower v)) || (len (lower v) <? 3))%bool with false.
  2:{ symmetry. apply orb_false_intro; [| apply Z.ltb_ge; lia].
      rewrite truthy_chars.
      destruct (chars (lower v)); [discriminate Hsome | reflexivity]. }
  replace (negb (isalnum (lower v)) && negb (contains_char "_" (lower v)))%bool
    with false.
  2:{ symmetry. unfold contains_char.
      destruct (existsb (Ascii.eqb "_") (chars (lower v))) eqn:Hus;
        [apply andb_false_r |].
      rewrite andb_true_r. apply negb_false_iff. unfold isalnum.
      destruct (chars (lower v)) as [| c l] eqn:E; [discriminate Hsome |].
      rewrite <- E in *. apply forallb_forall. intros x Hx.
      apply name_char_cases.
      - rewrite forallb_forall in Hshape. auto.
      - destruct (Ascii.eqb "_" x) eqn:Ex; [| reflexivity].
        assert (existsb (Ascii.eqb "_") (chars (lower v)) = true)
          by (apply existsb_exists; eauto).
        congruence. }
  f_equal. apply chars_eq. rewrite strip_lower.
  rewrite strip_chars_fixed.
  - rewrite <- (map_id (chars (lower v))) at 2. apply map_ext_in.
    intros c Hc. apply name_char_fixed.
    rewrite forallb_forall in Hshape. auto.
  - apply trimmed_no_space. eapply Forall_impl; [exact Hall |].
    intros c. apply name_char_not_space.
Qed.

Lemma schema_username_reaches_model_witness :
  "alice_01" = lower "Alice_01" /\
  isascii "alice_01" = true /\
  3 <= len "alice_01" <= 100 /\
  forallb name_char (chars "alice_01") = true /\
  existsb isalnum_char (chars "alice_01") = true /\
  validate_username "alice_01" = Ok "alice_01".
Proof.
  apply (schema_username_reaches_model "Alice_01" "alice_01"); reflexivity.
Defined.

End ValidatorFacts.

(** ** Token issuing and the dependency chain *)

Module AuthPipelineFacts.
Import Models Schemas Json Config Auth AuthPipeline.

Lemma get_set_ne k k' v d : k <> k' -> Json.get k (Json.set k' v d) = Json.get k d.
Proof.
  intros Hne. apply String.eqb_neq in Hne.
  induction d as [| [k2 v2] d IH]; simpl.
  - now rewrite Hne.
  - destruct (String.eqb k' k2) eqn:E; simpl.
    + apply String.eqb_eq in E. subst k2. now rewrite Hne.
    + destruct (String.eqb k k2); auto.
Qed.

Lemma get_set_eq k n d : Json.get k (Json.set k (JNum n) d) = Some (JNum n).
Proof.
  induction d as [| [k2 v2] d IH]; simpl.
  - now rewrite String.eqb_refl.
  - destruct (String.eqb k k2) eqn:E; simpl; rewrite ?String.eqb_refl, ?E; auto.
Qed.

Lemma create_access_token_signs jose settings now data delta :
  create_access_token jose settings now data delta
  = jwt_encode jose (token_payload settings now data delta)
               (jwt_secret_key settings) (jwt_algorithm settings).
Proof. unfold create_access_token, token_payload, token_expiry. now destruct delta. Qed.

(** X3 — a token issued by [create_access_token] for a payload whose [sub]
    is the decimal text of [n] decodes, when the library returns the payload
    it signed, to claims with [user_id = n] and the username and email
    given; whatever [exp] the caller put in the data, the signed [exp] is
    the clock plus the time to live (the configured minutes when none, or a
    zero one, is given). *)
Theorem issued_token_decodes jose settings now data delta tok s n un em :
  create_access_token jose settings now data delta = Ok tok ->
  (jwt_encode jose (token_payload settings now data delta)
              (jwt_secret_key settings) (jwt_algorithm settings) = Ok tok ->
   jwt_decode jose tok (jwt_secret_key settings) [jwt_algorithm settings]
   = Ok (token_payload settings now data delta)) ->
  Json.get "sub" data = Some (JStr s) ->
  Json.int_of_str s = Ok n ->
  optional_str (Json.get "username" data) = Ok un ->
  optional_str (Json.get "email" data) = Ok em ->
  decode_access_token jose settings tok = Ok (Some (mkTokenData (Some n) un em)) /\
  Json.get "exp" (token_payload settings now data delta)
  = Some (JNum (now + match delta with
                      | Some d => if d =? 0
                                  then 60 * jwt_access_token_expire_minutes settings
                                  else d
                      | None => 60 * jwt_access_token_expire_minutes settings
                      end)).
Proof.
  intros Hissue Hlib Hsub Hint Hun Hem.
  rewrite create_access_token_signs in Hissue. specialize (Hlib Hissue).
  split.
  - unfold decode_access_token. rewrite Hlib. cbn [bind try_except].
    unfold token_payload.
    rewrite !get_set_ne by discriminate.
    rewrite Hsub. cbn. rewrite Hint. cbn. rewrite Hun. cbn. rewrite Hem. reflexivity.
  - unfold token_payload. rewrite get_set_ne by discriminate. rewrite get_set_eq.
    unfold token_expiry. destruct delta as [d |]; [destruct (d =? 0) |]; reflexivity.
Qed.

Lemma issued_token_decodes_witness :
  decode_access_token jose_issue Config.defaults "signed.alice.token"
  = Ok (Some (mkTokenData (Some 7) (Some "alice") (Some "alice@x.com"))) /\
  Json.get "exp" (token_payload Config.defaults 1700000000
                    [("sub", JStr "7"); ("username", JStr "alice");
                     ("email", JStr "alice@x.com"); ("exp", JNum 5)] None)
  = Some (JNum (1700000000 + 60 * 30)).
Proof.
  apply (issued_token_decodes jose_issue Config.defaults 1700000000
           [("sub", JStr "7"); ("username", JStr "alice");
            ("email", JStr "alice@x.com"); ("exp", JNum 5)] None
           "signed.alice.token" "7" 7 (Some "alice") (Some "alice@x.com"));
    reflexivity.
Defined.

Lemma get_current_user_inv jose settings fault table token u :
  get_current_user jose settings fault table token = Ok u ->
  In u table /\ deleted_at u = None /\
  exists td, decode_access_token jose settings token = Ok (Some td) /\
             user_id td = Some (id u).
Proof.
  unfold get_current_user.
  destruct (decode_access_token jose settings token) as [[td |] | e]; cbn;
    try discriminate.
  destruct (user_id td) as [uid |] eqn:Huid; cbn; try discriminate.
  destruct fault as [e |]; cbn; [discriminate |].
  destruct (List.filter _ table) as [| u0 [| u1 l]] eqn:Hf; cbn; try discriminate.
  intros [= <-].
  assert (Hin : In u0 (List.filter (fun u => (id u =? uid) && Db.not_deleted u) table))
    by (rewrite Hf; now left).
  apply filter_In in Hin as [Hin Hp]. apply andb_prop in Hp as [Hid Hlive].
  apply Z.eqb_eq in Hid. unfold Db.not_deleted, is_deleted in Hlive.
  split; [exact Hin |]. split.
  - destruct (deleted_at u0); [discriminate | reflexivity].
  - exists td. split; [reflexivity | congruence].
Qed.

(** X4 — whoever the dependency chain lets through is a row of the table
    that is not deleted, is active (and, for the superuser dependency, a
    superuser) and whose id is the subject of the decoded token; a resolved
    user who is inactive is refused as inactive, superuser or not. *)
Theorem dependency_chain_sound jose settings fault table token :
  (forall u,
      resolve_active jose settings fault table token = Ok u ->
      In u table /\ deleted_at u = None /\ is_active u = true /\
      exists td, decode_access_token jose settings token = Ok (Some td) /\
                 user_id td = Some (id u)) /\
  (forall u,
      resolve_superuser jose settings fault table token = Ok u ->
      In u table /\ deleted_at u = None /\ is_active u = true /\
      is_superuser u = true) /\
  (forall u,
      get_current_user jose settings fault table token = Ok u ->
      is_active u = false ->
      resolve_superuser jose settings fault table token
      = Raise (HTTPException 403 "Inactive user")).
Proof.
  assert (Hactive : forall u,
             resolve_active jose settings fault table token = Ok u ->
             get_current_user jose settings fault table token = Ok u /\
             is_active u = true).
  { intros u. unfold resolve_active, get_current_active_user.
    destruct (get_current_user jose settings fault table token) as [u0 | e]; cbn;
      [| discriminate].
    destruct (is_active u0) eqn:Ha; cbn; [| discriminate].
    intros [= <-]. auto. }
  split; [| split].
  - intros u Hu. destruct (Hactive u Hu) as [Hget Ha].
    destruct (get_current_user_inv _ _ _ _ _ _ Hget) as (Hin & Hdel & Htd). auto.
  - intros u. unfold resolve_superuser, get_current_superuser.
    destruct (resolve_active jose settings fault table token) as [u0 | e] eqn:Hr; cbn;
      [| discriminate].
    destruct (is_superuser u0) eqn:Hs; cbn; [| discriminate].
    intros [= <-]. destruct (Hactive u0 eq_refl) as [Hget Ha].
    destruct (get_current_user_inv _ _ _ _ _ _ Hget) as (Hin & Hdel & _). auto.
  - intros u Hget Hina. unfold resolve_superuser, resolve_active, get_current_active_user.
    rewrite Hget. cbn. rewrite Hina. reflexivity.
Qed.

Lemma dependency_chain_sound_witness :
  In (Fixtures.alice None) [Fixtures.alice None; Fixtures.bob] /\ deleted_at (Fixtures.alice None) = None /\
  is_active (Fixtures.alice None) = true /\
  exists td, decode_access_token jose_fixture Config.defaults "signed.7.token"
             = Ok (Some td) /\
             user_id td = Some (id (Fixtures.alice None)).
Proof.
  apply (proj1 (dependency_chain_sound jose_fixture Config.defaults None
                  [Fixtures.alice None; Fixtures.bob] "signed.7.token") (Fixtures.alice None)).
  reflexivity.
Defined.

End AuthPipelineFacts.

(** ** The other cache operations *)

Module CacheMoreFacts.
Import Config Cache Lifecycle Fixtures.

Section FailOpen.
Context {S : Type}.
Variables (settings : Settings) (codec : Codec) (self : CacheManager S).

Lemma swallowed {A} (body : M S A) (d : A) s :
  exists v, fst (try_exceptS body any_exception (fun _ => retS d) s) = Ok v.
Proof. unfold try_exceptS. destruct (body s) as [[a | e] s']; cbn; eauto. Qed.

Lemma swallowed_raise {A} (body : M S A) (d : A) s e s' :
  body s = (Raise e, s') ->
  try_exceptS body any_exception (fun _ => retS d) s = (Ok d, s').
Proof. intros H. unfold try_exceptS. now rewrite H. Qed.

(** X5 — the writing operations of the cache manager fail open like
    [get]: [set], [delete], [exists], [clear_pattern], [increment] and
    [expire] never raise, whatever the client and the codec do; with
    caching disabled the first four answer [False]/[0] without sending
    anything; and a backend error turns into [False] (or [0] for
    [increment] and [clear_pattern]). *)
Theorem writers_fail_open (s : S) :
  (forall key v ttl, exists b, fst (set settings codec self key v ttl s) = Ok b) /\
  (forall key, exists b, fst (delete settings self key s) = Ok b) /\
  (forall key, exists b, fst (exists_ settings self key s) = Ok b) /\
  (forall pattern, exists n, fst (clear_pattern settings self pattern s) = Ok n) /\
  (forall key amount, exists n, fst (increment self key amount s) = Ok n) /\
  (forall key ttl, exists b, fst (expire self key ttl s) = Ok b) /\
  (enable_cache settings = false ->
   forall key v ttl pattern,
     set settings codec self key v ttl s = (Ok false, s) /\
     delete settings self key s = (Ok false, s) /\
     exists_ settings self key s = (Ok false, s) /\
     clear_pattern settings self pattern s = (Ok 0, s)) /\
  (forall key e s',
      enable_cache settings = true ->
      on_redis self (fun c => r_delete c [key]) s = (Raise e, s') ->
      delete settings self key s = (Ok false, s')) /\
  (forall key amount e s',
      on_redis self (fun c => r_incrby c key amount) s = (Raise e, s') ->
      increment self key amount s = (Ok 0, s')) /\
  (forall key ttl e s',
      on_redis self (fun c => r_expire c key ttl) s = (Raise e, s') ->
      expire self key ttl s = (Ok false, s')).
Proof.
  split; [| split; [| split; [| split; [| split; [| split; [| split;
    [| split; [| split]]]]]]]].
  - intros key v ttl. unfold set.
    destruct (enable_cache settings); cbn; [apply swallowed | eauto].
  - intros key. unfold delete.
    destruct (enable_cache settings); cbn; [apply swallowed | eauto].
  - intros key. unfold exists_.
    destruct (enable_cache settings); cbn; [apply swallowed | eauto].
  - intros pattern. unfold clear_pattern.
    destruct (enable_cache settings); cbn; [apply swallowed | eauto].
  - intros key amount. apply swallowed.
  - intros key ttl. apply swallowed.
  - intros Hoff key v ttl pattern.
    unfold set, delete, exists_, clear_pattern. rewrite Hoff. cbn. auto.
  - intros key e s' Hon Hraise. unfold delete. rewrite Hon. cbn.
    eapply swallowed_raise. unfold bindS. rewrite Hraise. reflexivity.
  - intros key amount e s' Hraise. eapply swallowed_raise. exact Hraise.
  - intros key ttl e s' Hraise. eapply swallowed_raise. exact Hraise.
Qed.

End FailOpen.

Lemma writers_fail_open_witness :
  increment (mkCacheManager None) "hits" 1 Redis.empty = (Ok 0, Redis.empty).
Proof.
  apply (proj1 (proj2 (proj2 (proj2 (proj2 (proj2 (proj2 (proj2 (proj2
           (writers_fail_open enabled text_codec (mkCacheManager None) Redis.empty)))))))))
           "hits" 1 AttributeError Redis.empty).
  reflexivity.
Defined.

(** *** On the reference Redis *)

(** X6 — a text that is neither JSON nor a pickle, cached with a positive
    time to live, is served back unchanged up to and including the instant
    the time to live ends and is a miss after it; cached without one, or
    with [ttl=0] (which the code treats as none), it is served at any time;
    with a negative time to live the backend refuses the command, [set]
    answers [False] and the keys are as they were. *)
Theorem text_survives_until_ttl settings codec key s ttl now now' default ks :
  enable_cache settings = true ->
  json_loads codec (PStr s) = Raise JSONDecodeError ->
  pickle_loads codec (PStr s) = Raise TypeError ->
  match ttl with
  | Some t =>
      if t <? 0
      then fst (set settings codec (at_time now) key (PStr s) ttl ks) = Ok false /\
           Redis.keys (snd (set settings codec (at_time now) key (PStr s) ttl ks))
           = Redis.keys ks
      else fst (set settings codec (at_time now) key (PStr s) ttl ks) = Ok true /\
           fst (get settings codec (at_time now') key default
                    (snd (set settings codec (at_time now) key (PStr s) ttl ks)))
           = Ok (if t =? 0 then PStr s
                 else if now' <=? now + t then PStr s else default)
  | None =>
      fst (set settings codec (at_time now) key (PStr s) ttl ks) = Ok true /\
      fst (get settings codec (at_time now') key default
               (snd (set settings codec (at_time now) key (PStr s) ttl ks)))
      = Ok (PStr s)
  end.
Proof.
  intros Hen Hjson Hpickle.
  unfold set, get. rewrite Hen. cbn.
  unfold try_exceptS, bindS, liftS, retS, on_redis. cbn.
  destruct ttl as [t |].
  - destruct (Z.ltb_spec t 0) as [Hneg | Hpos].
    + replace (t =? 0) with false by (symmetry; apply Z.eqb_neq; lia). cbn.
      unfold Redis.setex. cbn.
      replace (0 <? t) with false by (symmetry; apply Z.ltb_ge; lia). cbn. auto.
    + destruct (Z.eqb_spec t 0) as [-> | Hnz]; cbn;
        unfold Redis.set, Redis.setex; cbn.
      * split; [reflexivity |].
        unfold Redis.get, Redis.lookup; cbn; rewrite lookup_insert_eq; cbn.
        now rewrite Hjson, Hpickle.
      * replace (0 <? t) with true by (symmetry; apply Z.ltb_lt; lia). cbn.
        split; [reflexivity |].
        unfold Redis.get, Redis.lookup; cbn; rewrite lookup_insert_eq; cbn.
        unfold Redis.live. cbn. destruct (now' <=? now + t); cbn; [| reflexivity].
        now rewrite Hjson, Hpickle.
  - cbn. unfold Redis.set. cbn. split; [reflexivity |].
    unfold Redis.get, Redis.lookup; cbn; rewrite lookup_insert_eq; cbn.
    now rewrite Hjson, Hpickle.
Qed.

Lemma text_survives_until_ttl_witness :
  (fst (set enabled text_codec (at_time 100) "greeting" (PStr "hello") (Some 300)
            Redis.empty) = Ok true /\
   fst (get enabled text_codec (at_time 400) "greeting" PNone
            (snd (set enabled text_codec (at_time 100) "greeting" (PStr "hello")
                      (Some 300) Redis.empty)))
   = Ok (PStr "hello")) /\
  fst (get enabled text_codec (at_time 401) "greeting" PNone
           (snd (set enabled text_codec (at_time 100) "greeting" (PStr "hello")
                     (Some 300) Redis.empty)))
  = Ok PNone.
Proof.
  split.
  - apply (text_survives_until_ttl enabled text_codec "greeting" "hello" (Some 300)
             100 400 PNone Redis.empty); reflexivity.
  - apply (text_survives_until_ttl enabled text_codec "greeting" "hello" (Some 300)
             100 401 PNone Redis.empty); reflexivity.
Defined.

(** X7 — [delete] answers whether the key was there, and afterwards the key
    is gone: [get] answers the default and [exists] answers [False], at any
    later time. *)
Theorem delete_then_miss settings codec key now now' default ks :
  enable_cache settings = true ->
  fst (delete settings (at_time now) key ks)
  = Ok (bool_decide (is_Some (Redis.lookup now ks key))) /\
  fst (get settings codec (at_time now') key default
           (snd (delete settings (at_time now) key ks))) = Ok default /\
  fst (exists_ settings (at_time now') key
               (snd (delete settings (at_time now) key ks))) = Ok false.
Proof.
  intros Hen. unfold delete, get, exists_. rewrite Hen. cbn.
  unfold try_exceptS, bindS, retS, on_redis. cbn.
  unfold Redis.delete. cbn.
  change (Redis.lookup now (Redis.record (Redis.DEL [key]) ks) key)
    with (Redis.lookup now ks key).
  destruct (Redis.lookup now ks key) as [e |] eqn:Hl; cbn;
    (split; [reflexivity |]);
    unfold Redis.get, Redis.exists_, Redis.lookup; cbn;
    rewrite lookup_delete_eq; cbn; auto.
Qed.

Lemma delete_then_miss_witness :
  fst (delete enabled (at_time 0) "greeting" greeting_store) = Ok true /\
  fst (get enabled text_codec (at_time 5) "greeting" (PStr "dflt")
           (snd (delete enabled (at_time 0) "greeting" greeting_store)))
  = Ok (PStr "dflt") /\
  fst (exists_ enabled (at_time 5) "greeting"
               (snd (delete enabled (at_time 0) "greeting" greeting_store))) = Ok false.
Proof.
  apply (delete_then_miss enabled text_codec "greeting" 0 5 (PStr "dflt") greeting_store).
  reflexivity.
Defined.

(** X8 — [connect] stores the client before it pings: when the ping
    raises, [connect] raises, yet the manager is left connected, so
    [get_redis] hands out the client and a second [connect] returns at once
    without pinging again. *)
Theorem connect_keeps_client_on_failed_ping {S : Type} (c : RedisClient S) s e s' :
  r_ping c s = (Raise e, s') ->
  let '(r, self', s1) := connect (Ok c) (mkCacheManager None) s in
  r = Raise e /\ s1 = s' /\
  get_redis self' s1 = (Ok c, s1) /\
  connect (Ok c) self' s1 = (Ok tt, self', s1).
Proof. intros Hping. unfold connect. cbn. rewrite Hping. cbn. auto. Qed.

Lemma connect_keeps_client_on_failed_ping_witness :
  let '(r, self', s1) := connect (Ok (unreachable 0)) (mkCacheManager None) Redis.empty in
  r = Raise (BackendError "connection refused") /\ s1 = Redis.empty /\
  get_redis self' s1 = (Ok (unreachable 0), s1) /\
  connect (Ok (unreachable 0)) self' s1 = (Ok tt, self', s1).
Proof.
  apply (connect_keeps_client_on_failed_ping (unreachable 0) Redis.empty
           (BackendError "connection refused") Redis.empty).
  reflexivity.
Defined.

End CacheMoreFacts.
(** ** More on the rate limiter *)

Module LimiterFacts.
Import Cache RateLimit Fixtures LimiterFixtures.

Section Counted.
Context {S : Type}.
Variables (cm : CacheManager S) (time : Z) (self : RateLimitMiddleware).
Variable call_next : Request -> M S Response.

(** X9 — once the counter has been read: a request over the threshold is
    answered with status 429, the retry headers and the error body, on
    the state the counter commands left (the handler is not called); a
    request within it gets the handler's status and body with the three
    quota headers set; and when the handler raises, the [except] branch
    calls the handler a second time, on the state its first run left, and
    that second outcome is the result. *)
Theorem dispatch_after_count request s count ttl s1 :
  startswith "/health" (path request) = false ->
  read_counter cm self (rate_limit_key request) s = (Ok (count, ttl), s1) ->
  (requests_per_minute self < count ->
   exists r,
     dispatch cm time self call_next request s = (Ok r, s1) /\
     status_code r = 429 /\
     headers r = [("Retry-After", str_of_int ttl);
                  ("X-RateLimit-Limit", str_of_int (requests_per_minute self));
                  ("X-RateLimit-Remaining", "0");
                  ("X-RateLimit-Reset", str_of_int (time + ttl))] /\
     content r = [("error", Json.JStr "Rate limit exceeded");
                  ("message", Json.JStr ("Too many requests. Please try again in "
                                           ++ str_of_int ttl ++ " seconds."));
                  ("retry_after", Json.JNum ttl)]) /\
  (forall resp s2,
      count <= requests_per_minute self ->
      call_next request s1 = (Ok resp, s2) ->
      exists r,
        dispatch cm time self call_next request s = (Ok r, s2) /\
        status_code r = status_code resp /\
        content r = content resp /\
        headers r
        = set_header "X-RateLimit-Reset" (str_of_int (time + ttl))
            (set_header "X-RateLimit-Remaining"
               (str_of_int (Z.max 0 (requests_per_minute self - count)))
               (set_header "X-RateLimit-Limit"
                  (str_of_int (requests_per_minute self)) (headers resp)))) /\
  (forall e s2,
      count <= requests_per_minute self ->
      call_next request s1 = (Raise e, s2) ->
      dispatch cm time self call_next request s = call_next request s2).
Proof.
  intros Hpath Hread. unfold dispatch. rewrite Hpath.
  unfold try_exceptS, bindS, retS. rewrite Hread.
  split; [| split].
  - intros Hover. apply Z.ltb_lt in Hover. rewrite Hover.
    eexists. split; [reflexivity |]. repeat split.
  - intros resp s2 Hin Hcall. apply Z.ltb_ge in Hin. rewrite Hin, Hcall.
    eexists. split; [reflexivity |]. repeat split.
  - intros e s2 Hin Hcall. apply Z.ltb_ge in Hin. now rewrite Hin, Hcall.
Qed.

End Counted.

Lemma dispatch_after_count_witness :
  exists r,
    dispatch (Lifecycle.at_time 1059) 1059 (init 3) failing_handler from_client old_window
    = (Ok r, snd (read_counter (Lifecycle.at_time 1059) (init 3)
                               (rate_limit_key from_client) old_window)) /\
    status_code r = 429 /\
    headers r = [("Retry-After", "1"); ("X-RateLimit-Limit", "3");
                 ("X-RateLimit-Remaining", "0"); ("X-RateLimit-Reset", "1060")].
Proof.
  destruct (proj1 (dispatch_after_count (Lifecycle.at_time 1059) 1059 (init 3)
                     failing_handler from_client old_window 5 1
                     (snd (read_counter (Lifecycle.at_time 1059) (init 3)
                             (rate_limit_key from_client) old_window))
                     eq_refl ltac:(vm_compute; reflexivity)) ltac:(cbn; lia))
    as (r & Hrun & Hstatus & Hheaders & _).
  exists r. split; [exact Hrun |]. split; [exact Hstatus |]. exact Hheaders.
Defined.

Example failing_handler_runs_twice :
  Redis.keys (snd (dispatch (Lifecycle.at_time 1000) 1000 (init 3) failing_handler
                            from_client Redis.empty)) !! "handler_calls"
  = Some (Redis.mkEntry (PInt 2) None).
Proof. vm_compute. reflexivity. Qed.

Section Saturated.
Variable N : Z.
Variable request : Request.
Variable call_next : Request -> M Redis.store Response.
Hypothesis not_health : startswith "/health" (path request) = false.

(** At the largest 64-bit integer the increment overflows, and the
    request goes to the handler like any other backend failure. *)
Lemma dispatch_overflow t s dl :
  Redis.keys s !! rate_limit_key request
  = Some (Redis.mkEntry (PInt Redis.max_int64) dl) ->
  before dl t ->
  dispatch (Lifecycle.at_time t) t (init N) call_next request s
  = call_next request (Redis.record (Redis.INCRBY (rate_limit_key request) 1) s).
Proof.
  intros Hentry Hlive.
  assert (Hl : Redis.live t (Redis.mkEntry (PInt Redis.max_int64) dl) = true).
  { unfold Redis.live. destruct dl as [d |]; cbn in *; [| reflexivity].
    apply Z.leb_le. lia. }
  unfold dispatch. rewrite not_health.
  unfold try_exceptS, bindS, read_counter, get_client, r_incr, bindS, retS. cbn.
  unfold Redis.incrby, Redis.lookup. cbn. rewrite Hentry, Hl. reflexivity.
Qed.

End Saturated.

(** X10 — a counter that has no expiry (the [EXPIRE] after its first
    increment was lost) is never given one.  For a handler that answers and
    leaves the counter alone, and as long as the counter stays a 64-bit
    integer: whenever the later requests come, each only increments it and
    reads a TTL of [-1], no [EXPIRE] is sent, and every request counted
    beyond the threshold is refused with status 429 and a retry hint of
    [-1].  At the largest 64-bit integer the increment fails and the
    request is handed to the handler. *)
Theorem counter_without_expiry_stays request call_next N j times s results s' :
  startswith "/health" (path request) = false ->
  leaves_alone (rate_limit_key request) call_next request ->
  Redis.keys s !! rate_limit_key request = Some (Redis.mkEntry (PInt j) None) ->
  0 < j ->
  j + Z.of_nat (length times) <= Redis.max_int64 ->
  serve (init N) call_next request times s = (results, s') ->
  (forall k t,
      times !! k = Some t ->
      N < j + 1 + Z.of_nat k ->
      exists r,
        results !! k = Some (Ok r) /\
        status_code r = 429 /\
        header "Retry-After" (headers r) = Some "-1" /\
        Json.get "retry_after" (content r) = Some (Json.JNum (-1))) /\
  Redis.keys s' !! rate_limit_key request
  = Some (Redis.mkEntry (PInt (j + Z.of_nat (length times))) None) /\
  List.filter (about (rate_limit_key request)) (Redis.received s') =
  (List.filter (about (rate_limit_key request)) (Redis.received s)
     ++ concat (replicate (length times)
                  [Redis.INCRBY (rate_limit_key request) 1;
                   Redis.TTL (rate_limit_key request)]))%list /\
  (j + Z.of_nat (length times) = Redis.max_int64 ->
   forall t,
     dispatch (Lifecycle.at_time t) t (init N) call_next request s'
     = call_next request
         (Redis.record (Redis.INCRBY (rate_limit_key request) 1) s')).
Proof.
  intros Hpath Hhandler Hentry Hj Hmax Hserve.
  destruct (WindowFacts.serve_later N request call_next Hpath Hhandler times s j None
              results s' Hentry Hj Hmax) as (Hres & Hkeys & Hlog); [| exact Hserve |].
  { apply Forall_forall. intros t _. exact I. }
  split; [| split; [exact Hkeys | split; [exact Hlog |]]].
  - intros k t Ht Hover. destruct (Hres k t Ht) as (r & Hr & Hans).
    unfold answered in Hans. cbn in Hans.
    apply Z.ltb_lt in Hover. rewrite Hover in Hans. subst r.
    eexists. split; [exact Hr |]. repeat split.
  - intros Hsat t. apply (dispatch_overflow N request call_next Hpath t s' None); [| exact I].
    rewrite Hkeys, Hsat. reflexivity.
Qed.

Lemma counter_without_expiry_stays_witness :
  exists r,
    fst (serve (init 1) (caching_handler plain) from_client [5000; 90000] stuck_counter)
    !! 1%nat = Some (Ok r) /\
    status_code r = 429 /\
    header "Retry-After" (headers r) = Some "-1".
Proof.
  destruct (serve (init 1) (caching_handler plain) from_client [5000; 90000] stuck_counter)
    as [results s'] eqn:Hrun.
  destruct (proj1 (counter_without_expiry_stays from_client (caching_handler plain) 1 1
                     [5000; 90000] stuck_counter results s' eq_refl
                     WindowFacts.caching_handler_leaves_alone
                     ltac:(vm_compute; reflexivity) ltac:(lia)
                     ltac:(unfold Redis.max_int64; cbn; lia) Hrun)
                  1%nat 90000 eq_refl ltac:(cbn; lia))
    as (r & Hr & Hs & Hh & _).
  exists r. auto.
Defined.

Example lost_expire_leaves_stuck_counter :
  let '(r, s) := dispatch (mkCacheManager (Some (lost_expire 900))) 900 (init 1)
                          (ok_handler plain) from_client Redis.empty in
  r = Ok plain /\
  Redis.keys s !! "rate_limit:10.0.0.1" = Some (Redis.mkEntry (PInt 1) None).
Proof. vm_compute. split; reflexivity. Qed.

(** X11 — once the deadline of a counter has passed, the next request
    opens a new window, for a handler that answers and leaves the counter
    alone: the request is counted as the first, the expiry is set again to
    60 seconds, and the handler's response goes out with [N - 1]
    remaining. *)
Theorem window_resets request call_next N t s e d :
  startswith "/health" (path request) = false ->
  leaves_alone (rate_limit_key request) call_next request ->
  1 <= N ->
  Redis.keys s !! rate_limit_key request = Some e ->
  Redis.deadline e = Some d ->
  d < t ->
  exists r resp st s',
    dispatch (Lifecycle.at_time t) t (init N) call_next request s = (Ok r, s') /\
    Redis.keys st !! rate_limit_key request
    = Some (Redis.mkEntry (PInt 1) (Some (t + 60))) /\
    call_next request st = (Ok resp, s') /\
    status_code r = status_code resp /\
    content r = content resp /\
    header "X-RateLimit-Limit" (headers r) = Some (str_of_int N) /\
    header "X-RateLimit-Remaining" (headers r) = Some (str_of_int (N - 1)) /\
    header "X-RateLimit-Reset" (headers r) = Some (str_of_int (t + 60)) /\
    Redis.keys s' !! rate_limit_key request
    = Some (Redis.mkEntry (PInt 1) (Some (t + 60))) /\
    List.filter (about (rate_limit_key request)) (Redis.received s') =
    (List.filter (about (rate_limit_key request)) (Redis.received s)
       ++ [Redis.INCRBY (rate_limit_key request) 1;
           Redis.EXPIRE (rate_limit_key request) 60;
           Redis.TTL (rate_limit_key request)])%list.
Proof.
  intros Hpath Hhandler HN Hentry Hdeadline Hpast.
  assert (Hgone : Redis.lookup t s (rate_limit_key request) = None).
  { unfold Redis.lookup, Redis.live. rewrite Hentry, Hdeadline.
    replace (t <=? d) with false by (symmetry; apply Z.leb_gt; lia). reflexivity. }
  pose proof (WindowFacts.read_counter_first N request t s Hgone) as Hread.
  unfold Lifecycle.at_time.
  rewrite (WindowFacts.dispatch_counted N request call_next Hpath t s _ _ _ Hread).
  replace (N <? 1) with false by (symmetry; apply Z.ltb_ge; lia).
  match goal with |- context [call_next request ?s1] =>
    destruct (Hhandler s1) as (resp & s2 & Hcall & Hkeys & Hlog) end.
  rewrite Hcall. eexists _, resp, _, s2.
  split; [reflexivity |].
  refine (conj _ (conj Hcall _)); [cbn; apply lookup_insert_eq |].
  split; [reflexivity |]. split; [reflexivity |]. cbn.
  split; [rewrite WindowFacts.header_set_ne, WindowFacts.header_set_ne,
                  WindowFacts.header_set_eq by discriminate; reflexivity |].
  split; [rewrite WindowFacts.header_set_ne, WindowFacts.header_set_eq by discriminate;
          do 2 f_equal; lia |].
  split; [rewrite WindowFacts.header_set_eq; do 2 f_equal; lia |].
  split.
  - rewrite Hkeys. cbn. apply lookup_insert_eq.
  - rewrite Hlog. cbn. rewrite List.filter_app. cbn.
    now rewrite !String.eqb_refl.
Qed.

Lemma window_resets_witness :
  exists r s',
    dispatch (Lifecycle.at_time 1061) 1061 (init 3) (caching_handler plain)
             from_client old_window = (Ok r, s') /\
    header "X-RateLimit-Remaining" (headers r) = Some "2" /\
    Redis.keys s' !! rate_limit_key from_client
    = Some (Redis.mkEntry (PInt 1) (Some (1061 + 60))).
Proof.
  destruct (window_resets from_client (caching_handler plain) 3 1061 old_window
              (Redis.mkEntry (PInt 4) (Some 1060)) 1060 eq_refl
              WindowFacts.caching_handler_leaves_alone ltac:(lia)
              ltac:(vm_compute; reflexivity) eq_refl ltac:(lia))
    as (r & resp & st & s' & Hrun & _ & _ & _ & _ & _ & Hrem & _ & Hkeys & _).
  exists r, s'. auto.
Defined.

End LimiterFacts.

(** ** Creating and listing users *)

Module AccountsFacts.
Import Models Schemas Config Cache Security Service Accounts Fixtures.
Import ServiceFacts.

Section Create.
Context {S : Type}.
Variable env : Env S.

Lemma emits_db_commit_new P user :
  (forall b, P (DbCommit b)) -> emits P (db_commit_new env user).
Proof.
  intros H w. unfold db_commit_new.
  destruct (db_fault env _); [| destruct (violates_unique _ _)];
    eexists [_]; cbn; (split; [reflexivity | auto]).
Qed.

Lemma create_user_no_cache next_id data :
  emits no_cache_event (create_user env next_id data).
Proof.
  unfold create_user, get_user_by_email, get_user_by_username.
  repeat first [ apply emits_db_commit_new; intros; exact I | emits_step ].
Qed.

Lemma violates_unique_id table u :
  violates_unique table u = false ->
  List.find (fun row => id row =? id u) (table ++ [u]) = Some u.
Proof.
  unfold violates_unique. induction table as [| r table IH]; cbn.
  - now rewrite Z.eqb_refl.
  - intros H. apply orb_false_elim in H as [H Hrest].
    apply orb_false_elim in H as [H _]. apply orb_false_elim in H as [H _].
    rewrite H. now apply IH.
Qed.

(** What a successful [create_user] went through. *)
Lemma create_user_inv next_id data w ref w' :
  create_user env next_id data w = (Ok ref, w') ->
  exists hashed u,
    List.filter (fun r => String.eqb (email r) (lower (new_email data))
                          && Db.not_deleted r) (rows w) = [] /\
    get_password_hash (pwd_context env) (next_salt env) (new_password data) = Ok hashed /\
    new_user env next_id data hashed = Ok u /\
    violates_unique (rows w) u = false /\
    ref = mkRef (PUser u) true /\
    rows w' = (rows w ++ [u])%list /\
    kv w' = kv w.
Proof.
  intros Hrun.
  unfold create_user, get_user_by_email, get_user_by_username, bindS, db_execute,
    liftS, raiseS in Hrun. cbn in Hrun.
  destruct (db_fault env (length (trace w))) as [e |]; cbn in Hrun;
    [discriminate Hrun |].
  destruct (List.filter (fun u => String.eqb (email u) _ && _) (rows w))
    as [| a [| b l]] eqn:Hmail; cbn in Hrun; try discriminate Hrun.
  destruct (db_fault env (length (trace w ++ [DbExecute true]))) as [e |];
    cbn in Hrun; [discriminate Hrun |].
  destruct (List.filter (fun u => String.eqb (username u) _ && _) (rows w))
    as [| a [| b l]] eqn:Hname; cbn in Hrun; try discriminate Hrun.
  destruct (get_password_hash _ _ _) as [hashed | e] eqn:Hhash; cbn in Hrun;
    [| discriminate Hrun].
  destruct (new_user env next_id data hashed) as [u | e] eqn:Hnew; cbn in Hrun;
    [| discriminate Hrun].
  unfold db_commit_new in Hrun. cbn in Hrun.
  destruct (db_fault env (length ((trace w ++ [DbExecute true]) ++ [DbExecute true])))
    as [e |]; cbn in Hrun; [discriminate Hrun |].
  fold (violates_unique (rows w) u) in Hrun.
  destruct (violates_unique (rows w) u) eqn:Huniq; cbn in Hrun; [discriminate Hrun |].
  unfold db_refresh in Hrun. cbn in Hrun.
  destruct (db_fault env _) as [e |]; cbn in Hrun; [discriminate Hrun |].
  rewrite (violates_unique_id _ _ Huniq) in Hrun. cbn in Hrun.
  injection Hrun as <- <-. exists hashed, u. cbn. auto 10.
Qed.

End Create.

(** X12 — a successful [create_user] appends exactly one row: its email and
    username are the validated (lower-cased, trimmed) inputs, the password
    is stored hashed, the flags are active / not verified / not superuser,
    it is not deleted, and its id is the one the sequence handed out; the
    cache is neither read nor written; and looking the user up by the email
    given (when it has no surrounding whitespace) finds that row. *)
Theorem create_user_persists {S : Type} (env env2 : Env S) next_id data w ref w' :
  create_user env next_id data w = (Ok ref, w') ->
  exists u,
    ref = mkRef (PUser u) true /\
    rows w' = (rows w ++ [u])%list /\
    id u = next_id /\
    validate_email (new_email data) = Ok (email u) /\
    validate_username (new_username data) = Ok (username u) /\
    get_password_hash (pwd_context env) (next_salt env) (new_password data)
    = Ok (hashed_password u) /\
    is_active u = true /\ is_verified u = false /\ is_superuser u = false /\
    deleted_at u = None /\
    (exists tr, trace w' = (trace w ++ tr)%list /\ Forall no_cache_event tr) /\
    (validate_email (new_email data) = Ok (lower (new_email data)) ->
     db_fault env2 (length (trace w')) = None ->
     fst (get_user_by_email env2 (new_email data) w') = Ok (Some u)).
Proof.
  intros Hrun.
  destruct (create_user_inv env next_id data w ref w' Hrun)
    as (hashed & u & Hmail & Hhash & Hnew & Huniq & -> & Hrows & Hkv).
  exists u. unfold new_user in Hnew.
  destruct (validate_email (new_email data)) as [e |] eqn:He; cbn in Hnew;
    [| discriminate].
  destruct (validate_username (new_username data)) as [n |] eqn:Hn; cbn in Hnew;
    [| discriminate].
  injection Hnew as <-. cbn.
  repeat split; auto.
  - pose proof (create_user_no_cache env next_id data w) as (tr & Htr & Hall).
    rewrite Hrun in Htr. eauto.
  - intros [= ->] Hdb.
    unfold get_user_by_email, bindS, db_execute, liftS. cbn. rewrite Hdb. cbn.
    rewrite Hrows, List.filter_app, Hmail. cbn. now rewrite String.eqb_refl.
Qed.

Lemma create_user_persists_witness :
  exists u,
    fst (create_user test_env 9 (mkUserCreate "Carol@X.com" "Carol_9" None "Abcd1234")
                     (start [alice None; bob]))
    = Ok (mkRef (PUser u) true) /\
    email u = "carol@x.com" /\ username u = "carol_9" /\ id u = 9.
Proof.
  destruct (create_user_persists test_env test_env 9
              (mkUserCreate "Carol@X.com" "Carol_9" None "Abcd1234")
              (start [alice None; bob])
              (mkRef (PUser (mkUser 9 "carol@x.com" "carol_9" "sAbcd1234" None true false
                                    false None None 1700000000 1700000000 None)) true)
              (snd (create_user test_env 9
                      (mkUserCreate "Carol@X.com" "Carol_9" None "Abcd1234")
                      (start [alice None; bob]))))
    as (u & Href & _ & Hid & Hemail & Hname & _).
  - vm_compute. reflexivity.
  - exists u. injection Href as <-. repeat split; reflexivity.
Defined.

(** X13 — [create_user] checks the email before the username: when a live
    user holds the lower-cased email the error names the email, whatever the
    username; when none does and a live user holds the lower-cased username
    the error names the username.  In both cases nothing is committed and
    the table is unchanged. *)
Theorem create_user_refuses_duplicates {S : Type} (env : Env S) next_id data w :
  (forall n, db_fault env n = None) ->
  (forall u,
      List.filter (fun r => String.eqb (email r) (lower (new_email data))
                            && Db.not_deleted r) (rows w) = [u] ->
      create_user env next_id data w
      = (Raise (email_taken (new_email data)),
         mkWorld (rows w) (kv w) (trace w ++ [DbExecute true]))) /\
  (forall u,
      List.filter (fun r => String.eqb (email r) (lower (new_email data))
                            && Db.not_deleted r) (rows w) = [] ->
      List.filter (fun r => String.eqb (username r) (lower (new_username data))
                            && Db.not_deleted r) (rows w) = [u] ->
      create_user env next_id data w
      = (Raise (username_taken (new_username data)),
         mkWorld (rows w) (kv w) (trace w ++ [DbExecute true; DbExecute true]))).
Proof.
  intros Hdb. split.
  - intros u Hmail.
    unfold create_user, get_user_by_email, bindS, db_execute, liftS, raiseS. cbn.
    rewrite Hdb. cbn. rewrite Hmail. reflexivity.
  - intros u Hmail Hname.
    unfold create_user, get_user_by_email, get_user_by_username, bindS, db_execute,
      liftS, raiseS. cbn.
    rewrite Hdb. cbn. rewrite Hmail. cbn. rewrite Hdb. cbn. rewrite Hname. cbn.
    now rewrite <- app_assoc.
Qed.

Lemma create_user_refuses_duplicates_witness :
  create_user test_env 9 (mkUserCreate "ALICE@x.com" "bob" None "Abcd1234")
              (start [alice None; bob])
  = (Raise (email_taken "ALICE@x.com"),
     mkWorld [alice None; bob] tt [DbExecute true]).
Proof.
  apply (proj1 (create_user_refuses_duplicates test_env 9
                  (mkUserCreate "ALICE@x.com" "bob" None "Abcd1234")
                  (start [alice None; bob]) (fun n => eq_refl)) (alice None)).
  reflexivity.
Defined.

(** X14 — the email (or username) of a soft-deleted account cannot be
    registered again: the service's own check ignores deleted rows, so the
    INSERT runs into the unique index, and [create_user] fails with the
    database's error instead of the duplicate error; the table is
    unchanged. *)
Theorem create_user_deleted_email_blocked {S : Type} (env : Env S) next_id data w hashed u old :
  (forall n, db_fault env n = None) ->
  List.filter (fun r => String.eqb (email r) (lower (new_email data))
                        && Db.not_deleted r) (rows w) = [] ->
  List.filter (fun r => String.eqb (username r) (lower (new_username data))
                        && Db.not_deleted r) (rows w) = [] ->
  get_password_hash (pwd_context env) (next_salt env) (new_password data) = Ok hashed ->
  new_user env next_id data hashed = Ok u ->
  In old (rows w) ->
  deleted_at old <> None ->
  email old = email u \/ username old = username u ->
  fst (create_user env next_id data w) = Raise unique_violation /\
  rows (snd (create_user env next_id data w)) = rows w.
Proof.
  intros Hdb Hmail Hname Hhash Hnew Hin Hdel Hsame.
  assert (Hviol : violates_unique (rows w) u = true).
  { unfold violates_unique. apply existsb_exists. exists old. split; [exact Hin |].
    destruct Hsame as [-> | ->]; rewrite String.eqb_refl;
      rewrite ?orb_true_r; reflexivity. }
  unfold create_user, get_user_by_email, get_user_by_username, bindS, db_execute,
    liftS, raiseS. cbn.
  rewrite Hdb. cbn. rewrite Hmail. cbn. rewrite Hdb. cbn. rewrite Hname. cbn.
  rewrite Hhash. cbn. rewrite Hnew. cbn.
  unfold db_commit_new. cbn. unfold violates_unique in Hviol.
  rewrite Hdb, Hviol. cbn. auto.
Qed.

Lemma create_user_deleted_email_blocked_witness :
  fst (create_user test_env 9 (mkUserCreate "alice@x.com" "alice2" None "Abcd1234")
                   (start [alice (Some 1650000000); bob]))
  = Raise unique_violation /\
  rows (snd (create_user test_env 9
               (mkUserCreate "alice@x.com" "alice2" None "Abcd1234")
               (start [alice (Some 1650000000); bob])))
  = [alice (Some 1650000000); bob].
Proof.
  apply (create_user_deleted_email_blocked test_env 9
           (mkUserCreate "alice@x.com" "alice2" None "Abcd1234")
           (start [alice (Some 1650000000); bob]) "sAbcd1234"
           (mkUser 9 "alice@x.com" "alice2" "sAbcd1234" None true false false None None
                   1700000000 1700000000 None)
           (alice (Some 1650000000))).
  - intros n. reflexivity.
  - reflexivity.
  - reflexivity.
  - reflexivity.
  - reflexivity.
  - now left.
  - discriminate.
  - now left.
Defined.

(** *** The order of a listing *)

Lemma insert_desc_perm key u l : Permutation (insert_desc key u l) (u :: l).
Proof.
  induction l as [| v l IH]; cbn; [reflexivity |].
  destruct (key v <=? key u); [reflexivity |].
  rewrite IH. apply perm_swap.
Qed.

Lemma order_by_desc_perm key l : Permutation (order_by_desc key l) l.
Proof.
  induction l as [| u l IH]; cbn; [reflexivity |].
  rewrite insert_desc_perm. now apply perm_skip.
Qed.

Lemma insert_desc_sorted key u l :
  StronglySorted (fun a b => key b <= key a) l ->
  StronglySorted (fun a b => key b <= key a) (insert_desc key u l).
Proof.
  induction 1 as [| v l Hl IH Hv]; cbn.
  - constructor; constructor.
  - destruct (Z.leb_spec (key v) (key u)) as [Hle | Hgt].
    + constructor; [constructor; assumption |].
      constructor; [exact Hle |].
      eapply List.Forall_impl; [| exact Hv]. cbn. intros x Hx. lia.
    + constructor; [exact IH |].
      apply List.Forall_forall. intros x Hx.
      apply (Permutation_in _ (insert_desc_perm key u l)) in Hx as [<- | Hx]; [lia |].
      rewrite List.Forall_forall in Hv. auto.
Qed.

Lemma order_by_desc_sorted key l :
  StronglySorted (fun a b => key b <= key a) (order_by_desc key l).
Proof.
  induction l as [| u l IH]; cbn; [constructor |]. now apply insert_desc_sorted.
Qed.

Lemma sorted_newest_first l :
  StronglySorted (fun a b => created_at b <= created_at a) l -> newest_first l.
Proof.
  induction 1 as [| v l Hl IH Hv]; intros i j a b Hij Ha Hb.
  - destruct i; discriminate Ha.
  - destruct i as [| i], j as [| j]; cbn in Ha, Hb.
    + injection Ha as <-. injection Hb as <-. lia.
    + injection Ha as <-. rewrite List.Forall_forall in Hv. apply Hv.
      apply list_elem_of_In, list_elem_of_lookup. eauto.
    + lia.
    + apply (IH i j); auto. lia.
Qed.

(** X15 — [get_users] reads the table without changing anything.  For
    non-negative [skip] and [limit] it returns the number of rows that are
    not deleted and match the [is_active] filter (whatever the page), and
    the page that starts after [skip] rows and holds at most [limit] rows of
    these rows put newest first: [min(limit, max(0, total - skip))] rows. *)
Theorem get_users_page {S : Type} (env : Env S) skip limit is_active_ w :
  (forall n, db_fault env n = None) ->
  0 <= skip -> 0 <= limit ->
  exists listing page w',
    get_users env skip limit is_active_ w
    = (Ok (page, Z.of_nat (length (List.filter (listed is_active_) (rows w)))), w') /\
    rows w' = rows w /\ kv w' = kv w /\
    Permutation listing (List.filter (listed is_active_) (rows w)) /\
    newest_first listing /\
    page = firstn (Z.to_nat limit) (skipn (Z.to_nat skip) listing) /\
    Z.of_nat (length page)
    = Z.min limit (Z.max 0 (Z.of_nat (length (List.filter (listed is_active_) (rows w)))
                           - skip)) /\
    (forall u, In u page ->
               In u (rows w) /\ deleted_at u = None /\
               forall a, is_active_ = Some a -> is_active u = a) /\
    newest_first page.
Proof.
  intros Hdb Hskip Hlimit.
  set (live := List.filter (listed is_active_) (rows w)) in *.
  pose proof (order_by_desc_perm created_at live) as Hperm.
  pose proof (sorted_newest_first _ (order_by_desc_sorted created_at live)) as Hsorted.
  exists (order_by_desc created_at live).
  exists (firstn (Z.to_nat limit) (skipn (Z.to_nat skip) (order_by_desc created_at live))).
  eexists. split; [| split; [| split; [| split; [| split; [| split; [| split; [| split]]]]]]].
  - unfold get_users, bindS, db_execute, retS. cbn. rewrite Hdb. cbn.
    replace ((skip <? 0) || (limit <? 0))%bool with false
      by (symmetry; apply orb_false_intro; apply Z.ltb_ge; lia).
    cbn. rewrite Hdb. cbn. reflexivity.
  - reflexivity.
  - reflexivity.
  - exact Hperm.
  - exact Hsorted.
  - reflexivity.
  - rewrite length_take, length_drop, (Permutation_length Hperm). lia.
  - intros u Hu. apply list_elem_of_In, list_elem_of_lookup in Hu as [i Hi].
    apply lookup_take_Some in Hi as [Hi _]. rewrite lookup_drop in Hi.
    assert (Hin : In u live).
    { apply (Permutation_in _ Hperm), list_elem_of_In.
      apply list_elem_of_lookup. eauto. }
    apply filter_In in Hin as [Hin Hp]. unfold listed in Hp.
    apply andb_prop in Hp as [Hlive Hact].
    split; [exact Hin |]. split.
    + unfold Db.not_deleted, is_deleted in Hlive.
      destruct (deleted_at u); [discriminate | reflexivity].
    + intros a ->. now apply Bool.eqb_prop in Hact.
  - intros i j a b Hij Ha Hb.
    apply lookup_take_Some in Ha as [Ha _]. apply lookup_take_Some in Hb as [Hb _].
    rewrite lookup_drop in Ha, Hb.
    apply (Hsorted (Z.to_nat skip + i)%nat (Z.to_nat skip + j)%nat); auto. lia.
Qed.

Lemma get_users_page_witness :
  exists w',
    get_users test_env 1 1 (Some true)
              (start [carol; dave None; erin; alice (Some 1650000000)])
    = (Ok ([carol], 2), w').
Proof.
  destruct (get_users_page test_env 1 1 (Some true)
              (start [carol; dave None; erin; alice (Some 1650000000)])
              (fun n => eq_refl) ltac:(lia) ltac:(lia))
    as (listing & page & w' & Hrun & _).
  exists w'. rewrite Hrun. vm_compute in Hrun. injection Hrun as <- _. reflexivity.
Defined.

End AccountsFacts.

(** ** Updates, verification and the cache entry *)

Module ServiceMoreFacts.
Import Models Schemas Config Cache Security Service Fixtures.
Import ServiceFacts.

(** The row a refresh finds after the commit of a changed object. *)
Lemma find_flushed now p table u :
  In u table -> id u = id p ->
  exists r,
    List.find (fun row => id row =? id p) (flush now (mkRef (PUser p) true) table) = Some r /\
    In r (flush now (mkRef (PUser p) true) table) /\
    (r = p \/ r = with_updated_at p now).
Proof.
  unfold flush. cbn. induction table as [| r0 table IH]; cbn; [contradiction |].
  intros Hin Hid.
  destruct (Z.eqb_spec (id r0) (id p)) as [E | E].
  - destruct (decide (r0 = p)) as [-> | Hne]; cbn.
    + rewrite Z.eqb_refl. exists p. split; [reflexivity |]. split; [now left | now left].
    + rewrite Z.eqb_refl. eexists. split; [reflexivity |].
      split; [now left | now right].
  - cbn. apply Z.eqb_neq in E. rewrite E.
    destruct Hin as [-> | Hin]; [apply Z.eqb_neq in E; contradiction |].
    destruct (IH Hin Hid) as (r & Hfind & Hr & Hcase).
    exists r. split; [exact Hfind |]. split; [now right | exact Hcase].
Qed.

Section Mutations.
Context {S : Type}.
Variable env : Env S.

(** What a lookup that misses the cache returns. *)
Lemma get_user_by_id_store uid w r w1 :
  cache_misses env (cache_key uid) w ->
  get_user_by_id env uid w = (Ok r, w1) ->
  rows w1 = rows w /\
  match r with
  | None => List.filter (fun u => (id u =? uid) && Db.not_deleted u) (rows w) = []
  | Some ref =>
      exists u, ref = mkRef (PUser u) true /\
                List.filter (fun u => (id u =? uid) && Db.not_deleted u) (rows w) = [u]
  end.
Proof.
  intros Hmiss Hrun.
  destruct (cache_get_miss env _ w Hmiss) as (o & s & Hget & Hfalsy).
  unfold get_user_by_id, bindS in Hrun. rewrite Hget, Hfalsy in Hrun.
  unfold db_execute in Hrun. cbn in Hrun.
  destruct (db_fault env _) as [e |]; cbn in Hrun; [discriminate Hrun |].
  destruct (List.filter _ (rows w)) as [| u0 [| u1 found]] eqn:Hfound;
    cbn in Hrun; try discriminate Hrun.
  - injection Hrun as <- <-. auto.
  - unfold cache_set, bindS, emit, on_cache in Hrun. cbn in Hrun.
    destruct (Cache.set _ _ _ _ _ _ s) as [[b1 | e1] s1]; cbn in Hrun;
      [| discriminate Hrun].
    injection Hrun as <- <-. cbn. eauto.
Qed.

Lemma found_row uid table u :
  List.filter (fun u => (id u =? uid) && Db.not_deleted u) table = [u] ->
  In u table /\ id u = uid /\ deleted_at u = None.
Proof.
  intros Hf.
  assert (Hin : In u (List.filter (fun u => (id u =? uid) && Db.not_deleted u) table))
    by (rewrite Hf; now left).
  apply filter_In in Hin as [Hin Hp]. apply andb_prop in Hp as [Hid Hlive].
  apply Z.eqb_eq in Hid. unfold Db.not_deleted, is_deleted in Hlive.
  repeat split; auto. destruct (deleted_at u); [discriminate | reflexivity].
Qed.

(** Commit, refresh, cache deletion and return, for an object [p] that
    replaces the stored row [u]. *)
Lemma persist_and_return uid u p w2 (r : option OrmRef) w' :
  In u (rows w2) -> id u = id p ->
  (_ <~ db_commit env (mkRef (PUser p) true) ;;
   user <~ db_refresh env (mkRef (PUser p) true) ;;
   _ <~ cache_delete env (cache_key uid) ;;
   _ <~ liftS (as_user (obj user)) ;;
   retS (Some user))%py w2 = (Ok r, w') ->
  exists x, r = Some (mkRef (PUser x) true) /\ In x (rows w') /\
            (x = p \/ x = with_updated_at p (utcnow env)).
Proof.
  intros Hin Hid Hrun. unfold bindS, db_commit in Hrun.
  destruct (db_fault env (length (trace w2))) as [e |]; cbn in Hrun;
    [discriminate Hrun |].
  unfold db_refresh in Hrun. cbn in Hrun.
  destruct (db_fault env _) as [e |]; cbn in Hrun; [discriminate Hrun |].
  destruct (find_flushed (utcnow env) p (rows w2) u Hin Hid) as (x & Hfind & Hx & Hcase).
  unfold flush in Hfind, Hx. cbn in Hfind, Hx. rewrite Hfind in Hrun. cbn in Hrun.
  unfold cache_delete, bindS, emit, on_cache in Hrun. cbn in Hrun.
  destruct (Cache.delete _ _ _ (kv w2)) as [[b | e] s]; cbn in Hrun;
    [| discriminate Hrun].
  injection Hrun as <- <-. exists x. cbn. auto.
Qed.

(** X16 — partial update: a patch that names neither email, username nor
    password changes only the columns it names.  When the user is loaded
    from the store, the returned row is stored in the table and differs
    from the row that was there only in [full_name] and [is_active], as
    far as the patch gives them, and in [updated_at]; a user the store
    does not hold gives [None] and leaves the table alone. *)
Theorem update_user_partial uid fn act w r w' :
  cache_misses env (cache_key uid) w ->
  update_user env uid (mkUserUpdate None None fn None act) w = (Ok r, w') ->
  match r with
  | None =>
      List.filter (fun u => (id u =? uid) && Db.not_deleted u) (rows w) = [] /\
      rows w' = rows w
  | Some ref =>
      exists u u',
      List.filter (fun u => (id u =? uid) && Db.not_deleted u) (rows w) = [u] /\
      ref = mkRef (PUser u') true /\
      In u' (rows w') /\
      id u' = uid /\ email u' = email u /\ username u' = username u /\
      hashed_password u' = hashed_password u /\
      is_verified u' = is_verified u /\ is_superuser u' = is_superuser u /\
      last_login_at u' = last_login_at u /\
      email_verified_at u' = email_verified_at u /\
      created_at u' = created_at u /\ deleted_at u' = None /\
      full_name u' = match fn with Some f => Some f | None => full_name u end /\
      is_active u' = match act with Some a => a | None => is_active u end
  end.
Proof.
  intros Hmiss Hrun. unfold update_user in Hrun. unfold bindS at 1 in Hrun.
  destruct (get_user_by_id env uid w) as [[[user |] | e] w1] eqn:Hget;
    try discriminate Hrun.
  - destruct (get_user_by_id_store uid w _ w1 Hmiss Hget) as (Hrows & u & -> & Hfound).
    destruct (found_row uid (rows w) u Hfound) as (Hin & Hid & Hdel).
    unfold bindS at 1 in Hrun.
    assert (Hpatch : apply_update env (mkRef (PUser u) true)
                       (mkUserUpdate None None fn None act) w1
                     = (Ok (mkRef (PUser (match act with
                                         | Some a =>
                                             with_is_active
                                               match fn with
                                               | Some f => with_full_name u (Some f)
                                               | None => u
                                               end a
                                         | None =>
                                             match fn with
                                             | Some f => with_full_name u (Some f)
                                             | None => u
                                             end
                                         end)) true), w1)).
    { unfold apply_update, bindS, retS, liftS, modify. cbn.
      destruct fn, act; reflexivity. }
    rewrite Hpatch in Hrun.
    match type of Hrun with
    | context [db_commit env (mkRef (PUser ?x) true)] => set (p' := x) in *
    end.
    assert (Hidp : id u = id p') by (subst p'; destruct fn, act; reflexivity).
    rewrite <- Hrows in Hin.
    destruct (persist_and_return uid u p' w1 r w' Hin Hidp Hrun)
      as (x & -> & Hinx & Hcase).
    exists u, x.
    repeat split; auto;
      destruct Hcase as [-> | ->]; subst p'; destruct fn, act; cbn; congruence.
  - destruct (get_user_by_id_store uid w _ w1 Hmiss Hget) as (Hrows & Hfound).
    injection Hrun as <- <-. auto.
Qed.

(** X17 — [verify_user_email] on a user loaded from the store marks the
    row verified and stamps [email_verified_at] with the clock; each of
    the ten other columns apart from [updated_at] keeps its value, and the
    row returned is the one stored.  A user the store does not hold gives
    [None]. *)
Theorem verify_user_email_marks uid w r w' :
  cache_misses env (cache_key uid) w ->
  verify_user_email env uid w = (Ok r, w') ->
  match r with
  | None =>
      List.filter (fun u => (id u =? uid) && Db.not_deleted u) (rows w) = [] /\
      rows w' = rows w
  | Some ref =>
      exists u u',
      List.filter (fun u => (id u =? uid) && Db.not_deleted u) (rows w) = [u] /\
      ref = mkRef (PUser u') true /\
      In u' (rows w') /\
      is_verified u' = true /\
      email_verified_at u' = Some (utcnow env) /\
      id u' = uid /\ email u' = email u /\ username u' = username u /\
      hashed_password u' = hashed_password u /\ full_name u' = full_name u /\
      is_active u' = is_active u /\ is_superuser u' = is_superuser u /\
      last_login_at u' = last_login_at u /\
      created_at u' = created_at u /\ deleted_at u' = None
  end.
Proof.
  intros Hmiss Hrun. unfold verify_user_email in Hrun. unfold bindS at 1 in Hrun.
  destruct (get_user_by_id env uid w) as [[[user |] | e] w1] eqn:Hget;
    try discriminate Hrun.
  - destruct (get_user_by_id_store uid w _ w1 Hmiss Hget) as (Hrows & u & -> & Hfound).
    destruct (found_row uid (rows w) u Hfound) as (Hin & Hid & Hdel).
    unfold bindS at 1 in Hrun. cbn [liftS modify obj as_user bind persistent] in Hrun.
    rewrite <- Hrows in Hin.
    destruct (persist_and_return uid u (verify_email (utcnow env) u) w1 r w' Hin
                eq_refl Hrun) as (x & -> & Hinx & Hcase).
    exists u, x.
    repeat split; auto; destruct Hcase as [-> | ->]; cbn; congruence.
  - destruct (get_user_by_id_store uid w _ w1 Hmiss Hget) as (Hrows & Hfound).
    injection Hrun as <- <-. auto.
Qed.

End Mutations.

Lemma update_user_partial_witness :
  exists u',
    fst (update_user test_env 7 (mkUserUpdate None None (Some "Alice A.") None (Some false))
                     (start [alice None; bob]))
    = Ok (Some (mkRef (PUser u') true)) /\
    email u' = "alice@x.com" /\ full_name u' = Some "Alice A." /\ is_active u' = false.
Proof.
  pose proof (update_user_partial test_env 7 (Some "Alice A.") (Some false)
                (start [alice None; bob])
                (Some (mkRef (PUser (mkUser 7 "alice@x.com" "alice" "$2b$12$digest"
                                            (Some "Alice A.") false false false None None
                                            1600000000 1700000000 None)) true))
                (snd (update_user test_env 7
                        (mkUserUpdate None None (Some "Alice A.") None (Some false))
                        (start [alice None; bob])))) as H.
  cbv beta iota in H.
  destruct H as (u & u' & Hfound & Href & _ & _ & Hemail & _ & _ & _ & _ & _ & _ & _ & _
                 & Hname & Hact).
  - exists PNone. split; reflexivity.
  - vm_compute. reflexivity.
  - exists u'. injection Href as <-. repeat split; reflexivity.
Defined.

Lemma verify_user_email_marks_witness :
  exists u',
    fst (verify_user_email test_env 7 (start [alice None; bob]))
    = Ok (Some (mkRef (PUser u') true)) /\
    is_verified u' = true /\ email_verified_at u' = Some 1700000000.
Proof.
  pose proof (verify_user_email_marks test_env 7 (start [alice None; bob])
                (Some (mkRef (PUser (mkUser 7 "alice@x.com" "alice" "$2b$12$digest"
                                            None true true false None (Some 1700000000)
                                            1600000000 1700000000 None)) true))
                (snd (verify_user_email test_env 7 (start [alice None; bob])))) as H.
  cbv beta iota in H.
  destruct H as (u & u' & _ & Href & _).
  - exists PNone. split; reflexivity.
  - vm_compute. reflexivity.
  - exists u'. injection Href as <-. repeat split; reflexivity.
Defined.

End ServiceMoreFacts.

(** ** The cache entry of a user, on the reference Redis *)

Module CoherenceFacts.
Import Models Schemas Config Cache Security Service Fixtures Lifecycle.
Import ServiceFacts.

Lemma to_int_shape z : Z.to_int z <> Decimal.Pos Decimal.Nil /\ Z.to_int z <> Decimal.Neg Decimal.Nil.
Proof.
  destruct z as [| p | p]; cbn; split; try discriminate.
  - intros [= H]. revert H. apply DecimalPos.Unsigned.to_uint_nonnil.
  - intros [= H]. revert H. apply DecimalPos.Unsigned.to_uint_nonnil.
Qed.

Lemma str_of_int_inj a b : str_of_int a = str_of_int b -> a = b.
Proof.
  unfold str_of_int. intros H.
  destruct (to_int_shape a) as [Ha1 Ha2]. destruct (to_int_shape b) as [Hb1 Hb2].
  pose proof (NilZero.isi _ Ha1 Ha2) as Ia. pose proof (NilZero.isi _ Hb1 Hb2) as Ib.
  rewrite H in Ia. rewrite Ia in Ib. injection Ib as Ib.
  now apply DecimalZ.to_int_inj.
Qed.

(** X18 — two users never share a cache entry, and no client address can
    make the rate limiter count in a user's cache entry: [user:<id>] keys
    are distinct for distinct ids and differ from every [rate_limit:<host>]
    key. *)
Theorem cache_keys_distinct (a b : Z) (request : RateLimit.Request) :
  (cache_key a = cache_key b -> a = b) /\
  cache_key a <> RateLimit.rate_limit_key request.
Proof.
  split.
  - unfold cache_key. cbn. intros [= H]. now apply str_of_int_inj.
  - unfold cache_key, RateLimit.rate_limit_key. cbn. discriminate.
Qed.

Section Connected.
Variable env : Env Redis.store.
Variable now : Z.
Hypothesis connected : cache_manager env = at_time now.
Hypothesis enabled : enable_cache (settings env) = true.

Lemma cache_delete_absent key w :
  Redis.keys (kv (snd (cache_delete env key w))) !! key = None.
Proof.
  unfold cache_delete, bindS, emit, on_cache. cbn.
  unfold Cache.delete. rewrite enabled, connected. cbn.
  unfold try_exceptS, bindS, retS, on_redis. cbn.
  unfold Redis.delete. cbn.
  destruct (Redis.lookup now _ key); cbn; apply lookup_delete_eq.
Qed.

Lemma invalidated_tail {A} key (user : OrmRef) (v : A) w4 x w' :
  (_ <~ cache_delete env key ;;
   _ <~ liftS (as_user (obj user)) ;;
   retS v)%py w4 = (Ok x, w') ->
  Redis.keys (kv w') !! key = None.
Proof.
  intros Hrun. pose proof (cache_delete_absent key w4) as Habs.
  unfold bindS in Hrun.
  destruct (cache_delete env key w4) as [[b | e] w5]; [| discriminate Hrun].
  unfold liftS, retS in Hrun.
  destruct (as_user (obj user)); [| discriminate Hrun].
  injection Hrun as _ <-. exact Habs.
Qed.

Lemma absent_misses (env2 : Env Redis.store) now2 key w :
  cache_manager env2 = at_time now2 ->
  Redis.keys (kv w) !! key = None ->
  cache_misses env2 key w.
Proof.
  intros Hcm Habs. exists PNone. split; [| reflexivity].
  unfold Cache.get. destruct (enable_cache (settings env2)); [| reflexivity].
  rewrite Hcm. cbn. unfold try_exceptS, bindS, retS, on_redis. cbn.
  unfold Redis.get, Redis.lookup. cbn. now rewrite Habs.
Qed.

(** X19 — cache coherence: with caching enabled and Redis reachable, a
    successful [update_user], [delete_user] or [verify_user_email] leaves
    no entry under [user:<id>], so the next lookup of that id (at any
    time, with any codec) is not served from the cache. *)
Theorem entry_gone_after_write uid w :
  (forall data r w',
      update_user env uid data w = (Ok (Some r), w') ->
      Redis.keys (kv w') !! cache_key uid = None /\
      forall env2 now2, cache_manager env2 = at_time now2 ->
                        cache_misses env2 (cache_key uid) w') /\
  (forall w',
      delete_user env uid w = (Ok true, w') ->
      Redis.keys (kv w') !! cache_key uid = None /\
      forall env2 now2, cache_manager env2 = at_time now2 ->
                        cache_misses env2 (cache_key uid) w') /\
  (forall r w',
      verify_user_email env uid w = (Ok (Some r), w') ->
      Redis.keys (kv w') !! cache_key uid = None /\
      forall env2 now2, cache_manager env2 = at_time now2 ->
                        cache_misses env2 (cache_key uid) w').
Proof.
  assert (Hboth : forall w', Redis.keys (kv w') !! cache_key uid = None ->
            Redis.keys (kv w') !! cache_key uid = None /\
            forall env2 now2, cache_manager env2 = at_time now2 ->
                              cache_misses env2 (cache_key uid) w').
  { intros w' H. split; [exact H |]. intros env2 now2 Hcm.
    now apply (absent_misses env2 now2). }
  split; [| split].
  - intros data r w' Hrun. apply Hboth. unfold update_user in Hrun.
    unfold bindS at 1 in Hrun.
    destruct (get_user_by_id env uid w) as [[[user |] | e] w1]; try discriminate Hrun.
    unfold bindS at 1 in Hrun.
    destruct (apply_update env user data w1) as [[u2 | e] w2]; try discriminate Hrun.
    unfold bindS at 1 in Hrun.
    destruct (db_commit env u2 w2) as [[[] | e] w3]; try discriminate Hrun.
    unfold bindS at 1 in Hrun.
    destruct (db_refresh env u2 w3) as [[u3 | e] w4]; try discriminate Hrun.
    exact (invalidated_tail _ _ _ _ _ _ Hrun).
  - intros w' Hrun. apply Hboth. unfold delete_user in Hrun.
    unfold bindS at 1 in Hrun.
    destruct (get_user_by_id env uid w) as [[[user |] | e] w1]; try discriminate Hrun.
    unfold bindS at 1 in Hrun.
    destruct (liftS _ w1) as [[u1 | e] w1']; try discriminate Hrun.
    unfold bindS at 1 in Hrun.
    destruct (liftS _ w1') as [[u2 | e] w2]; try discriminate Hrun.
    unfold bindS at 1 in Hrun.
    destruct (db_commit env u2 w2) as [[[] | e] w3]; try discriminate Hrun.
    exact (invalidated_tail _ _ _ _ _ _ Hrun).
  - intros r w' Hrun. apply Hboth. unfold verify_user_email in Hrun.
    unfold bindS at 1 in Hrun.
    destruct (get_user_by_id env uid w) as [[[user |] | e] w1]; try discriminate Hrun.
    unfold bindS at 1 in Hrun.
    destruct (liftS _ w1) as [[u1 | e] w1']; try discriminate Hrun.
    unfold bindS at 1 in Hrun.
    destruct (db_commit env u1 w1') as [[[] | e] w3]; try discriminate Hrun.
    unfold bindS at 1 in Hrun.
    destruct (db_refresh env u1 w3) as [[u3 | e] w4]; try discriminate Hrun.
    exact (invalidated_tail _ _ _ _ _ _ Hrun).
Qed.

(** X20 — read-through: a lookup that misses the cache and finds the
    user in the store returns the stored row and leaves its pickle under
    [user:<id>] with a deadline 300 seconds ahead; a lookup that finds no
    live row returns [None] and writes nothing. *)
Theorem get_user_by_id_populates uid w :
  cache_misses env (cache_key uid) w ->
  (forall n, db_fault env n = None) ->
  (forall u pickled,
      List.filter (fun u => (id u =? uid) && Db.not_deleted u) (rows w) = [u] ->
      pickle_dumps (codec env) (PUser u) = Ok pickled ->
      exists w',
        get_user_by_id env uid w = (Ok (Some (mkRef (PUser u) true)), w') /\
        rows w' = rows w /\
        Redis.keys (kv w') !! cache_key uid
        = Some (Redis.mkEntry pickled (Some (now + 300)))) /\
  (List.filter (fun u => (id u =? uid) && Db.not_deleted u) (rows w) = [] ->
   exists w',
     get_user_by_id env uid w = (Ok None, w') /\
     rows w' = rows w /\
     Redis.keys (kv w') = Redis.keys (kv w)).
Proof.
  intros Hmiss Hdb.
  destruct (cache_get_miss env _ w Hmiss) as (o & s & Hget & Hfalsy).
  assert (Hs : Redis.keys s = Redis.keys (kv w)).
  { unfold cache_get, bindS, emit, on_cache in Hget. cbn in Hget.
    unfold Cache.get in Hget. rewrite enabled, connected in Hget. cbn in Hget.
    unfold try_exceptS, bindS, retS, liftS, on_redis in Hget. cbn in Hget.
    unfold Redis.get in Hget.
    destruct (Redis.lookup now _ _) as [e |]; cbn in Hget.
    - destruct (try_except _ _ _) in Hget; injection Hget as _ <-; reflexivity.
    - injection Hget as _ <-. reflexivity. }
  split.
  - intros u pickled Hfound Hpickle.
    unfold get_user_by_id, bindS. rewrite Hget, Hfalsy.
    unfold db_execute. cbn. rewrite Hdb. cbn. rewrite Hfound. cbn.
    unfold cache_set, bindS, emit, on_cache. cbn.
    unfold Cache.set. rewrite enabled, connected. cbn.
    unfold try_exceptS, bindS, retS, liftS, on_redis. cbn. rewrite Hpickle. cbn.
    eexists. split; [reflexivity |]. cbn. split; [reflexivity |].
    apply lookup_insert_eq.
  - intros Hfound.
    unfold get_user_by_id, bindS. rewrite Hget, Hfalsy.
    unfold db_execute. cbn. rewrite Hdb. cbn. rewrite Hfound. cbn.
    eexists. split; [reflexivity |]. cbn. auto.
Qed.

End Connected.

Lemma entry_gone_after_write_witness :
  Redis.keys (kv (snd (update_user (connected_env 1700000000) 7
                         (mkUserUpdate None None (Some "Alice A.") None None)
                         (start_connected [alice None; bob])))) !! cache_key 7 = None.
Proof.
  refine (proj1 (proj1 (entry_gone_after_write (connected_env 1700000000) 1700000000
                          eq_refl eq_refl 7 (start_connected [alice None; bob]))
                       (mkUserUpdate None None (Some "Alice A.") None None)
                       (mkRef (PUser (mkUser 7 "alice@x.com" "alice" "$2b$12$digest"
                                             (Some "Alice A.") true false false None None
                                             1600000000 1700000000 None)) true)
                       _ _)).
  vm_compute. reflexivity.
Defined.

Lemma get_user_by_id_populates_witness :
  exists w',
    get_user_by_id (connected_env 1700000000) 7 (start_connected [alice None; bob])
    = (Ok (Some (mkRef (PUser (alice None)) true)), w') /\
    rows w' = [alice None; bob] /\
    Redis.keys (kv w') !! cache_key 7
    = Some (Redis.mkEntry (PBytes "<pickle>") (Some (1700000000 + 300))).
Proof.
  apply (proj1 (get_user_by_id_populates (connected_env 1700000000) 1700000000
                  eq_refl eq_refl 7 (start_connected [alice None; bob])
                  (ex_intro _ PNone (conj eq_refl eq_refl)) (fun n => eq_refl))
               (alice None) (PBytes "<pickle>")); reflexivity.
Defined.

End CoherenceFacts.

(** ** Which rows the service and the endpoints change *)

Module FrameFacts.
Import Models Schemas Config Cache Security Service Fixtures Frame.

Lemma untouched_refl uid table : untouched_except uid table table.
Proof. induction table; constructor; auto. Qed.

Lemma untouched_trans uid t1 t2 t3 :
  untouched_except uid t1 t2 -> untouched_except uid t2 t3 -> untouched_except uid t1 t3.
Proof.
  intros H12. revert t3. induction H12 as [| r r' t1 t2 [Hid Hsame] _ IH];
    intros t3 H23; inversion H23 as [| ? r'' ? t3' [Hid' Hsame'] Hrest]; subst;
    constructor.
  - split; [congruence |]. intros Hne. rewrite Hsame' by congruence. auto.
  - now apply IH.
Qed.

Lemma untouched_flush uid now r table :
  aimed uid r -> untouched_except uid table (flush now r table).
Proof.
  unfold aimed, flush. destruct (persistent r); [| intros _; apply untouched_refl].
  destruct (obj r) as [| | | | | | | | u]; try (intros _; apply untouched_refl).
  intros Hid. induction table as [| row table IH]; cbn; constructor; [| exact IH].
  destruct (Z.eqb_spec (id row) (id u)) as [E | E]; [| auto].
  destruct (decide (row = u)); [auto |]. cbn. split; [congruence |].
  intros Hne. congruence.
Qed.

Section Keeps.
Context {S : Type}.
Variable env : Env S.
Variable uid : Z.

Lemma keeps_ret {A} (P : A -> Prop) a : P a -> keeps (S:=S) uid P (retS a).
Proof.
  intros HP w. split; [apply untouched_refl |]. cbn. intros a0 [= <-]. exact HP.
Qed.

Lemma keeps_raise {A} (P : A -> Prop) e : keeps (S:=S) uid P (raiseS e).
Proof. intros w. split; [apply untouched_refl |]. cbn. discriminate. Qed.

Lemma keeps_lift {A} (P : A -> Prop) (r : pyresult A) :
  (forall a, r = Ok a -> P a) -> keeps (S:=S) uid P (liftS r).
Proof. intros HP w. split; [apply untouched_refl |]. cbn. exact (HP). Qed.

Lemma keeps_bind {A B} (P : A -> Prop) (Q : B -> Prop)
      (m : M (World S) A) (k : A -> M (World S) B) :
  keeps uid P m -> (forall a, P a -> keeps uid Q (k a)) -> keeps uid Q (bindS m k).
Proof.
  intros Hm Hk w. destruct (Hm w) as [Hrows Hres]. unfold bindS.
  destruct (m w) as [[a | e] w1]; cbn in *.
  - destruct (Hk a (Hres a eq_refl) w1) as [Hrows1 Hres1].
    split; [eapply untouched_trans; eauto | exact Hres1].
  - split; [exact Hrows | discriminate].
Qed.

Lemma keeps_weaken {A} (P Q : A -> Prop) (m : M (World S) A) :
  (forall a, P a -> Q a) -> keeps uid P m -> keeps uid Q m.
Proof. intros HPQ Hm w. destruct (Hm w) as [H1 H2]. split; auto. Qed.

Lemma keeps_try {A} (P : A -> Prop) (m : M (World S) A) catches handler :
  keeps uid P m -> (forall e, keeps uid P (handler e)) ->
  keeps uid P (try_exceptS m catches handler).
Proof.
  intros Hm Hh w. destruct (Hm w) as [Hrows Hres]. unfold try_exceptS.
  destruct (m w) as [[a | e] w1]; cbn in *.
  - split; [exact Hrows | exact Hres].
  - destruct (catches e); cbn; [| split; [exact Hrows | discriminate]].
    destruct (Hh e w1) as [Hrows1 Hres1].
    split; [eapply untouched_trans; eauto | exact Hres1].
Qed.

Lemma keeps_emit e : keeps uid (fun _ => True) (emit (S:=S) e).
Proof. intros w. split; [apply untouched_refl | auto]. Qed.

Lemma keeps_on_cache {A} (m : M S A) : keeps uid (fun _ => True) (on_cache m).
Proof.
  intros w. unfold on_cache. destruct (m (kv w)) as [r s]. cbn.
  split; [apply untouched_refl | auto].
Qed.

Lemma keeps_cache_get key : keeps uid (fun _ => True) (cache_get env key).
Proof.
  unfold cache_get. eapply keeps_bind; [apply keeps_emit |].
  intros _ _. apply keeps_on_cache.
Qed.

Lemma keeps_cache_set key v ttl : keeps uid (fun _ => True) (cache_set env key v ttl).
Proof.
  unfold cache_set. eapply keeps_bind; [apply keeps_emit |].
  intros _ _. apply keeps_on_cache.
Qed.

Lemma keeps_cache_delete key : keeps uid (fun _ => True) (cache_delete env key).
Proof.
  unfold cache_delete. eapply keeps_bind; [apply keeps_emit |].
  intros _ _. apply keeps_on_cache.
Qed.

Lemma keeps_db_execute where_ :
  keeps uid (fun found => Forall (fun u => where_ u = true) found)
        (db_execute env where_).
Proof.
  intros w. unfold db_execute. cbn. split; [apply untouched_refl |].
  intros found. destruct (db_fault env _); cbn; [discriminate |].
  intros [= <-]. apply List.Forall_forall. intros u Hu.
  now apply filter_In in Hu as [_ Hu].
Qed.

Lemma keeps_db_commit user :
  aimed uid user -> keeps uid (fun _ => True) (db_commit env user).
Proof.
  intros Haim w. unfold db_commit. destruct (db_fault env _); cbn.
  - split; [apply untouched_refl | auto].
  - split; [now apply untouched_flush | auto].
Qed.

Lemma keeps_db_refresh user : keeps uid (fun _ => True) (db_refresh env user).
Proof.
  intros w. unfold db_refresh. destruct (db_fault env _); cbn;
    (split; [apply untouched_refl | auto]).
Qed.

Lemma keeps_get_user_by_email e :
  keeps uid (fun _ => True) (get_user_by_email env e).
Proof.
  unfold get_user_by_email. eapply keeps_bind; [apply keeps_db_execute |].
  intros found _. apply keeps_lift. auto.
Qed.

Lemma keeps_get_user_by_username n :
  keeps uid (fun _ => True) (get_user_by_username env n).
Proof.
  unfold get_user_by_username. eapply keeps_bind; [apply keeps_db_execute |].
  intros found _. apply keeps_lift. auto.
Qed.

(** A lookup by id changes nothing, and what it loads from the store is a
    row with that id. *)
Lemma keeps_get_user_by_id :
  keeps uid (fun r => match r with Some ref => aimed uid ref | None => True end)
        (get_user_by_id env uid).
Proof.
  unfold get_user_by_id. eapply keeps_bind; [apply keeps_cache_get |].
  intros cached _. destruct (truthy cached).
  { apply keeps_ret. exact I. }
  eapply keeps_bind; [apply keeps_db_execute |].
  intros found Hfound. cbn beta in Hfound.
  eapply keeps_bind with (P := fun o => match o with
                                        | Some u => id u = uid
                                        | None => True
                                        end).
  { apply keeps_lift. intros [u |] Hu; [| exact I].
    destruct found as [| u0 [| u1 found]]; cbn in Hu; try discriminate Hu.
    injection Hu as <-. inversion Hfound as [| ? ? Hp _]; subst.
    apply andb_prop in Hp as [Hp _]. now apply Z.eqb_eq. }
  intros [u |] Hu.
  - eapply keeps_bind; [apply keeps_cache_set |].
    intros _ _. apply keeps_ret. exact Hu.
  - apply keeps_ret. exact I.
Qed.

Lemma modify_aimed f user user' :
  (forall u u', f u = Ok u' -> id u' = id u) ->
  aimed uid user -> modify f user = Ok user' -> aimed uid user'.
Proof.
  intros Hf. unfold aimed, modify.
  destruct (obj user) as [| | | | | | | | u]; cbn; try discriminate.
  destruct (f u) as [u' | e] eqn:Hfu; cbn; [| discriminate].
  intros Haim [= <-]. cbn. destruct (persistent user); [| exact I].
  rewrite (Hf u u' Hfu). exact Haim.
Qed.

Lemma keeps_modify f user :
  (forall u u', f u = Ok u' -> id u' = id u) ->
  aimed uid user -> keeps (S:=S) uid (aimed uid) (liftS (modify f user)).
Proof.
  intros Hf Haim. apply keeps_lift. intros user' Hm.
  exact (modify_aimed f user user' Hf Haim Hm).
Qed.

Lemma assign_email_id u v u' : assign_email u v = Ok u' -> id u' = id u.
Proof.
  unfold assign_email, Py.bind. destruct (validate_email v); [| discriminate].
  now intros [= <-].
Qed.

Lemma assign_username_id u v u' : assign_username u v = Ok u' -> id u' = id u.
Proof.
  unfold assign_username, Py.bind. destruct (Models.validate_username v); [| discriminate].
  now intros [= <-].
Qed.

Lemma plain_id (g : User -> User) :
  (forall u, id (g u) = id u) -> forall u u', Ok (g u) = Ok u' -> id u' = id u.
Proof. intros Hg u u' [= <-]. apply Hg. Qed.

Lemma keeps_apply_update user data :
  aimed uid user -> keeps uid (aimed uid) (apply_update env user data).
Proof.
  intros Haim. unfold apply_update.
  eapply keeps_bind with (P := aimed uid).
  { destruct (upd_email data) as [e |]; [| now apply keeps_ret].
    destruct (truthy_str e); [| now apply keeps_ret].
    eapply keeps_bind with (P := fun _ => True); [apply keeps_lift; auto |].
    intros current _. destruct (negb _); [| now apply keeps_ret].
    eapply keeps_bind; [apply keeps_get_user_by_email |].
    intros [x |] _; [apply keeps_raise |].
    apply keeps_modify; [| exact Haim]. intros u u'. apply assign_email_id. }
  clear user Haim. intros user Haim.
  eapply keeps_bind with (P := aimed uid).
  { destruct (upd_username data) as [n |]; [| now apply keeps_ret].
    destruct (truthy_str n); [| now apply keeps_ret].
    eapply keeps_bind with (P := fun _ => True); [apply keeps_lift; auto |].
    intros current _. destruct (negb _); [| now apply keeps_ret].
    eapply keeps_bind; [apply keeps_get_user_by_username |].
    intros [x |] _; [apply keeps_raise |].
    apply keeps_modify; [| exact Haim]. intros u u'. apply assign_username_id. }
  clear user Haim. intros user Haim.
  eapply keeps_bind with (P := aimed uid).
  { destruct (upd_full_name data) as [f |]; [| now apply keeps_ret].
    apply keeps_modify; [| exact Haim]. now apply plain_id. }
  clear user Haim. intros user Haim.
  eapply keeps_bind with (P := aimed uid).
  { destruct (upd_password data) as [p |]; [| now apply keeps_ret].
    destruct (truthy_str p); [| now apply keeps_ret].
    eapply keeps_bind with (P := fun _ => True); [apply keeps_lift; auto |].
    intros hashed _. apply keeps_modify; [| exact Haim]. now apply plain_id. }
  clear user Haim. intros user Haim.
  destruct (upd_is_active data) as [a |]; [| now apply keeps_ret].
  apply keeps_modify; [| exact Haim]. now apply plain_id.
Qed.

Lemma keeps_tail {A} (v : A) (user : OrmRef) :
  keeps uid (fun _ => True)
        (_ <~ cache_delete env (cache_key uid) ;;
         _ <~ liftS (as_user (obj user)) ;;
         retS v)%py.
Proof.
  eapply keeps_bind; [apply keeps_cache_delete |]. intros _ _.
  eapply keeps_bind with (P := fun _ => True); [apply keeps_lift; auto |].
  intros _ _. now apply keeps_ret.
Qed.

Lemma keeps_update_user data :
  keeps uid (fun _ => True) (Service.update_user env uid data).
Proof.
  unfold Service.update_user.
  eapply keeps_bind; [apply keeps_get_user_by_id |].
  intros [user |] Haim; [| now apply keeps_ret].
  eapply keeps_bind; [now apply keeps_apply_update |].
  intros user1 Haim1.
  eapply keeps_bind; [now apply keeps_db_commit |]. intros _ _.
  eapply keeps_bind; [apply keeps_db_refresh |]. intros user2 _.
  apply keeps_tail.
Qed.

Lemma keeps_delete_user :
  keeps uid (fun _ => True) (Service.delete_user env uid).
Proof.
  unfold Service.delete_user.
  eapply keeps_bind; [apply keeps_get_user_by_id |].
  intros [user |] Haim; [| now apply keeps_ret].
  eapply keeps_bind; [apply keeps_modify; [now apply plain_id | exact Haim] |].
  intros user1 Haim1.
  eapply keeps_bind; [apply keeps_modify; [now apply plain_id | exact Haim1] |].
  intros user2 Haim2.
  eapply keeps_bind; [now apply keeps_db_commit |]. intros _ _.
  apply keeps_tail.
Qed.

Lemma keeps_verify_user_email :
  keeps uid (fun _ => True) (Service.verify_user_email env uid).
Proof.
  unfold Service.verify_user_email.
  eapply keeps_bind; [apply keeps_get_user_by_id |].
  intros [user |] Haim; [| now apply keeps_ret].
  eapply keeps_bind; [apply keeps_modify; [now apply plain_id | exact Haim] |].
  intros user1 Haim1.
  eapply keeps_bind; [now apply keeps_db_commit |]. intros _ _.
  eapply keeps_bind; [apply keeps_db_refresh |]. intros user2 _.
  apply keeps_tail.
Qed.

End Keeps.

(** X21 — a write changes no other user's row.  Whatever the cache holds
    and whether or not the database or the cache fails on the way,
    [update_user], [delete_user] and [verify_user_email] for an id leave
    the table with the same rows in the same order, each with its id, and
    every row with another id exactly as it was. *)
Theorem writes_touch_only_target {S : Type} (env : Env S) (uid : Z) (w : World S) :
  (forall data,
      untouched_except uid (rows w) (rows (snd (Service.update_user env uid data w)))) /\
  untouched_except uid (rows w) (rows (snd (Service.delete_user env uid w))) /\
  untouched_except uid (rows w) (rows (snd (Service.verify_user_email env uid w))).
Proof.
  split; [| split].
  - intros data. apply (keeps_update_user env uid data w).
  - apply (keeps_delete_user env uid w).
  - apply (keeps_verify_user_email env uid w).
Qed.

Section Endpoints.
Context {S R : Type}.
Variable env : Env S.
Variable model_validate : pyobj -> pyresult R.
Variable describe : exn -> string.

Lemma keeps_update_route user_id data current_user :
  keeps user_id (fun _ => True)
        (Routes.update_user env model_validate describe user_id data current_user).
Proof.
  unfold Routes.update_user. destruct (_ && _); [apply keeps_raise |].
  apply keeps_try; [| intros e; apply keeps_raise].
  eapply keeps_bind; [apply keeps_update_user |].
  intros [user |] _; [| apply keeps_raise].
  destruct (truthy (obj user)); [| apply keeps_raise].
  eapply keeps_bind with (P := fun _ => True); [apply keeps_lift; auto |].
  intros _ _. apply keeps_lift. auto.
Qed.

(** X22 — what a caller who is not a superuser can reach: a [PUT] for
    another id and every [DELETE] are refused with 403 before anything is
    read or written, and a [PUT], whatever its outcome, leaves every row
    that is not the caller's own exactly as it was. *)
Theorem plain_user_reach (current_user : User) (user_id : Z) (w : World S) :
  is_superuser current_user = false ->
  (forall data,
      untouched_except (id current_user) (rows w)
        (rows (snd (Routes.update_user env model_validate describe
                      user_id data current_user w)))) /\
  (user_id <> id current_user ->
   forall data,
     Routes.update_user env model_validate describe user_id data current_user w
     = (Raise (HTTPException 403 "Not authorized to update this user"), w)) /\
  Routes.delete_user env user_id current_user w
  = (Raise (HTTPException 403 "Only superusers can delete users"), w).
Proof.
  intros Hplain.
  assert (Hother : user_id <> id current_user ->
            forall data,
              Routes.update_user env model_validate describe user_id data current_user w
              = (Raise (HTTPException 403 "Not authorized to update this user"), w)).
  { intros Hne data. unfold Routes.update_user. rewrite Hplain.
    destruct (Z.eqb_spec (id current_user) user_id) as [E | E]; [congruence |].
    reflexivity. }
  split; [| split].
  - intros data. destruct (Z.eq_dec user_id (id current_user)) as [-> | Hne].
    + apply (keeps_update_route (id current_user) data current_user w).
    + rewrite (Hother Hne data). apply untouched_refl.
  - exact Hother.
  - unfold Routes.delete_user. rewrite Hplain. reflexivity.
Qed.

End Endpoints.

Lemma plain_user_reach_witness :
  Routes.delete_user (connected_env 1700000000) 8 (alice None)
                     (start_connected [alice None; bob])
  = (Raise (HTTPException 403 "Only superusers can delete users"),
     start_connected [alice None; bob]).
Proof.
  apply (proj2 (proj2 (plain_user_reach (connected_env 1700000000) Routes.brief
                         (fun _ => "invalid") (alice None) 8
                         (start_connected [alice None; bob]) eq_refl))).
Defined.

End FrameFacts.

(** ** A deleted account, seen through the endpoints *)

Module AccountEndFacts.
Import Models Schemas Config Cache Security Auth Service Fixtures Lifecycle.
Import ServiceFacts.

Lemma no_live_row uid (table : list User) :
  (forall u, In u table -> id u = uid -> deleted_at u <> None) ->
  List.filter (fun u => (id u =? uid) && Db.not_deleted u) table = [].
Proof.
  intros Hgone. apply AuthFacts.filter_none. intros u Hu.
  destruct (Z.eqb_spec (id u) uid) as [Heq | Hne]; cbn; [| reflexivity].
  specialize (Hgone u Hu Heq). unfold Db.not_deleted, is_deleted.
  destruct (deleted_at u); [reflexivity | congruence].
Qed.

Lemma get_user_by_id_absent {S} (env : Env S) uid w :
  cache_misses env (cache_key uid) w ->
  (forall n, db_fault env n = None) ->
  (forall u, In u (rows w) -> id u = uid -> deleted_at u <> None) ->
  fst (get_user_by_id env uid w) = Ok None.
Proof.
  intros Hmiss Hdb Hgone.
  destruct (cache_get_miss env _ w Hmiss) as (o & s & Hget & Hfalsy).
  unfold get_user_by_id, bindS. rewrite Hget, Hfalsy.
  unfold db_execute. cbn. rewrite Hdb. cbn.
  rewrite (no_live_row uid (rows w) Hgone). reflexivity.
Qed.

Section Gone.
Context {R : Type}.
Variables env env2 : Env Redis.store.
Variables now now2 : Z.
Variable model_validate : pyobj -> pyresult R.
Variable describe : exn -> string.
Hypothesis connected : cache_manager env = at_time now.
Hypothesis enabled : enable_cache (settings env) = true.
Hypothesis connected2 : cache_manager env2 = at_time now2.
Hypothesis db_up : forall n, db_fault env2 n = None.

Lemma delete_user_entry_gone uid w w1 :
  Service.delete_user env uid w = (Ok true, w1) ->
  Redis.keys (kv w1) !! cache_key uid = None.
Proof.
  intros Hrun. unfold Service.delete_user in Hrun.
  unfold bindS at 1 in Hrun.
  destruct (get_user_by_id env uid w) as [[[user |] | e] w0]; try discriminate Hrun.
  unfold bindS at 1 in Hrun.
  destruct (liftS _ w0) as [[u1 | e] w0']; try discriminate Hrun.
  unfold bindS at 1 in Hrun.
  destruct (liftS _ w0') as [[u2 | e] w2]; try discriminate Hrun.
  unfold bindS at 1 in Hrun.
  destruct (db_commit env u2 w2) as [[[] | e] w3]; try discriminate Hrun.
  exact (CoherenceFacts.invalidated_tail env now connected enabled _ _ _ _ _ _ Hrun).
Qed.

(** X23 — a deleted account is gone for every caller.  After a [DELETE]
    that loaded the user from the store and succeeded (Redis reachable,
    caching enabled), the caller was a superuser, every row with that id
    carries a deletion timestamp, and while the database answers: [GET],
    [PUT] and a second [DELETE] for the id answer 404, and a bearer token
    whose subject is the id is refused with the 401 credentials error. *)
Theorem deleted_account_is_gone (uid : Z) (admin : User) (w w1 : World Redis.store) :
  cache_misses env (cache_key uid) w ->
  Routes.delete_user env uid admin w = (Ok tt, w1) ->
  is_superuser admin = true /\
  (forall u, In u (rows w1) -> id u = uid -> deleted_at u <> None) /\
  (forall reader,
      fst (Routes.get_user env2 model_validate uid reader w1)
      = Raise (Routes.not_found uid)) /\
  (forall data editor,
      id editor = uid \/ is_superuser editor = true ->
      fst (Routes.update_user env2 model_validate describe uid data editor w1)
      = Raise (Routes.not_found uid)) /\
  (forall admin2,
      is_superuser admin2 = true ->
      fst (Routes.delete_user env2 uid admin2 w1) = Raise (Routes.not_found uid)) /\
  (forall jose settings token td,
      decode_access_token jose settings token = Ok (Some td) ->
      user_id td = Some uid ->
      get_current_user jose settings None (rows w1) token
      = Raise credentials_exception).
Proof.
  intros Hmiss Hrun. unfold Routes.delete_user in Hrun.
  destruct (is_superuser admin) eqn:Hadmin; cbn in Hrun; [| discriminate Hrun].
  unfold bindS in Hrun.
  destruct (Service.delete_user env uid w) as [[[] | e] w'] eqn:Hdel;
    cbn in Hrun; try discriminate Hrun.
  injection Hrun as <-.
  pose proof (delete_user_marks_rows env uid w w' Hmiss Hdel) as Hgone.
  pose proof (delete_user_entry_gone uid w w' Hdel) as Habs.
  pose proof (CoherenceFacts.absent_misses env2 now2 (cache_key uid) w'
                connected2 Habs) as Hmiss2.
  pose proof (get_user_by_id_absent env2 uid w' Hmiss2 db_up Hgone) as Hnone.
  split; [reflexivity |]. split; [exact Hgone |].
  split; [| split; [| split]].
  - intros reader. unfold Routes.get_user, bindS.
    destruct (get_user_by_id env2 uid w') as [r w2]. cbn in Hnone. subst r.
    reflexivity.
  - intros data editor Hmay. unfold Routes.update_user.
    assert (Hguard : negb (id editor =? uid) && negb (is_superuser editor) = false).
    { destruct Hmay as [-> | ->]; [rewrite Z.eqb_refl; reflexivity |].
      now rewrite andb_false_r. }
    rewrite Hguard. unfold try_exceptS, Service.update_user, bindS.
    destruct (get_user_by_id env2 uid w') as [r w2]. cbn in Hnone. subst r.
    reflexivity.
  - intros admin2 Hadmin2. unfold Routes.delete_user. rewrite Hadmin2. cbn.
    unfold Service.delete_user, bindS.
    destruct (get_user_by_id env2 uid w') as [r w2]. cbn in Hnone. subst r.
    reflexivity.
  - intros jose settings token td Htd Huid. unfold get_current_user.
    rewrite Htd. cbn. rewrite Huid. cbn.
    rewrite (no_live_row uid (rows w') Hgone). reflexivity.
Qed.

End Gone.

Lemma deleted_account_is_gone_witness :
  fst (Routes.get_user (connected_env 1700000100) Routes.brief 7 bob
         (snd (Routes.delete_user (connected_env 1700000000) 7 Routes.root
                 (start_connected [alice None; bob; Routes.root]))))
  = Raise (Routes.not_found 7).
Proof.
  refine (proj1 (proj2 (proj2
            (deleted_account_is_gone (connected_env 1700000000)
               (connected_env 1700000100) 1700000000 1700000100 Routes.brief
               (fun _ => "invalid") eq_refl eq_refl eq_refl (fun n => eq_refl)
               7 Routes.root (start_connected [alice None; bob; Routes.root])
               (snd (Routes.delete_user (connected_env 1700000000) 7 Routes.root
                       (start_connected [alice None; bob; Routes.root])))
               _ _))) bob).
  - exists PNone. split; vm_compute; reflexivity.
  - vm_compute. reflexivity.
Defined.

End AccountEndFacts.
